(** * Chat widget core: a shallow embedding of the client-side pipeline

    The development follows the JavaScript sources:
    - [chatbot.util.js]  : [escapeHTML], [cleanLink], [renderMarkdown],
                           [splitIntoSubblocks];
    - [chatbot.state.js] : the session record, [saveChatbotSession],
                           [loadChatbotSession];
    - [chatbot.dom.js]   : [renderMessages], [startTypingIndicator],
                           [stopTypingIndicator], [setupPrivacyOverlay];
    - [chatbot.api.js]   : [startChat], [sendChatMessage];
    - [chatbot.js]       : [startNewChatIfNeeded] and the submit handler.

    A JavaScript string is a sequence of UTF-16 code units; it is modelled
    as a list of [N].  Regular expressions are kept as syntax trees that
    mirror the literals of the source and are run by a backtracking matcher
    that follows the ECMAScript matching rules.

    The session is a record with the ten fields of [state]; the values that
    come from the backend are JSON values or [undefined].  The page is kept
    as far as the program decides it: the nodes of the message list, the
    input and its lock, the end-of-chat placeholder.  Scrolling, the send
    icon and the choice of a fallback phrase are left out.  The functions
    that touch the session, the page, the storage or the network are
    written in a small monad over the world, with exceptions and with
    computations that never end; an [async] function runs from its call to
    its end on the answers the backend is going to give. *)

From Stdlib Require Import List ZArith NArith Lia Bool String Ascii Arith.
Import ListNotations.

Set Implicit Arguments.
Set Warnings "-register-all".

(* ===================================================================== *)
(** ** JavaScript strings                                                 *)
(* ===================================================================== *)

Module JsString.

Definition jsstring := list N.

(** Reading a source literal: the file stores literals as UTF-8; the
    decoder below yields the code units of the JavaScript string (all
    literals of the sources lie in the basic multilingual plane). *)
Fixpoint bytes (s : string) : list N :=
  match s with
  | EmptyString => []
  | String a r => N_of_ascii a :: bytes r
  end.

Fixpoint utf8 (fuel : nat) (b : list N) : jsstring :=
  match fuel with
  | O => []
  | S fuel' =>
    match b with
    | [] => []
    | b0 :: r =>
      if (b0 <? 192)%N then b0 :: utf8 fuel' r
      else if (b0 <? 224)%N then
        match r with
        | b1 :: r' => ((b0 - 192) * 64 + (b1 - 128))%N :: utf8 fuel' r'
        | _ => [b0]
        end
      else
        match r with
        | b1 :: b2 :: r' =>
          ((b0 - 224) * 4096 + (b1 - 128) * 64 + (b2 - 128))%N :: utf8 fuel' r'
        | _ => b0 :: r
        end
    end
  end.

Definition str (s : string) : jsstring :=
  let b := bytes s in utf8 (List.length b) b.

Definition chr (a : ascii) : N := N_of_ascii a.

Fixpoint eqs (a b : jsstring) : bool :=
  match a, b with
  | [], [] => true
  | x :: a', y :: b' => (x =? y)%N && eqs a' b'
  | _, _ => false
  end.

(** [s.slice(a, b)] for indices already clamped to [0 <= a], [0 <= b]. *)
Definition slice {A} (s : list A) (a b : nat) : list A :=
  firstn (b - a) (skipn a s).

Definition in_range (lo hi c : N) : bool := ((lo <=? c) && (c <=? hi))%N.

(** WhiteSpace and LineTerminator code units: the set used by [\s] and by
    [String.prototype.trim]. *)
Definition is_space (c : N) : bool :=
  in_range 9 13 c || (c =? 32)%N || (c =? 160)%N || (c =? 5760)%N
  || in_range 8192 8202 c || (c =? 8232)%N || (c =? 8233)%N
  || (c =? 8239)%N || (c =? 8287)%N || (c =? 12288)%N || (c =? 65279)%N.

(** LineTerminator: what [.] refuses and what [^]/[$] see under [m]. *)
Definition is_line_terminator (c : N) : bool :=
  (c =? 10)%N || (c =? 13)%N || (c =? 8232)%N || (c =? 8233)%N.

(** Word characters of [\b]: [A-Za-z0-9_]. *)
Definition is_word (c : N) : bool :=
  in_range 65 90 c || in_range 97 122 c || in_range 48 57 c || (c =? 95)%N.

Definition is_upper (c : N) : bool := in_range 65 90 c.

Fixpoint drop_while {A} (p : A -> bool) (s : list A) : list A :=
  match s with
  | [] => []
  | x :: r => if p x then drop_while p r else s
  end.

Section Generic.
Variable A : Type.
Variable code : A -> N.

Definition trimStart (s : list A) : list A :=
  drop_while (fun x => is_space (code x)) s.

Definition trimEnd (s : list A) : list A :=
  rev (drop_while (fun x => is_space (code x)) (rev s)).

Definition trim (s : list A) : list A := trimEnd (trimStart s).
End Generic.

End JsString.
Import JsString.

(* ===================================================================== *)
(** ** Regular expressions                                                *)
(* ===================================================================== *)

Module Regex.

Inductive citem : Type :=
| CChar (c : N)
| CRange (lo hi : N)
| CSpace.

Inductive regex : Type :=
| Eps
| Lit (c : N)
| Cls (neg : bool) (items : list citem)
| Dot
| Cat (r1 r2 : regex)
| Alt (r1 r2 : regex)
| Cap (n : nat) (r : regex)
| Rep (lo : nat) (hi : option nat) (greedy : bool) (r : regex)
| Ref (n : nat)
| WordB
| Bol
| Eol
| Look (neg : bool) (r : regex).

Record flags := { ignoreCase : bool; multiline : bool }.

Definition no_flags := {| ignoreCase := false; multiline := false |}.
Definition flag_i := {| ignoreCase := true; multiline := false |}.
Definition flag_m := {| ignoreCase := false; multiline := true |}.

(** Literal sequences and the usual quantifiers. *)
Fixpoint lits (s : jsstring) : regex :=
  match s with
  | [] => Eps
  | [c] => Lit c
  | c :: r => Cat (Lit c) (lits r)
  end.

Definition word (s : string) : regex := lits (str s).
Definition plus (r : regex) : regex := Rep 1 None true r.
Definition star (r : regex) : regex := Rep 0 None true r.
Definition star_lazy (r : regex) : regex := Rep 0 None false r.
Definition opt (r : regex) : regex := Rep 0 (Some 1) true r.

Fixpoint cats (rs : list regex) : regex :=
  match rs with
  | [] => Eps
  | [r] => r
  | r :: rs' => Cat r (cats rs')
  end.

(** Canonicalisation under the [i] flag.  Without the [u] flag a code unit
    is compared through [toUpperCase]; a non-ASCII unit never canonicalises
    to an ASCII one, and the patterns of this program contain only ASCII
    letters, so the ASCII table is all that is consulted. *)
Definition canon (c : N) : N :=
  if in_range 97 122 c then (c - 32)%N else c.

Definition lower (c : N) : N :=
  if in_range 65 90 c then (c + 32)%N else c.

Definition citem_match (it : citem) (c : N) : bool :=
  match it with
  | CChar a => (a =? c)%N
  | CRange lo hi => in_range lo hi c
  | CSpace => is_space c
  end.

Definition class_match (fl : flags) (items : list citem) (c : N) : bool :=
  existsb (fun it =>
             citem_match it c
             || (ignoreCase fl && (citem_match it (canon c) || citem_match it (lower c))))
          items.

Definition lit_match (fl : flags) (a c : N) : bool :=
  if ignoreCase fl then (canon a =? canon c)%N else (a =? c)%N.

(** Captures: the most recent binding of a group comes first. *)
Definition caps := list (nat * (nat * nat)).

Fixpoint get_cap (n : nat) (c : caps) : option (nat * nat) :=
  match c with
  | [] => None
  | (k, v) :: r => if Nat.eqb k n then Some v else get_cap n r
  end.

Definition clear_caps (grp : list nat) (c : caps) : caps :=
  filter (fun e => negb (existsb (Nat.eqb (fst e)) grp)) c.

Fixpoint groups (r : regex) : list nat :=
  match r with
  | Cat a b | Alt a b => groups a ++ groups b
  | Cap n a => n :: groups a
  | Rep _ _ _ a | Look _ a => groups a
  | _ => []
  end.

Definition result := option (nat * caps).
Definition cont := nat -> caps -> result.

Definition orelse (a : result) (b : unit -> result) : result :=
  match a with
  | Some z => Some z
  | None => b tt
  end.

(** RepeatMatcher: [lo] iterations are mandatory; once they are done an
    iteration that consumes nothing is refused, so every further iteration
    moves forward and [fuel] (the mandatory count plus the input length plus
    one) is never exhausted. *)
Fixpoint repeat_matcher (body : nat -> caps -> cont -> result) (grp : list nat)
         (greedy : bool) (fuel lo : nat) (hi : option nat)
         (i : nat) (c : caps) (k : cont) {struct fuel} : result :=
  match hi with
  | Some O => k i c
  | _ =>
    match fuel with
    | O => None
    | S fuel' =>
      let d : cont := fun j c' =>
        if Nat.eqb lo 0 && Nat.eqb j i then None
        else repeat_matcher body grp greedy fuel' (Nat.pred lo) (option_map Nat.pred hi) j c' k in
      let c0 := clear_caps grp c in
      if Nat.eqb lo 0 then
        if greedy then orelse (body i c0 d) (fun _ => k i c)
        else orelse (k i c) (fun _ => body i c0 d)
      else body i c0 d
    end
  end.

Section Matcher.
Variable fl : flags.
Variable s : jsstring.

Definition at_word (i : nat) : bool :=
  match nth_error s i with
  | Some c => is_word c
  | None => false
  end.

Definition at_lt (i : nat) : bool :=
  match nth_error s i with
  | Some c => is_line_terminator c
  | None => false
  end.

Fixpoint ref_match (sub : jsstring) (i : nat) : bool :=
  match sub with
  | [] => true
  | a :: sub' =>
    match nth_error s i with
    | Some c => lit_match fl a c && ref_match sub' (S i)
    | None => false
    end
  end.

Definition step (p : N -> bool) (i : nat) (c : caps) (k : cont) : result :=
  match nth_error s i with
  | Some x => if p x then k (S i) c else None
  | None => None
  end.

Fixpoint m (r : regex) (i : nat) (c : caps) (k : cont) {struct r} : result :=
  match r with
  | Eps => k i c
  | Lit a => step (lit_match fl a) i c k
  | Cls neg items => step (fun x => xorb neg (class_match fl items x)) i c k
  | Dot => step (fun x => negb (is_line_terminator x)) i c k
  | Cat r1 r2 => m r1 i c (fun j c' => m r2 j c' k)
  | Alt r1 r2 => orelse (m r1 i c k) (fun _ => m r2 i c k)
  | Cap n r1 => m r1 i c (fun j c' => k j ((n, (i, j)) :: c'))
  | Rep lo hi greedy r1 =>
    repeat_matcher (m r1) (groups r1) greedy (lo + S (List.length s)) lo hi i c k
  | Ref n =>
    match get_cap n c with
    | None => k i c
    | Some (a, b) =>
      if ref_match (slice s a b) i then k (i + (b - a)) c else None
    end
  | WordB =>
    if xorb (match i with O => false | S j => at_word j end) (at_word i)
    then k i c else None
  | Bol =>
    if match i with O => true | S j => multiline fl && at_lt j end
    then k i c else None
  | Eol =>
    if Nat.eqb i (List.length s) || (multiline fl && at_lt i)
    then k i c else None
  | Look neg r1 =>
    match m r1 i c (fun j c' => Some (j, c')) with
    | Some (_, c') => if neg then None else k i c'
    | None => if neg then k i c else None
    end
  end.

(** A match anchored at [i]: its end and its captures. *)
Definition match_at (r : regex) (i : nat) : result :=
  m r i [] (fun j c => Some (j, c)).

Record found := { m_start : nat; m_end : nat; m_caps : caps }.

(** [RegExpBuiltinExec]: the first position at or after [i] where the
    pattern matches; [n] counts the positions still to try. *)
Fixpoint exec_from (r : regex) (n i : nat) : option found :=
  match match_at r i with
  | Some (e, c) => Some {| m_start := i; m_end := e; m_caps := c |}
  | None =>
    match n with
    | O => None
    | S n' => exec_from r n' (S i)
    end
  end.

Definition exec (r : regex) (i : nat) : option found :=
  if Nat.leb i (List.length s) then exec_from r (List.length s - i) i else None.

(** The successive matches of a [g] pattern: after an empty match the
    index advances by one. *)
Fixpoint exec_all (r : regex) (fuel i : nat) : list found :=
  match fuel with
  | O => []
  | S fuel' =>
    match exec r i with
    | None => []
    | Some f =>
      f :: exec_all r fuel' (if Nat.eqb (m_end f) (m_start f) then S (m_end f) else m_end f)
    end
  end.

Definition matches (r : regex) : list found := exec_all r (S (List.length s)) 0.

Definition first_match (r : regex) : list found :=
  match exec r 0 with
  | None => []
  | Some f => [f]
  end.
End Matcher.

(** *** [String.prototype.replace] and [split] *)

Section Replace.
Variable A : Type.
Variable code : A -> N.
Variable lit : N -> A.

Definition lift (s : jsstring) : list A := map lit s.

Definition group (s : list A) (f : found) (n : nat) : list A :=
  match get_cap n (m_caps f) with
  | Some (a, b) => slice s a b
  | None => []
  end.

(** Pieces of a replacement pattern: literal text and [$n]. *)
Inductive piece : Type :=
| TLit (t : string)
| TGrp (n : nat).

Definition expand (tmpl : list piece) (s : list A) (f : found) : list A :=
  flat_map (fun p => match p with
                     | TLit t => lift (str t)
                     | TGrp n => group s f n
                     end) tmpl.

(** The result string: the text between matches is copied, every match
    is replaced by what [rep] returns for it. *)
Fixpoint assemble (s : list A) (pos : nat) (ms : list found)
         (rep : found -> list A) : list A :=
  match ms with
  | [] => skipn pos s
  | f :: ms' =>
    if Nat.leb pos (m_start f)
    then slice s pos (m_start f) ++ rep f ++ assemble s (m_end f) ms' rep
    else assemble s pos ms' rep
  end.

(** [s.replace(/r/g, rep)] with a replacer function. *)
Definition replace_fn (fl : flags) (r : regex) (rep : list A -> found -> list A)
           (s : list A) : list A :=
  assemble s 0 (matches fl (map code s) r) (rep s).

(** [s.replace(/r/g, "tmpl")]. *)
Definition replace_all (fl : flags) (r : regex) (tmpl : list piece) (s : list A) : list A :=
  replace_fn fl r (expand tmpl) s.

(** [s.replace(/r/, "tmpl")], without the [g] flag. *)
Definition replace_first (fl : flags) (r : regex) (tmpl : list piece) (s : list A) : list A :=
  assemble s 0 (first_match fl (map code s) r) (expand tmpl s).

(** [s.split(/r/)] for a pattern without capture groups: the splitter
    is tried at every position [q] after the last cut [p]; a match that
    ends at [p] is skipped.  A position is visited at most twice, which
    bounds the loop. *)
Fixpoint split_from (fl : flags) (r : regex) (s : list A) (fuel p q : nat) : list (list A) :=
  match fuel with
  | O => [skipn p s]
  | S fuel' =>
    if Nat.ltb q (List.length s) then
      match match_at fl (map code s) r q with
      | Some (e0, _) =>
        let e := Nat.min e0 (List.length s) in
        if Nat.eqb e p then split_from fl r s fuel' p (S q)
        else slice s p q :: split_from fl r s fuel' e e
      | None => split_from fl r s fuel' p (S q)
      end
    else [skipn p s]
  end.

Definition split (fl : flags) (r : regex) (s : list A) : list (list A) :=
  match s with
  | [] =>
    match match_at fl [] r 0 with
    | Some _ => []
    | None => [[]]
    end
  | _ => split_from fl r s (2 * List.length s) 0 0
  end.
End Replace.

End Regex.
Import Regex.

(* ===================================================================== *)
(** ** chatbot.util.js: the text formatter                               *)
(* ===================================================================== *)

Module Util.

(** The functions are written once over any carrier [A] of characters
    with a code unit ([code]) and a way to produce the characters of the
    literals of the program ([lit]).  The program itself is the instance at
    [A := N]; a second instance, further down, remembers for each character
    whether it was copied from the argument or written by the formatter. *)
Module Gen.

Section Formatter.
Variable A : Type.
Variable code : A -> N.
Variable lit : N -> A.

Definition text := list A.

(** The double quote, for patterns and replacement text. *)
Definition dq : string := String (ascii_of_nat 34) EmptyString.

Definition sub (fl : flags) (r : regex) (tmpl : list piece) : text -> text :=
  replace_all code lit fl r tmpl.

Definition escapeHTML (t : text) : text :=
  let t := sub no_flags (Lit (chr "&")) [TLit "&amp;"] t in
  let t := sub no_flags (Lit (chr "<")) [TLit "&lt;"] t in
  let t := sub no_flags (Lit (chr ">")) [TLit "&gt;"] t in
  let t := sub no_flags (Lit 34) [TLit "&quot;"] t in
  sub no_flags (Lit (chr "'")) [TLit "&#39;"] t.

(** [/(?:\/\.\.?)+$/u] *)
Definition re_dot_segments : regex :=
  Cat (plus (cats [Lit (chr "/"); Lit (chr "."); opt (Lit (chr "."))])) Eol.

(** The pattern of step 3: one or more runs, up to the end of the
    string, of closing brackets and quotes (the class holds the closing
    parenthesis, both ASCII quotes, the closing square and curly
    brackets, the greater-than sign and the two closing guillemets), of
    sentence punctuation (full stop, comma, semicolon, colon, exclamation
    and question mark, ellipsis) or of dashes (em dash, en dash,
    hyphen). *)
Definition re_trailing_junk : regex :=
  Cat (plus (Alt (plus (Cls false [CChar (chr ")"); CChar 34; CChar (chr "'"); CChar (chr "]");
                                   CChar (chr "}"); CChar (chr ">"); CChar 8250; CChar 187]))
            (Alt (plus (Cls false [CChar (chr "."); CChar (chr ","); CChar (chr ";"); CChar (chr ":");
                                   CChar (chr "!"); CChar (chr "?"); CChar 8230]))
                 (plus (Cls false [CChar 8212; CChar 8211; CChar (chr "-")])))))
      Eol.

(** [/[\s\u00A0]+$/u] *)
Definition re_trailing_space : regex :=
  Cat (plus (Cls false [CSpace; CChar 160])) Eol.

(** [cleanLink] is only ever handed a captured string, so the exit for
    a non-string argument is not taken. *)
Definition cleanLink (url : text) : text :=
  let s := trim code url in
  let s := replace_first code lit no_flags re_dot_segments [TLit "/"] s in
  let s := replace_first code lit no_flags re_trailing_junk [] s in
  replace_first code lit no_flags re_trailing_space [] s.

Definition not_char (cs : list N) : regex := Cls true (map CChar cs).

(** [[A-Za-z0-9._%+-]+@[A-Za-z0-9.-]+\.[A-Za-z]{2,}] between two [\b] *)
Definition re_email_body : regex :=
  cats [WordB;
        plus (Cls false [CRange 65 90; CRange 97 122; CRange 48 57; CChar (chr ".");
                         CChar (chr "_"); CChar (chr "%"); CChar (chr "+"); CChar (chr "-")]);
        Lit (chr "@");
        plus (Cls false [CRange 65 90; CRange 97 122; CRange 48 57; CChar (chr "."); CChar (chr "-")]);
        Lit (chr ".");
        Rep 2 None true (Cls false [CRange 65 90; CRange 97 122]);
        WordB].

(** [/\[([^\]]+)\]\(mailto:([^)]+)\)/gi] *)
Definition re_mailto_link : regex :=
  cats [Lit (chr "["); Cap 1 (plus (not_char [chr "]"])); Lit (chr "]"); Lit (chr "(");
        word "mailto:"; Cap 2 (plus (not_char [chr ")"])); Lit (chr ")")].

(** [/(\b...\b)(.{0,4})\1/g] *)
Definition re_email_twice : regex :=
  cats [Cap 1 re_email_body; Cap 2 (Rep 0 (Some 4) true Dot); Ref 1].

(** [/\[([^\]]+)\]\((https?:\/\/[^\s)]+)\)/] *)
Definition re_md_link : regex :=
  cats [Lit (chr "["); Cap 1 (plus (not_char [chr "]"])); Lit (chr "]"); Lit (chr "(");
        Cap 2 (cats [word "http"; opt (Lit (chr "s")); word "://";
                     plus (Cls true [CSpace; CChar (chr ")")])]);
        Lit (chr ")")].

(** [/(\b...\b)/g] *)
Definition re_email : regex := Cap 1 re_email_body.

(** The two bold patterns, written here with spaces between the tokens:
    [/ \* \* ( .*? ) \* \* /g] and [/ _ _ ( .*? ) _ _ /g] *)
Definition re_bold (c : N) : regex :=
  cats [Lit c; Lit c; Cap 1 (star_lazy Dot); Lit c; Lit c].

(** The two italic patterns, written here with spaces between the
    tokens: [/ ( \s | \A ) \* (?! \* ) ( [^\*]+ ) \* /g] and
    [/ ( \s | \A ) _ (?! _ ) ( [^_]+ ) _ /g].  The patterns have no [u]
    flag, so [\A] is an identity escape: it matches the letter [A]. *)
Definition re_italic (c : N) : regex :=
  cats [Cap 1 (Alt (Cls false [CSpace]) (Lit (chr "A")));
        Lit c; Look true (Lit c); Cap 2 (plus (not_char [c])); Lit c].

(** The bullet pattern: [^], a star, a space, the group [( .* )], [$];
    flags [gm]. *)
Definition re_bullet : regex :=
  cats [Bol; Lit (chr "*"); Lit (chr " "); Cap 1 (star Dot); Eol].

(** [/(^|\s)(www\.[^\s<]+)/g] *)
Definition re_www : regex :=
  cats [Cap 1 (Alt Bol (Cls false [CSpace]));
        Cap 2 (cats [word "www."; plus (Cls true [CSpace; CChar (chr "<")])])].

(** [/(^|\s)((https?:\/\/)[^\s<]+)/g] *)
Definition re_http : regex :=
  cats [Cap 1 (Alt Bol (Cls false [CSpace]));
        Cap 2 (cats [Cap 3 (cats [word "http"; opt (Lit (chr "s")); word "://"]);
                     plus (Cls true [CSpace; CChar (chr "<")])])].

(** The anchor of a markdown link: the replacement text
    [<a href=Q$2Q target=Q_blankQ>$1</a>], where Q is the double quote. *)
Definition anchor_tmpl : list piece :=
  [TLit "<a href="; TLit dq; TGrp 2; TLit dq; TLit " target="; TLit dq;
   TLit "_blank"; TLit dq; TLit ">"; TGrp 1; TLit "</a>"].

Definition link_fn (prefix : string) (s : text) (f : found) : text :=
  let space := group s f 1 in
  let url := cleanLink (group s f 2) in
  space ++ lift lit (str "<a href=") ++ lift lit (str dq) ++ lift lit (str prefix) ++ url
        ++ lift lit (str dq) ++ lift lit (str " target=") ++ lift lit (str dq)
        ++ lift lit (str "_blank") ++ lift lit (str dq) ++ lift lit (str " rel=")
        ++ lift lit (str dq) ++ lift lit (str "noopener noreferrer") ++ lift lit (str dq)
        ++ lift lit (str ">") ++ url ++ lift lit (str "  </a>").

Definition renderMarkdown (t : text) : text :=
  let t := sub flag_i re_mailto_link [TGrp 2] t in
  let t := sub no_flags re_email_twice [TGrp 1] t in
  let html := escapeHTML t in
  let html := sub flag_i re_md_link anchor_tmpl html in
  let html := sub no_flags re_email
                  [TLit "<a href="; TLit dq; TLit "mailto:"; TGrp 1; TLit dq; TLit ">";
                   TGrp 1; TLit "</a>"] html in
  let html := sub no_flags (re_bold (chr "*")) [TLit "<b>"; TGrp 1; TLit "</b>"] html in
  let html := sub no_flags (re_bold (chr "_")) [TLit "<b>"; TGrp 1; TLit "</b>"] html in
  let html := sub no_flags (re_italic (chr "*")) [TGrp 1; TLit "<i>"; TGrp 2; TLit "</i>"] html in
  let html := sub no_flags (re_italic (chr "_")) [TGrp 1; TLit "<i>"; TGrp 2; TLit "</i>"] html in
  let html := sub no_flags re_md_link anchor_tmpl html in
  let html := sub flag_m re_bullet [TLit "&bull; "; TGrp 1] html in
  let html := replace_fn code no_flags re_www (link_fn "http://") html in
  let html := replace_fn code no_flags re_http (link_fn EmptyString) html in
  sub no_flags (Lit 10) [TLit "<br>"] html.
End Formatter.

End Gen.

(** The program: characters are plain code units. *)
Definition plain (c : N) : N := c.

Definition escapeHTML : jsstring -> jsstring := Gen.escapeHTML plain plain.
Definition cleanLink : jsstring -> jsstring := Gen.cleanLink plain plain.
Definition renderMarkdown : jsstring -> jsstring := Gen.renderMarkdown plain plain.

(** *** The block splitter *)

Definition len (s : jsstring) : Z := Z.of_nat (List.length s).

(** [s.slice(a, b)] with the clamping of [String.prototype.slice]: a
    negative index counts from the end. *)
Definition clamp (n i : Z) : Z :=
  if (i <? 0)%Z then Z.max (n + i) 0 else Z.min i n.

Definition js_slice (s : jsstring) (a b : Z) : jsstring :=
  let from := clamp (len s) a in
  let to := clamp (len s) b in
  firstn (Z.to_nat (Z.max (to - from) 0)) (skipn (Z.to_nat from) s).

Fixpoint starts_with (pat s : jsstring) : bool :=
  match pat, s with
  | [], _ => true
  | a :: pat', c :: s' => (a =? c)%N && starts_with pat' s'
  | _ :: _, [] => false
  end.

(** [s.lastIndexOf(pat)]; [i] is the index of the head of [s]. *)
Fixpoint lastIndexOf_from (pat s : jsstring) (i : Z) : Z :=
  match s with
  | [] => match pat with [] => i | _ => (-1)%Z end
  | _ :: r =>
    let later := lastIndexOf_from pat r (i + 1) in
    if (0 <=? later)%Z then later
    else if starts_with pat s then i else (-1)%Z
  end.

Definition lastIndexOf (pat s : jsstring) : Z := lastIndexOf_from pat s 0.

(** The paragraph pattern: two newlines, then the lookahead [(?=[A-Z])]. *)
Definition re_paragraph : regex :=
  Cat (Rep 2 (Some 2) true (Lit 10)) (Look false (Cls false [CRange 65 90])).

Definition newline : jsstring := [10%N].
Definition period_space : jsstring := [chr "."; chr " "].

(** The [while (cursor < text.length)] loop; [fuel] bounds the number of
    iterations, [None] is a loop that has not ended within it. *)
Fixpoint chunk (fuel : nat) (text : jsstring) (maxLen cursor : Z) (parts : list jsstring)
  : option (list jsstring) :=
  if (cursor <? len text)%Z then
    match fuel with
    | O => None
    | S fuel' =>
      let next := Z.min (len text) (cursor + maxLen) in
      let snippet := js_slice text cursor next in
      let sep := Z.max (lastIndexOf newline snippet) (lastIndexOf period_space snippet) in
      if (-1 <? sep)%Z then
        chunk fuel' text maxLen (cursor + sep + 1) (parts ++ [js_slice text cursor (cursor + sep)])
      else
        chunk fuel' text maxLen next (parts ++ [snippet])
    end
  else Some parts.

Definition paragraphs (text : jsstring) : list jsstring :=
  split plain no_flags re_paragraph text.

(** [parts] before the final filter. *)
Definition split_parts (fuel : nat) (text : jsstring) (maxLen : Z) : option (list jsstring) :=
  let parts := paragraphs text in
  if Nat.eqb (List.length parts) 1 && (maxLen <? len text)%Z
  then chunk fuel text maxLen 0 []
  else Some parts.

Definition blank (p : jsstring) : bool := Nat.eqb (List.length (trim plain p)) 0.

(** [maxLen] defaults to 1000 in the source; the renderer passes 500. *)
Definition splitIntoSubblocks (fuel : nat) (text : jsstring) (maxLen : Z)
  : option (list jsstring) :=
  option_map (filter (fun p => negb (blank p))) (split_parts fuel text maxLen).

End Util.

(* ===================================================================== *)
(** ** chatbot.state.js: the session store                                *)
(* ===================================================================== *)

Module Session.

(** A number as [JSON.parse] reads it.  The program never computes with
    a number of a response or of the stored session: it tests it for truth
    and hands it to [JSON.stringify].  Finite numbers are kept as integers;
    negative zero and the two infinities ([JSON.parse] reads [1e999] as
    [Infinity]) are kept apart from them, because [JSON.stringify] does not
    write them as they are.  [JSON.parse] yields no [NaN]. *)
Inductive number : Type :=
| Fin (n : Z)
| NegZero
| Inf (negative : bool).

(** Values that come out of [JSON.parse].  Object keys are unique in a
    parsed object; [lookup] reads the first binding. *)
Inductive json : Type :=
| JNull
| JBool (b : bool)
| JNum (n : number)
| JStr (s : jsstring)
| JArr (l : list json)
| JObj (fields : list (jsstring * json)).

(** A JavaScript value held by the session: [None] is [undefined]. *)
Definition jsval := option json.

Definition undefined : jsval := None.
Definition null : jsval := Some JNull.

Definition truthy (v : jsval) : bool :=
  match v with
  | None => false
  | Some JNull => false
  | Some (JBool b) => b
  | Some (JNum (Fin n)) => negb (n =? 0)%Z
  | Some (JNum NegZero) => false
  | Some (JNum (Inf _)) => true
  | Some (JStr s) => negb (Nat.eqb (List.length s) 0)
  | Some (JArr _) => true
  | Some (JObj _) => true
  end.

Fixpoint lookup (k : jsstring) (fields : list (jsstring * json)) : jsval :=
  match fields with
  | [] => None
  | (k', v) :: r => if eqs k' k then Some v else lookup k r
  end.

Inductive sender : Type := User | Bot.

Record message := { msg_sender : sender; msg_text : jsval }.

Definition user_msg (t : jsstring) : message := {| msg_sender := User; msg_text := Some (JStr t) |}.
Definition bot_msg (t : jsval) : message := {| msg_sender := Bot; msg_text := t |}.
Definition bot_says (t : string) : message := bot_msg (Some (JStr (str t))).

Record state := {
  chat_id : jsval;
  asked_info : jsval;
  data_var : jsval;
  chatStarted : bool;
  privacyAccepted : bool;
  final_message : jsval;
  chatMessages : list message;
  botIsTyping : bool;
  waitStart : option Z;
  fallbackTimer : option Z
}.

(** [export let state = { ... }] *)
Definition initial : state := {|
  chat_id := null;
  asked_info := null;
  data_var := null;
  chatStarted := false;
  privacyAccepted := false;
  final_message := null;
  chatMessages := [];
  botIsTyping := true;
  waitStart := None;
  fallbackTimer := None
|}.

Definition set_chat_id (v : jsval) (s : state) : state :=
  {| chat_id := v; asked_info := asked_info s; data_var := data_var s;
     chatStarted := chatStarted s; privacyAccepted := privacyAccepted s;
     final_message := final_message s; chatMessages := chatMessages s;
     botIsTyping := botIsTyping s; waitStart := waitStart s;
     fallbackTimer := fallbackTimer s |}.

Definition set_asked_info (v : jsval) (s : state) : state :=
  {| chat_id := chat_id s; asked_info := v; data_var := data_var s;
     chatStarted := chatStarted s; privacyAccepted := privacyAccepted s;
     final_message := final_message s; chatMessages := chatMessages s;
     botIsTyping := botIsTyping s; waitStart := waitStart s;
     fallbackTimer := fallbackTimer s |}.

Definition set_data_var (v : jsval) (s : state) : state :=
  {| chat_id := chat_id s; asked_info := asked_info s; data_var := v;
     chatStarted := chatStarted s; privacyAccepted := privacyAccepted s;
     final_message := final_message s; chatMessages := chatMessages s;
     botIsTyping := botIsTyping s; waitStart := waitStart s;
     fallbackTimer := fallbackTimer s |}.

Definition set_chatStarted (v : bool) (s : state) : state :=
  {| chat_id := chat_id s; asked_info := asked_info s; data_var := data_var s;
     chatStarted := v; privacyAccepted := privacyAccepted s;
     final_message := final_message s; chatMessages := chatMessages s;
     botIsTyping := botIsTyping s; waitStart := waitStart s;
     fallbackTimer := fallbackTimer s |}.

Definition set_privacyAccepted (v : bool) (s : state) : state :=
  {| chat_id := chat_id s; asked_info := asked_info s; data_var := data_var s;
     chatStarted := chatStarted s; privacyAccepted := v;
     final_message := final_message s; chatMessages := chatMessages s;
     botIsTyping := botIsTyping s; waitStart := waitStart s;
     fallbackTimer := fallbackTimer s |}.

Definition set_final_message (v : jsval) (s : state) : state :=
  {| chat_id := chat_id s; asked_info := asked_info s; data_var := data_var s;
     chatStarted := chatStarted s; privacyAccepted := privacyAccepted s;
     final_message := v; chatMessages := chatMessages s;
     botIsTyping := botIsTyping s; waitStart := waitStart s;
     fallbackTimer := fallbackTimer s |}.

Definition set_chatMessages (v : list message) (s : state) : state :=
  {| chat_id := chat_id s; asked_info := asked_info s; data_var := data_var s;
     chatStarted := chatStarted s; privacyAccepted := privacyAccepted s;
     final_message := final_message s; chatMessages := v;
     botIsTyping := botIsTyping s; waitStart := waitStart s;
     fallbackTimer := fallbackTimer s |}.

Definition set_botIsTyping (v : bool) (s : state) : state :=
  {| chat_id := chat_id s; asked_info := asked_info s; data_var := data_var s;
     chatStarted := chatStarted s; privacyAccepted := privacyAccepted s;
     final_message := final_message s; chatMessages := chatMessages s;
     botIsTyping := v; waitStart := waitStart s;
     fallbackTimer := fallbackTimer s |}.

Definition set_waitStart (v : option Z) (s : state) : state :=
  {| chat_id := chat_id s; asked_info := asked_info s; data_var := data_var s;
     chatStarted := chatStarted s; privacyAccepted := privacyAccepted s;
     final_message := final_message s; chatMessages := chatMessages s;
     botIsTyping := botIsTyping s; waitStart := v;
     fallbackTimer := fallbackTimer s |}.

Definition set_fallbackTimer (v : option Z) (s : state) : state :=
  {| chat_id := chat_id s; asked_info := asked_info s; data_var := data_var s;
     chatStarted := chatStarted s; privacyAccepted := privacyAccepted s;
     final_message := final_message s; chatMessages := chatMessages s;
     botIsTyping := botIsTyping s; waitStart := waitStart s;
     fallbackTimer := v |}.

(** [state.chatMessages.push(m)] *)
Definition push (m : message) (s : state) : state :=
  set_chatMessages (chatMessages s ++ [m]) s.

(** [JSON.parse(JSON.stringify(j))]: what is read back from the text
    that [JSON.stringify] writes for [j].  A finite number, a string, a
    boolean and [null] come back as they are; negative zero is written as
    [0] and an infinity as [null]; arrays and objects are written member
    by member. *)
Definition written_number (n : number) : json :=
  match n with
  | Fin z => JNum (Fin z)
  | NegZero => JNum (Fin 0)
  | Inf _ => JNull
  end.

Fixpoint written (j : json) : json :=
  match j with
  | JNum n => written_number n
  | JArr l => JArr (map written l)
  | JObj fields =>
    JObj (map (fun kv => match kv with (k, v) => (k, written v) end) fields)
  | _ => j
  end.

(** A message object: [sender] is a string, a [text] that is
    [undefined] is left out of the text and is [undefined] again when the
    message is read. *)
Definition written_msg (m : message) : message :=
  {| msg_sender := msg_sender m; msg_text := option_map written (msg_text m) |}.

(** A value that [JSON.stringify] writes as it is. *)
Fixpoint exact (j : json) : bool :=
  match j with
  | JNum (Fin _) => true
  | JNum _ => false
  | JArr l => forallb exact l
  | JObj fields => forallb (fun kv => match kv with (_, v) => exact v end) fields
  | _ => true
  end.

Definition exact_val (v : jsval) : bool :=
  match v with
  | Some j => exact j
  | None => true
  end.

(** A session whose values [JSON.stringify] writes as they are. *)
Definition exact_state (s : state) : bool :=
  exact_val (chat_id s) && exact_val (asked_info s) && exact_val (data_var s)
  && exact_val (final_message s)
  && forallb (fun m => exact_val (msg_text m)) (chatMessages s).

(** The item kept under the key [chatbotState].  The only writer of the
    key is [saveChatbotSession], so the text there is always a text that
    [JSON.stringify] wrote for some object: [stored] is that object, with
    every key of the session present or absent ([JSON.stringify] leaves
    out a key whose value is [undefined]), and [parsed] below is what
    [JSON.parse] reads back from its text. *)
Record stored := {
  s_chat_id : option json;
  s_asked_info : option json;
  s_data_var : option json;
  s_chatStarted : option bool;
  s_privacyAccepted : option bool;
  s_final_message : option json;
  s_chatMessages : option (list message);
  s_botIsTyping : option bool;
  s_waitStart : option (option Z);
  s_fallbackTimer : option (option Z)
}.

(** The object read from the text ['{}']. *)
Definition empty_object : stored := {|
  s_chat_id := None; s_asked_info := None; s_data_var := None;
  s_chatStarted := None; s_privacyAccepted := None; s_final_message := None;
  s_chatMessages := None; s_botIsTyping := None; s_waitStart := None;
  s_fallbackTimer := None
|}.

(** The object whose text [JSON.stringify(state)] writes. *)
Definition stringify (s : state) : stored := {|
  s_chat_id := chat_id s;
  s_asked_info := asked_info s;
  s_data_var := data_var s;
  s_chatStarted := Some (chatStarted s);
  s_privacyAccepted := Some (privacyAccepted s);
  s_final_message := final_message s;
  s_chatMessages := Some (chatMessages s);
  s_botIsTyping := Some (botIsTyping s);
  s_waitStart := Some (waitStart s);
  s_fallbackTimer := Some (fallbackTimer s)
|}.

Definition keep {T} (saved : option T) (current : T) : T :=
  match saved with
  | Some v => v
  | None => current
  end.

Definition keep_val (saved : option json) (current : jsval) : jsval :=
  match saved with
  | Some v => Some v
  | None => current
  end.

(** [Object.assign(state, saved)] *)
Definition assign (s : state) (saved : stored) : state := {|
  chat_id := keep_val (s_chat_id saved) (chat_id s);
  asked_info := keep_val (s_asked_info saved) (asked_info s);
  data_var := keep_val (s_data_var saved) (data_var s);
  chatStarted := keep (s_chatStarted saved) (chatStarted s);
  privacyAccepted := keep (s_privacyAccepted saved) (privacyAccepted s);
  final_message := keep_val (s_final_message saved) (final_message s);
  chatMessages := keep (s_chatMessages saved) (chatMessages s);
  botIsTyping := keep (s_botIsTyping saved) (botIsTyping s);
  waitStart := keep (s_waitStart saved) (waitStart s);
  fallbackTimer := keep (s_fallbackTimer saved) (fallbackTimer s)
|}.

(** [sessionStorage]: the item [chatbotState], when it is set. *)
Definition storage_t := option stored.

Definition saveChatbotSession (s : state) : storage_t := Some (stringify s).

(** [JSON.parse] of the text of [o]: the flags and the two numbers the
    program sets itself ([Date.now()], a timer handle, or [null]) are read
    as they were written, every other value as [written] gives it. *)
Definition parsed (o : stored) : stored := {|
  s_chat_id := option_map written (s_chat_id o);
  s_asked_info := option_map written (s_asked_info o);
  s_data_var := option_map written (s_data_var o);
  s_chatStarted := s_chatStarted o;
  s_privacyAccepted := s_privacyAccepted o;
  s_final_message := option_map written (s_final_message o);
  s_chatMessages := option_map (map written_msg) (s_chatMessages o);
  s_botIsTyping := s_botIsTyping o;
  s_waitStart := s_waitStart o;
  s_fallbackTimer := s_fallbackTimer o
|}.

Definition loadChatbotSession (item : storage_t) (s : state) : state :=
  let saved := match item with
               | Some o => parsed o
               | None => empty_object
               end in
  let s1 := assign s saved in
  match s_botIsTyping saved with
  | Some _ => s1
  | None => set_botIsTyping (Nat.eqb (List.length (chatMessages s1)) 0) s1
  end.

End Session.
Import Session.

(* ===================================================================== *)
(** ** The environment of the widget                                      *)
(* ===================================================================== *)

Module Env.

(** What the page shows in the message list.  [Waiting false] is the
    typing indicator alone (the three dots); [Waiting true] is the
    indicator with a fallback phrase before it.  Which of the phrases is
    shown is not kept: [randomFallback()] draws it with [Math.random()] at
    every render, so two pages that both hold [Waiting true] need not show
    the same phrase, and nothing below is said about the equality of pages
    that hold one. *)
Inductive node : Type :=
| UserMsg (text : jsval)
| BotMsg (html : jsstring)
| Waiting (fallback : bool).

Record dom := {
  widget_shown : bool;
  nodes : list node;
  input_value : jsstring;
  input_disabled : bool;
  final_placeholder : bool;
  chat_hidden : bool
}.

Inductive url : Type :=
| ChatNew (base : option jsstring)
| ChatAt (base : option jsstring) (id : jsval).

Record request := { req_url : url; req_body : option json }.

(** What a request comes back with: a rejected [fetch], or a response with
    its status and its body as [resp.json()] reads it ([None]: the body is
    not JSON). *)
Inductive fetch_result : Type :=
| NetworkError
| Response (status : Z) (body : option json).

Record world := {
  st : state;
  storage : storage_t;
  page : dom;
  clock : Z;
  net : list (Z * fetch_result);
  requests : list request;
  timers : list Z;
  next_timer : Z;
  FRONTEND_URL : option jsstring;
  BACKEND_URL : option jsstring
}.

Definition with_st (f : state -> state) (w : world) : world :=
  {| st := f (st w); storage := storage w; page := page w; clock := clock w;
     net := net w; requests := requests w; timers := timers w;
     next_timer := next_timer w; FRONTEND_URL := FRONTEND_URL w;
     BACKEND_URL := BACKEND_URL w |}.

Definition with_storage (v : storage_t) (w : world) : world :=
  {| st := st w; storage := v; page := page w; clock := clock w;
     net := net w; requests := requests w; timers := timers w;
     next_timer := next_timer w; FRONTEND_URL := FRONTEND_URL w;
     BACKEND_URL := BACKEND_URL w |}.

Definition with_page (f : dom -> dom) (w : world) : world :=
  {| st := st w; storage := storage w; page := f (page w); clock := clock w;
     net := net w; requests := requests w; timers := timers w;
     next_timer := next_timer w; FRONTEND_URL := FRONTEND_URL w;
     BACKEND_URL := BACKEND_URL w |}.

Definition with_net (t : Z) (rest : list (Z * fetch_result)) (w : world) : world :=
  {| st := st w; storage := storage w; page := page w; clock := t;
     net := rest; requests := requests w; timers := timers w;
     next_timer := next_timer w; FRONTEND_URL := FRONTEND_URL w;
     BACKEND_URL := BACKEND_URL w |}.

Definition with_request (r : request) (w : world) : world :=
  {| st := st w; storage := storage w; page := page w; clock := clock w;
     net := net w; requests := requests w ++ [r]; timers := timers w;
     next_timer := next_timer w; FRONTEND_URL := FRONTEND_URL w;
     BACKEND_URL := BACKEND_URL w |}.

Definition with_timers (ts : list Z) (next : Z) (w : world) : world :=
  {| st := st w; storage := storage w; page := page w; clock := clock w;
     net := net w; requests := requests w; timers := ts;
     next_timer := next; FRONTEND_URL := FRONTEND_URL w;
     BACKEND_URL := BACKEND_URL w |}.

Definition with_urls (f b : option jsstring) (w : world) : world :=
  {| st := st w; storage := storage w; page := page w; clock := clock w;
     net := net w; requests := requests w; timers := timers w;
     next_timer := next_timer w; FRONTEND_URL := f; BACKEND_URL := b |}.

Definition set_nodes (ns : list node) (d : dom) : dom :=
  {| widget_shown := widget_shown d; nodes := ns; input_value := input_value d;
     input_disabled := input_disabled d; final_placeholder := final_placeholder d;
     chat_hidden := chat_hidden d |}.

Definition set_widget_shown (b : bool) (d : dom) : dom :=
  {| widget_shown := b; nodes := nodes d; input_value := input_value d;
     input_disabled := input_disabled d; final_placeholder := final_placeholder d;
     chat_hidden := chat_hidden d |}.

Definition set_input_value (v : jsstring) (d : dom) : dom :=
  {| widget_shown := widget_shown d; nodes := nodes d; input_value := v;
     input_disabled := input_disabled d; final_placeholder := final_placeholder d;
     chat_hidden := chat_hidden d |}.

Definition set_input_disabled (b : bool) (d : dom) : dom :=
  {| widget_shown := widget_shown d; nodes := nodes d; input_value := input_value d;
     input_disabled := b; final_placeholder := final_placeholder d;
     chat_hidden := chat_hidden d |}.

Definition set_final_placeholder (b : bool) (d : dom) : dom :=
  {| widget_shown := widget_shown d; nodes := nodes d; input_value := input_value d;
     input_disabled := input_disabled d; final_placeholder := b;
     chat_hidden := chat_hidden d |}.

Definition set_chat_hidden (b : bool) (d : dom) : dom :=
  {| widget_shown := widget_shown d; nodes := nodes d; input_value := input_value d;
     input_disabled := input_disabled d; final_placeholder := final_placeholder d;
     chat_hidden := b |}.

(** *** Computations

    A function of the program runs on the world and ends with a value,
    with an exception ([Throw]), or never ([Pending]: an [await] that is
    not answered, a loop that does not end).  An [async] function runs here
    from its call to its end: the answers of the backend are taken from
    [net], and no other handler runs at an [await]. *)
Inductive outcome (T : Type) : Type :=
| Val (v : T)
| Throw
| Pending.
Arguments Throw {T}.
Arguments Pending {T}.

Definition M (T : Type) : Type := world -> outcome T * world.

Definition ret {T} (v : T) : M T := fun w => (Val v, w).
Definition throw {T} : M T := fun w => (Throw, w).

Definition bind {T U} (c : M T) (k : T -> M U) : M U :=
  fun w =>
    match c w with
    | (Val v, w') => k v w'
    | (Throw, w') => (Throw, w')
    | (Pending, w') => (Pending, w')
    end.

(** [try { body } catch { handler }] *)
Definition try_catch {T} (body handler : M T) : M T :=
  fun w =>
    match body w with
    | (Throw, w') => handler w'
    | r => r
    end.

Definition pending {T} : M T := fun w => (Pending, w).

Definition modify (f : world -> world) : M unit := fun w => (Val tt, f w).
Definition update (f : state -> state) : M unit := modify (with_st f).
Definition change_page (f : dom -> dom) : M unit := modify (with_page f).
Definition get_state : M state := fun w => (Val (st w), w).
Definition get_world : M world := fun w => (Val w, w).

(** [saveChatbotSession()] and [loadChatbotSession()] on the session of
    the page and its [sessionStorage]. *)
Definition save_session : M unit :=
  modify (fun w => with_storage (saveChatbotSession (st w)) w).

Definition load_session : M unit :=
  modify (fun w => with_st (loadChatbotSession (storage w)) w).

(** [setTimeout] hands out a fresh handle; [clearTimeout] forgets one. *)
Definition setTimeout : M Z :=
  fun w => (Val (next_timer w), with_timers (timers w ++ [next_timer w]) (next_timer w + 1) w).

Definition clearTimeout (h : option Z) : M unit :=
  match h with
  | Some t => modify (fun w => with_timers (filter (fun x => negb (x =? t)%Z) (timers w)) (next_timer w) w)
  | None => ret tt
  end.

(** [await fetch(...)]: the request is issued, the next answer of [net] is
    taken and the clock moves to the time of the answer. *)
Definition fetch (r : request) : M (Z * option json) :=
  fun w =>
    let w1 := with_request r w in
    match net w1 with
    | [] => (Pending, w1)
    | (t, NetworkError) :: rest => (Throw, with_net t rest w1)
    | (t, Response status body) :: rest => (Val (status, body), with_net t rest w1)
    end.

(** [await resp.json()] *)
Definition resp_json (resp : Z * option json) : M json :=
  match snd resp with
  | Some j => ret j
  | None => throw
  end.

(** [j.k] for the keys the program reads ([id], [data], [message], [meta],
    [final_message]): a [TypeError] on [null], the field of an object,
    [undefined] on every other value. *)
Definition prop (j : json) (k : string) : M jsval :=
  match j with
  | JNull => throw
  | JObj fields => ret (lookup (str k) fields)
  | _ => ret undefined
  end.

Definition prop_of (v : jsval) (k : string) : M jsval :=
  match v with
  | None => throw
  | Some j => prop j k
  end.

End Env.
Import Env.

Declare Scope js_scope.
Delimit Scope js_scope with js.
Notation "x <- c ;; k" := (bind c (fun x => k))
  (at level 61, c at next level, right associativity) : js_scope.
Notation "c ;; k" := (bind c (fun _ => k))
  (at level 61, right associativity) : js_scope.

Open Scope js_scope.

(* ===================================================================== *)
(** ** chatbot.dom.js: the renderer                                       *)
(* ===================================================================== *)

Module Dom.

Definition setFrontendUrl (u : option jsstring) : M unit :=
  modify (fun w => with_urls u (BACKEND_URL w) w).

(** [splitIntoSubblocks(msg.text, 500)]: calling [split] on a text that is
    not a string throws. *)
Definition bot_blocks (t : jsval) : outcome (list jsstring) :=
  match t with
  | Some (JStr s) =>
    match Util.splitIntoSubblocks (List.length s) s 500 with
    | Some bs => Val bs
    | None => Pending
    end
  | _ => Throw
  end.

Definition message_nodes (m : message) : outcome (list node) :=
  match msg_sender m with
  | User => Val [UserMsg (msg_text m)]
  | Bot =>
    match bot_blocks (msg_text m) with
    | Val bs => Val (map (fun b => BotMsg (Util.renderMarkdown b)) bs)
    | Throw => Throw
    | Pending => Pending
    end
  end.

(** [state.chatMessages.forEach(...)]: the nodes of a message are appended
    before the next message is looked at. *)
Fixpoint append_messages (msgs : list message) : M unit :=
  match msgs with
  | [] => ret tt
  | m :: r =>
    match message_nodes m with
    | Val ns => change_page (fun d => set_nodes (nodes d ++ ns) d) ;; append_messages r
    | Throw => throw
    | Pending => pending
    end
  end.

(** [!state.waitStart] *)
Definition no_waitStart (s : state) : bool :=
  match waitStart s with
  | None => true
  | Some t => (t =? 0)%Z
  end.

Definition waitStart_number (s : state) : Z :=
  match waitStart s with
  | None => 0%Z
  | Some t => t
  end.

(** [scrollIntoView] and [showSendIcon(FRONTEND_URL)] change nothing that
    is kept of the page; the fallback phrase of [randomFallback()] is kept
    as the flag of the [Waiting] node. *)
Definition renderMessages : M unit :=
  change_page (set_widget_shown true) ;;
  change_page (set_nodes []) ;;
  s <- get_state ;;
  append_messages (chatMessages s) ;;
  (if botIsTyping s then
     w <- get_world ;;
     (if no_waitStart s then update (set_waitStart (Some (clock w))) else ret tt) ;;
     change_page (set_input_disabled true) ;;
     s' <- get_state ;;
     change_page (fun d => set_nodes (nodes d ++ [Waiting (8000 <? clock w - waitStart_number s')%Z]) d)
   else
     update (set_waitStart None) ;;
     change_page (set_input_disabled false)) ;;
  (if truthy (final_message s) then
     change_page (set_input_disabled true) ;;
     change_page (set_final_placeholder true)
   else ret tt) ;;
  save_session.

(** The action armed by [startTypingIndicator]: when the timer [h] is
    still pending it is consumed, and while the bot is typing the first
    waiting indicator of the page is replaced by a fallback phrase. *)
Fixpoint patch_indicator (ns : list node) : option (list node) :=
  match ns with
  | [] => None
  | Waiting _ :: r => Some (Waiting true :: r)
  | n :: r => option_map (cons n) (patch_indicator r)
  end.

Definition fallback_fired (h : Z) : M unit :=
  w <- get_world ;;
  if existsb (Z.eqb h) (timers w) then
    clearTimeout (Some h) ;;
    if botIsTyping (st w) then
      match patch_indicator (nodes (page w)) with
      | Some ns => change_page (set_nodes ns)
      | None => throw
      end
    else ret tt
  else ret tt.

Definition startTypingIndicator : M unit :=
  update (set_botIsTyping true) ;;
  update (set_waitStart None) ;;
  renderMessages ;;
  h <- setTimeout ;;
  update (set_fallbackTimer (Some h)).

Definition stopTypingIndicator : M unit :=
  update (set_botIsTyping false) ;;
  s <- get_state ;;
  clearTimeout (fallbackTimer s) ;;
  update (set_waitStart None) ;;
  renderMessages.

Definition setupPrivacyOverlay : M unit :=
  s <- get_state ;;
  (if negb (privacyAccepted s) then change_page (set_chat_hidden true) else ret tt) ;;
  save_session.

(** [acceptBtn.onclick] *)
Definition accept_privacy : M unit :=
  change_page (set_chat_hidden false) ;;
  update (set_privacyAccepted true) ;;
  renderMessages.

End Dom.
Import Dom.

(* ===================================================================== *)
(** ** chatbot.api.js: the transport client                               *)
(* ===================================================================== *)

Module Api.

Definition setBackendUrl (u : option jsstring) : M unit :=
  modify (fun w => with_urls (FRONTEND_URL w) u w).

Definition start_apology : message :=
  bot_says "Es scheint, dass es gerade ein kleines Problem beim Start des Chats gibt. Ich versuche gerade, die Verbindung erneut herzustellen. Einen kleinen Moment bitte – wir sind gleich für Sie da. Vielen Dank für Ihre Geduld und Ihr Verständnis.".

Definition send_apology : message :=
  bot_says "Der Chat braucht gerade noch einen kleinen Moment, um zu starten. Ich versuche die Verbindung nochmal herzustellen – danke für Ihre Geduld, wir sind gleich für Sie da!".

Definition startChat : M bool :=
  try_catch
    (w <- get_world ;;
     resp <- fetch {| req_url := ChatNew (BACKEND_URL w); req_body := None |} ;;
     backend_result <- resp_json resp ;;
     id <- prop backend_result "id" ;;
     update (set_chat_id id) ;;
     data <- prop backend_result "data" ;;
     update (set_data_var data) ;;
     update (set_chatStarted true) ;;
     update (set_waitStart None) ;;
     message <- prop backend_result "message" ;;
     (if truthy message then
        update (push (bot_msg message)) ;;
        update (set_botIsTyping false) ;;
        renderMessages
      else ret tt) ;;
     ret true)
    (update (push start_apology) ;;
     update (set_botIsTyping true) ;;
     renderMessages ;;
     ret false).

(** [JSON.stringify] leaves out a key whose value is [undefined]. *)
Definition field (k : string) (v : jsval) : list (jsstring * json) :=
  match v with
  | Some j => [(str k, j)]
  | None => []
  end.

Definition send_body (s : state) (userEntry : jsstring) : json :=
  JObj (field "asked_info" (asked_info s) ++ field "data" (data_var s)
        ++ [(str "message", JStr userEntry)]).

Definition sendChatMessage (userEntry : jsstring) : M bool :=
  try_catch
    (w <- get_world ;;
     resp <- fetch {| req_url := ChatAt (BACKEND_URL w) (chat_id (st w));
                      req_body := Some (send_body (st w) userEntry) |} ;;
     backend_result <- resp_json resp ;;
     meta <- prop backend_result "meta" ;;
     fm <- prop_of meta "final_message" ;;
     update (set_final_message (if truthy fm then fm else Some (JBool false))) ;;
     stopTypingIndicator ;;
     message <- prop backend_result "message" ;;
     update (push (bot_msg message)) ;;
     renderMessages ;;
     id <- prop backend_result "id" ;;
     update (set_chat_id id) ;;
     data <- prop backend_result "data" ;;
     update (set_data_var data) ;;
     ret true)
    (update (push send_apology) ;;
     stopTypingIndicator ;;
     renderMessages ;;
     ret false).

End Api.
Import Api.

(* ===================================================================== *)
(** ** chatbot.js: bootstrap and submit handler                           *)
(* ===================================================================== *)

Module Main.

Definition start_giveup : message :=
  bot_says "Entschuldigung, ich konnte leider keine Verbindung aufbauen. Bitte laden Sie die Seite neu und versuchen Sie es noch einmal.".

(** The text of the source, as the file has it. *)
Definition send_giveup : message :=
  bot_says "Es hat mit der Verbindung leider nicht ganz geklappt. Ein kurzes Neuladen der Seite hilft meistens â€“ bitte versuchen Sie es einmal.".

Definition not_connected : message := bot_says "Chatverbindung nicht hergestellt.".

Definition startNewChatIfNeeded (frontendUrl backendUrl : option jsstring) : M unit :=
  setFrontendUrl frontendUrl ;;
  setBackendUrl backendUrl ;;
  s <- get_state ;;
  if chatStarted s then ret tt else
    renderMessages ;;
    success <- startChat ;;
    (if negb success then
       success <- startChat ;;
       if negb success then
         success <- startChat ;;
         if negb success then
           update (push start_giveup) ;;
           renderMessages
         else ret tt
       else ret tt
     else ret tt) ;;
    save_session.

(** The handler returns nothing in the source; the value returned here
    names the branch by which it ended, after the states of the flow. *)
Inductive flow : Type := Ignored | Rejected | Delivered | GaveUp.

Definition on_submit : M flow :=
  w <- get_world ;;
  let userEntry := trim Util.plain (input_value (page w)) in
  if Nat.eqb (List.length userEntry) 0 then ret Ignored else
    update (push (user_msg userEntry)) ;;
    renderMessages ;;
    startTypingIndicator ;;
    change_page (set_input_value []) ;;
    s <- get_state ;;
    if negb (truthy (chat_id s)) then
      stopTypingIndicator ;;
      update (push not_connected) ;;
      ret Rejected
    else
      success <- sendChatMessage userEntry ;;
      r <- (if negb success then
              success <- sendChatMessage userEntry ;;
              if negb success then
                success <- sendChatMessage userEntry ;;
                if negb success then
                  update (push send_giveup) ;;
                  renderMessages ;;
                  ret GaveUp
                else ret Delivered
              else ret Delivered
            else ret Delivered) ;;
      save_session ;;
      ret r.

(** The [keydown] handler: Enter submits when the input is not blank and
    the bot is not typing. *)
Definition on_enter : M flow :=
  w <- get_world ;;
  if negb (Nat.eqb (List.length (trim Util.plain (input_value (page w)))) 0)
     && negb (botIsTyping (st w))
  then on_submit else ret Ignored.

(** The page when the module is loaded: the default session, then
    [loadChatbotSession()]. *)
Definition module_loaded : M unit := load_session.

(** The hide button. *)
Definition on_hide : M unit := change_page (set_widget_shown false).

End Main.
Import Main.

(* ===================================================================== *)
(** ** The formatter with the origin of every character                   *)
(* ===================================================================== *)

Module Traced.

(** A character of the output is either copied from the text handed to
    the formatter ([Raw]) or written by the formatter itself ([Markup]):
    the text of a replacement pattern, of an entity, of an anchor. *)
Inductive origin : Type := Raw | Markup.

Record tchar := { tcode : N; torigin : origin }.

Definition markup (c : N) : tchar := {| tcode := c; torigin := Markup |}.

Definition escapeHTML : list tchar -> list tchar := Util.Gen.escapeHTML tcode markup.
Definition renderMarkdown : list tchar -> list tchar := Util.Gen.renderMarkdown tcode markup.



End Traced.

(* ===================================================================== *)
(** ** Worlds and scenarios used in the statements                        *)
(* ===================================================================== *)

Module Scenario.

Definition fresh_page : dom :=
  {| widget_shown := false; nodes := []; input_value := []; input_disabled := false;
     final_placeholder := false; chat_hidden := false |}.

(** A page that has just loaded the script, with the answers the backend
    is going to give. *)
Definition fresh_world (answers : list (Z * fetch_result)) : world :=
  {| st := initial; storage := None; page := fresh_page; clock := 0;
     net := answers; requests := []; timers := []; next_timer := 1;
     FRONTEND_URL := None; BACKEND_URL := None |}.

Definition typed (v : string) (w : world) : world :=
  with_page (set_input_value (str v)) w.

Definition connected (id : string) (w : world) : world :=
  with_st (set_chat_id (Some (JStr (str id)))) w.

Definition obj (fields : list (string * json)) : json :=
  JObj (map (fun kv => (str (fst kv), snd kv)) fields).

Definition jstr (s : string) : json := JStr (str s).

(** A connected session, [Hallo] in the input, and a backend that cannot
    be reached three times in a row. *)
Definition unreachable : world :=
  connected "c1"
    (typed "Hallo" (fresh_world [(1%Z, NetworkError); (2%Z, NetworkError); (3%Z, NetworkError)])).

(** A body for [/chat/new] with an id and a greeting, and no [data]. *)
Definition greeting_body : json :=
  obj [("id"%string, jstr "c1"); ("message"%string, jstr "Hi")].

(** The page after the bootstrap has run against that body. *)
Definition greeted : world :=
  snd (startNewChatIfNeeded None None (fresh_world [(1%Z, Response 200 (Some greeting_body))])).

(** A body for [/chat/new] that carries an id and a payload, no greeting. *)
Definition new_chat_body : json :=
  obj [("id"%string, jstr "c1"); ("data"%string, JNull)].

(** A body for a turn: a reply, the next id, and the [meta] object. *)
Definition turn_body (reply id : string) : json :=
  obj [("message"%string, jstr reply); ("id"%string, jstr id);
       ("data"%string, JNull); ("meta"%string, JObj [])].

End Scenario.


(* ===================================================================== *)
(** ** What the blocks of the splitter say about the text                 *)
(* ===================================================================== *)

Module Blocks.

(** A part of the text together with what was dropped right after it. *)
Definition glue (pc : jsstring * jsstring) : jsstring := fst pc ++ snd pc.

Definition double_newline : jsstring := [10%N; 10%N].

(** What the splitter drops after a part: nothing (a hard cut, the last
    part), the double newline of a paragraph break, the newline of a window
    cut, or some non-empty beginning of the period-space of a window cut. *)
Definition cut_ok (c : jsstring) : Prop :=
  c = [] \/ c = double_newline \/ c = Util.newline
  \/ (c <> [] /\ exists rest, Util.period_space = c ++ rest).

(** The reading of the sentence of the specification: the text is the
    blocks, in order, with nothing but separators (double newline, newline,
    period-space) before, between and after them. *)
Definition separator (c : jsstring) : Prop :=
  c = double_newline \/ c = Util.newline \/ c = Util.period_space.

Fixpoint weave (gaps blocks : list jsstring) : jsstring :=
  match gaps, blocks with
  | g :: gs, b :: bs => g ++ b ++ weave gs bs
  | g :: _, [] => g
  | [], _ => []
  end.

Definition reconstructs (blocks : list jsstring) (text : jsstring) : Prop :=
  exists gaps : list (list jsstring),
    Forall (Forall separator) gaps
    /\ List.length gaps = S (List.length blocks)
    /\ text = weave (map (@List.concat N) gaps) blocks.

End Blocks.


Module BlocksAux.

(** A part is within the bound and is followed by an admissible cut. *)
Definition part_ok (maxLen : Z) (pc : jsstring * jsstring) : Prop :=
  (Util.len (fst pc) <= maxLen)%Z /\ Blocks.cut_ok (snd pc).

End BlocksAux.


Module Cuts.

(** No full stop of the text is followed by a space: the text holds no
    period-space, and no window is cut at one. *)
Definition no_period_space (text : jsstring) : Prop :=
  forall i, nth_error text i = Some (chr ".") -> nth_error text (S i) <> Some (chr " ").

(** The loop over the windows runs: the first split gave one part and
    the text is longer than the bound. *)
Definition windowed (text : jsstring) (maxLen : Z) : Prop :=
  List.length (Util.paragraphs text) = 1 /\ (maxLen < Util.len text)%Z.

End Cuts.


(* ===================================================================== *)
(** ** Vocabulary of the statements about the session                     *)
(* ===================================================================== *)

Module Frame.

(** A message the renderer can draw: the text of a bot message has to be
    a string, as in the data model; [splitIntoSubblocks] throws on
    anything else. *)
Definition drawable (m : message) : bool :=
  match msg_sender m with
  | User => true
  | Bot =>
    match msg_text m with
    | Some (JStr _) => true
    | _ => false
    end
  end.

Definition renderable (w : world) : Prop :=
  forallb drawable (chatMessages (st w)) = true.

(** [c] relates the world [w] to the world it leaves, however it ends;
    [keeps]: it does so from every world. *)
Definition kept (R : world -> world -> Prop) {T} (c : M T) (w : world) : Prop :=
  R w (snd (c w)).

Definition keeps (R : world -> world -> Prop) {T} (c : M T) : Prop :=
  forall w, kept R c w.

(** A field of the session that was not [undefined] when it was saved. *)
Definition defined (v : jsval) : Prop := v <> undefined.

(** What the renderer and the typing indicator leave alone: everything
    but the typing flag, the wait start, the timers, the stored copy and
    the drawing of the page. *)
Definition dom_step (w w' : world) : Prop :=
  chat_id (st w') = chat_id (st w)
  /\ asked_info (st w') = asked_info (st w)
  /\ data_var (st w') = data_var (st w)
  /\ chatStarted (st w') = chatStarted (st w)
  /\ privacyAccepted (st w') = privacyAccepted (st w)
  /\ final_message (st w') = final_message (st w)
  /\ chatMessages (st w') = chatMessages (st w)
  /\ net w' = net w
  /\ requests w' = requests w
  /\ BACKEND_URL w' = BACKEND_URL w
  /\ FRONTEND_URL w' = FRONTEND_URL w
  /\ input_value (page w') = input_value (page w).

(** The request body carries [v] under the key [asked_info] ([undefined]
    is an absent key); a request without a body carries nothing. *)
Definition carries (v : jsval) (r : request) : Prop :=
  match req_body r with
  | Some (JObj fields) => lookup (str "asked_info") fields = v
  | Some _ => False
  | None => True
  end.

(** Messages are only appended, [asked_info] is not assigned, and every
    request issued carries the [asked_info] of the session. *)
Definition extends (w w' : world) : Prop :=
  (exists more, chatMessages (st w') = chatMessages (st w) ++ more)
  /\ asked_info (st w') = asked_info (st w)
  /\ (exists sent, requests w' = requests w ++ sent
                   /\ Forall (carries (asked_info (st w))) sent).

End Frame.
Import Frame.


Module FrameAux.

(** What drawing the message list leaves alone: everything but the page,
    and on the page the value of the input. *)
Definition page_only (w w' : world) : Prop :=
  st w' = st w
  /\ net w' = net w
  /\ requests w' = requests w
  /\ timers w' = timers w
  /\ clock w' = clock w
  /\ BACKEND_URL w' = BACKEND_URL w
  /\ FRONTEND_URL w' = FRONTEND_URL w
  /\ input_value (page w') = input_value (page w).

(** The renderer and the typing indicator end normally on a session whose
    messages can be drawn, and leave the session as [dom_step] says. *)
Definition draws (T : Type) (c : M T) (typing : option bool) : Prop :=
  forall w,
    exists o w',
      c w = (o, w')
      /\ dom_step w w'
      /\ botIsTyping (st w') = match typing with
                               | Some b => b
                               | None => botIsTyping (st w)
                               end
      /\ (renderable w -> exists v, o = Val v).

End FrameAux.
Import FrameAux.


(* ===================================================================== *)
(** ** Answers of the backend, as the transport client reads them          *)
(* ===================================================================== *)

Module Answers.

(** The request [sendChatMessage] issues from the world [w]. *)
Definition send_request (w : world) (userEntry : jsstring) : request :=
  {| req_url := ChatAt (BACKEND_URL w) (chat_id (st w));
     req_body := Some (send_body (st w) userEntry) |}.

Definition start_request (w : world) : request :=
  {| req_url := ChatNew (BACKEND_URL w); req_body := None |}.

(** A transport failure: the [fetch] is rejected, or the body is not
    JSON. *)
Definition transport_failure (r : fetch_result) : bool :=
  match r with
  | NetworkError => true
  | Response _ None => true
  | Response _ (Some _) => false
  end.

(** The body has a [meta] that can be read for [final_message]. *)
Definition has_meta (j : json) : bool :=
  match j with
  | JObj fields =>
    match lookup (str "meta") fields with
    | None => false
    | Some JNull => false
    | Some _ => true
    end
  | _ => false
  end.

(** An answer on which the [try] block of [sendChatMessage] throws before
    it has touched the session. *)
Definition send_fails (r : fetch_result) : bool :=
  match r with
  | Response _ (Some j) => negb (has_meta j)
  | _ => true
  end.

(** An answer [sendChatMessage] can deliver: a JSON object with a [meta]
    and a string [message]; with the message come the [id] and the [data]
    of the body. *)
Definition delivered (r : fetch_result) : option (jsstring * jsval * jsval) :=
  match r with
  | Response _ (Some (JObj fields)) =>
    if has_meta (JObj fields) then
      match lookup (str "message") fields with
      | Some (JStr m) => Some (m, lookup (str "id") fields, lookup (str "data") fields)
      | _ => None
      end
    else None
  | _ => None
  end.

(** The world with other answers to come. *)
Definition with_answers (answers : list (Z * fetch_result)) (w : world) : world :=
  {| st := st w; storage := storage w; page := page w; clock := clock w;
     net := answers; requests := requests w; timers := timers w;
     next_timer := next_timer w; FRONTEND_URL := FRONTEND_URL w;
     BACKEND_URL := BACKEND_URL w |}.

Definition is_2xx (status : Z) : bool := ((200 <=? status) && (status <=? 299))%Z.

End Answers.
Import Answers.


(* ===================================================================== *)
(** ** The operations of the core, one after the other                    *)
(* ===================================================================== *)

Module Ops.

Inductive op : Type :=
| StartChat
| SendChatMessage (userEntry : jsstring)
| Submit
| Enter
| Bootstrap (frontendUrl backendUrl : option jsstring)
| Render
| StartTyping
| StopTyping
| FallbackFired (h : Z)
| SetupPrivacy
| AcceptPrivacy
| Hide
(* what the surroundings do between two operations *)
| UserTypes (v : jsstring)
| BackendAnswers (t : Z) (r : fetch_result)
| ClockShows (t : Z).

Definition set_clock (t : Z) (w : world) : world :=
  {| st := st w; storage := storage w; page := page w; clock := t;
     net := net w; requests := requests w; timers := timers w;
     next_timer := next_timer w; FRONTEND_URL := FRONTEND_URL w;
     BACKEND_URL := BACKEND_URL w |}.

Definition ignore {T} (c : M T) : M unit := _ <- c ;; ret tt.

Definition perform (o : op) : M unit :=
  match o with
  | StartChat => ignore startChat
  | SendChatMessage userEntry => ignore (sendChatMessage userEntry)
  | Submit => ignore on_submit
  | Enter => ignore on_enter
  | Bootstrap f b => startNewChatIfNeeded f b
  | Render => renderMessages
  | StartTyping => startTypingIndicator
  | StopTyping => stopTypingIndicator
  | FallbackFired h => fallback_fired h
  | SetupPrivacy => setupPrivacyOverlay
  | AcceptPrivacy => accept_privacy
  | Hide => on_hide
  | UserTypes v => change_page (set_input_value v)
  | BackendAnswers t r => modify (fun w => with_answers (net w ++ [(t, r)]) w)
  | ClockShows t => modify (set_clock t)
  end.

(** The world an operation leaves, however it ends. *)
Definition after (o : op) (w : world) : world := snd (perform o w).

Definition after_all (ops : list op) (w : world) : world :=
  fold_left (fun w o => after o w) ops w.

End Ops.
Import Ops.

(* ===================================================================== *)
(** ** What the formatter does to a single character                      *)
(* ===================================================================== *)

Module Entities.

(** The entity of a character: the five characters of [escapeHTML] have
    one, every other character stands for itself. *)
Definition entity (c : N) : jsstring :=
  if (c =? chr "&")%N then str "&amp;"
  else if (c =? chr "<")%N then str "&lt;"
  else if (c =? chr ">")%N then str "&gt;"
  else if (c =? 34)%N then str "&quot;"
  else if (c =? chr "'")%N then str "&#39;"
  else [c].

(** One global replacement of the character [a] by the text [t]. *)
Definition swap (a : N) (t : string) (c : N) : jsstring :=
  if (c =? a)%N then str t else [c].

(** A character of plain text: escaped, and a newline as a line break. *)
Definition plain_html (c : N) : jsstring :=
  if (c =? 10)%N then str "<br>" else entity c.

(** The characters one of which every pattern of [renderMarkdown] other
    than the escaping and the line break has to read: the opening square
    bracket, the at sign, the star, the underscore, the full stop and the
    colon. *)
Definition trigger (c : N) : bool :=
  (c =? chr "[")%N || (c =? chr "@")%N || (c =? chr "*")%N
  || (c =? chr "_")%N || (c =? chr ".")%N || (c =? chr ":")%N.

(** [reads c r]: no text matches [r] unless it holds the character [c]. *)
Fixpoint reads (c : N) (r : regex) : bool :=
  match r with
  | Lit a => (a =? c)%N
  | Cat r1 r2 => reads c r1 || reads c r2
  | Alt r1 r2 => reads c r1 && reads c r2
  | Cap _ r1 => reads c r1
  | Rep lo hi _ r1 =>
    Nat.leb 1 lo && reads c r1
    && match hi with
       | Some O => false
       | _ => true
       end
  | _ => false
  end.

Definition letter (c : N) : bool := in_range 65 90 c || in_range 97 122 c.

End Entities.

(* ===================================================================== *)
(** ** What a render leaves, and what a response body holds               *)
(* ===================================================================== *)

Module Rendered.

(** The world a render that ends normally leaves, [ns] being the nodes
    drawn for the messages of the session: the statements of
    [renderMessages] after the loop over the messages, one after the
    other. *)
Definition rendered (ns : list node) (w : world) : world :=
  let s := st w in
  let s' := if botIsTyping s
            then (if no_waitStart s then set_waitStart (Some (clock w)) s else s)
            else set_waitStart None s in
  {| st := s';
     storage := saveChatbotSession s';
     page := {| widget_shown := true;
                nodes := if botIsTyping s
                         then ns ++ [Waiting (8000 <? clock w - waitStart_number s')%Z]
                         else ns;
                input_value := input_value (page w);
                input_disabled := botIsTyping s || truthy (final_message s);
                final_placeholder := truthy (final_message s) || final_placeholder (page w);
                chat_hidden := chat_hidden (page w) |};
     clock := clock w; net := net w; requests := requests w; timers := timers w;
     next_timer := next_timer w; FRONTEND_URL := FRONTEND_URL w;
     BACKEND_URL := BACKEND_URL w |}.

(** The nodes the loop of [renderMessages] appends for the messages, one
    message after the other. *)
Fixpoint draw (msgs : list message) : outcome (list node) :=
  match msgs with
  | [] => Val []
  | m :: r =>
    match message_nodes m with
    | Val a =>
      match draw r with
      | Val b => Val (a ++ b)
      | Throw => Throw
      | Pending => Pending
      end
    | Throw => Throw
    | Pending => Pending
    end
  end.

(** A node that holds the typing indicator. *)
Definition is_waiting (n : node) : bool :=
  match n with
  | Waiting _ => true
  | _ => false
  end.

(** The worlds [startTypingIndicator] and [stopTypingIndicator] leave
    when their render ends normally, [ns] being the nodes drawn for the
    messages: the statements of the two functions, one after the other. *)
Definition started (ns : list node) (w : world) : world :=
  with_st (set_fallbackTimer (Some (next_timer w)))
    (with_timers (timers w ++ [next_timer w]) (next_timer w + 1)
       (rendered ns (with_st (set_waitStart None) (with_st (set_botIsTyping true) w)))).

Definition stopped (ns : list node) (w : world) : world :=
  rendered ns (with_st (set_waitStart None)
                 (snd (clearTimeout (fallbackTimer (st w))
                         (with_st (set_botIsTyping false) w)))).

(** The world the submit handler has reached when it tests [chat_id]:
    the user message pushed and drawn, the typing indicator started, the
    input emptied. *)
Definition submitted (ns : list node) (userEntry : jsstring) (w : world) : world :=
  with_page (set_input_value [])
    (started ns (rendered ns (with_st (push (user_msg userEntry)) w))).

(** [j.k] where [j] is not [null]. *)
Definition member (j : json) (k : string) : jsval :=
  match j with
  | JObj fields => lookup (str k) fields
  | _ => undefined
  end.

(** A value that is a string. *)
Definition is_string (v : jsval) : bool :=
  match v with
  | Some (JStr _) => true
  | _ => false
  end.

End Rendered.
Import Rendered.

(* ===================================================================== *)
(** * Properties                                                          *)
(* ===================================================================== *)

(** ** Replacement only copies its argument or writes literal text *)

Section Copying.
Variable A : Type.
Variable code : A -> N.
Variable lit : N -> A.
Variable P : A -> Prop.
Hypothesis P_lit : forall c, P (lit c).

Lemma Forall_firstn_of (n : nat) (s : list A) : Forall P s -> Forall P (firstn n s).
Proof.
  intros H. rewrite <- (firstn_skipn n s) in H. now apply Forall_app in H.
Qed.

Lemma Forall_skipn_of (n : nat) (s : list A) : Forall P s -> Forall P (skipn n s).
Proof.
  intros H. rewrite <- (firstn_skipn n s) in H. now apply Forall_app in H.
Qed.

Lemma Forall_slice (s : list A) (a b : nat) : Forall P s -> Forall P (slice s a b).
Proof.
  intros H. unfold slice. now apply Forall_firstn_of, Forall_skipn_of.
Qed.

Lemma Forall_drop_while (p : A -> bool) (s : list A) :
  Forall P s -> Forall P (drop_while p s).
Proof.
  induction 1 as [|x s Hx Hs IH]; simpl; [constructor|].
  destruct (p x); [exact IH | now constructor].
Qed.

Lemma Forall_trim (s : list A) : Forall P s -> Forall P (trim code s).
Proof.
  intros H. unfold trim, trimEnd, trimStart.
  apply Forall_rev, Forall_drop_while, Forall_rev, Forall_drop_while, H.
Qed.

Lemma Forall_lift (t : jsstring) : Forall P (lift lit t).
Proof.
  unfold lift. induction t; simpl; constructor; auto.
Qed.

Lemma Forall_group (s : list A) (f : found) (n : nat) :
  Forall P s -> Forall P (group s f n).
Proof.
  intros H. unfold group. destruct (get_cap n (m_caps f)) as [[a b]|].
  - now apply Forall_slice.
  - constructor.
Qed.

Lemma Forall_expand (tmpl : list (piece)) (s : list A) (f : found) :
  Forall P s -> Forall P (expand lit tmpl s f).
Proof.
  intros H. unfold expand. apply Forall_flat_map.
  apply Forall_forall. intros [t|n] _.
  - apply Forall_lift.
  - now apply Forall_group.
Qed.

Lemma Forall_assemble (s : list A) (ms : list found) (rep : found -> list A) :
  Forall P s -> (forall f, Forall P (rep f)) ->
  forall pos, Forall P (assemble s pos ms rep).
Proof.
  intros Hs Hrep. induction ms as [|f ms IH]; intros pos; simpl.
  - now apply Forall_skipn_of.
  - destruct (Nat.leb pos (m_start f)); [|apply IH].
    apply Forall_app; split; [now apply Forall_slice|].
    apply Forall_app; split; [apply Hrep | apply IH].
Qed.

Lemma Forall_replace_fn (fl : flags) (r : regex) (rep : list A -> found -> list A) (s : list A) :
  (forall f, Forall P (rep s f)) -> Forall P s -> Forall P (replace_fn code fl r rep s).
Proof.
  intros Hrep Hs. unfold replace_fn. now apply Forall_assemble.
Qed.

Lemma Forall_replace_all (fl : flags) (r : regex) (tmpl : list piece) (s : list A) :
  Forall P s -> Forall P (replace_all code lit fl r tmpl s).
Proof.
  intros Hs. unfold replace_all. apply Forall_replace_fn; [|exact Hs].
  intros f. now apply Forall_expand.
Qed.





Lemma Forall_sub (fl : flags) (r : regex) (tmpl : list piece) (s : list A) :
  Forall P s -> Forall P (Util.Gen.sub code lit fl r tmpl s).
Proof. apply Forall_replace_all. Qed.

Lemma Forall_escapeHTML (t : list A) :
  Forall P t -> Forall P (Util.Gen.escapeHTML code lit t).
Proof.
  intros H. unfold Util.Gen.escapeHTML. cbv zeta.
  now repeat apply Forall_sub.
Qed.

End Copying.

(** ** A one-character pattern with the [g] flag finds every occurrence *)

Section EveryOccurrence.
Variable A : Type.
Variable code : A -> N.
Variable lit : N -> A.
Variable a : N.
Variable Q : A -> Prop.
Hypothesis Q_lit : forall c, Q (lit c).

Lemma match_at_lit (s : jsstring) (i : nat) :
  match_at no_flags s (Lit a) i =
  match nth_error s i with
  | Some x => if (a =? x)%N then Some (S i, []) else None
  | None => None
  end.
Proof. reflexivity. Qed.

Lemma exec_from_lit (s : jsstring) (n : nat) :
  forall i,
    match exec_from no_flags s (Lit a) n i with
    | Some f =>
      m_end f = S (m_start f) /\ i <= m_start f /\ m_caps f = [] /\
      forall j, i <= j < m_start f -> nth_error s j <> Some a
    | None => forall j, i <= j <= i + n -> nth_error s j <> Some a
    end.
Proof.
  induction n as [|n IH]; intros i; simpl; rewrite match_at_lit.
  - destruct (nth_error s i) as [x|] eqn:E.
    + destruct (N.eqb_spec a x) as [->|Hne]; simpl.
      * repeat split; auto. intros j Hj. lia.
      * intros j Hj. assert (j = i) by lia. subst j. rewrite E. congruence.
    + intros j Hj. assert (j = i) by lia. subst j. rewrite E. congruence.
  - assert (Hmiss : nth_error s i <> Some a ->
                    match exec_from no_flags s (Lit a) n (S i) with
                    | Some f =>
                      m_end f = S (m_start f) /\ i <= m_start f /\ m_caps f = [] /\
                      forall j, i <= j < m_start f -> nth_error s j <> Some a
                    | None => forall j, i <= j <= i + S n -> nth_error s j <> Some a
                    end).
    { intros Hi. specialize (IH (S i)).
      destruct (exec_from no_flags s (Lit a) n (S i)) as [f|].
      - destruct IH as (He & Hs & Hc & Hb). repeat split; auto; [lia|].
        intros j Hj. destruct (Nat.eq_dec j i) as [->|]; [exact Hi|]. apply Hb. lia.
      - intros j Hj. destruct (Nat.eq_dec j i) as [->|]; [exact Hi|]. apply IH. lia. }
    destruct (nth_error s i) as [x|] eqn:E.
    + destruct (N.eqb_spec a x) as [->|Hne]; simpl.
      * repeat split; auto. intros j Hj. lia.
      * apply Hmiss. congruence.
    + apply Hmiss. congruence.
Qed.

Lemma exec_lit (s : jsstring) (i : nat) :
  match exec no_flags s (Lit a) i with
  | Some f =>
    m_end f = S (m_start f) /\ i <= m_start f /\ m_caps f = [] /\
    forall j, i <= j < m_start f -> nth_error s j <> Some a
  | None => forall j, i <= j -> nth_error s j <> Some a
  end.
Proof.
  unfold exec. destruct (Nat.leb_spec i (List.length s)) as [Hle|Hgt].
  - pose proof (exec_from_lit s (List.length s - i) i) as H.
    destruct (exec_from no_flags s (Lit a) (List.length s - i) i); [exact H|].
    intros j Hj. destruct (Nat.le_gt_cases j (List.length s)) as [Hin|Hout].
    + apply H. lia.
    + assert (nth_error s j = None) as -> by (apply nth_error_None; lia). congruence.
  - intros j Hj.
    assert (nth_error s j = None) as -> by (apply nth_error_None; lia). congruence.
Qed.




End EveryOccurrence.

(** ** The formatter does not look at anything but the code units *)

Section Erasure.
Variables A B : Type.
Variable codeA : A -> N.
Variable codeB : B -> N.
Variable litA : N -> A.
Variable litB : N -> B.
Variable h : A -> B.
Hypothesis h_code : forall x, codeB (h x) = codeA x.
Hypothesis h_lit : forall c, h (litA c) = litB c.















End Erasure.

(** ** The text formatter *)



(** C4. [renderMarkdown] leaves the underscores of a pair at the start of
    the text in place: the first alternative of the italic pattern asks for
    a white space or for the letter A before the underscore.  The same pair
    after a space, or after an A, becomes an italic span; the text without
    any boundary keeps its underscores. *)
Theorem renderMarkdown_underscores :
  Util.renderMarkdown (str "_a_ b") = str "_a_ b"
  /\ Util.renderMarkdown (str " _a_ b") = str " <i>a</i> b"
  /\ Util.renderMarkdown (str "A_a_ b") = str "A<i>a</i> b"
  /\ Util.renderMarkdown (str "_a_b_") = str "_a_b_".
Proof. vm_compute. repeat split; reflexivity. Qed.

(** ** The block splitter *)

Lemma map_plain (s : jsstring) : map Util.plain s = s.
Proof. induction s as [|x s IH]; simpl; [reflexivity|]. now rewrite IH. Qed.

Lemma skipn_cons_nth {T} (l : list T) (k : nat) (x : T) :
  nth_error l k = Some x -> skipn k l = x :: skipn (S k) l.
Proof.
  revert k. induction l as [|y l IH]; intros [|k] H; simpl in *; try discriminate.
  - now inversion H.
  - now apply IH.
Qed.

Lemma skipn_slice {T} (l : list T) (p q : nat) :
  p <= q -> skipn p l = slice l p q ++ skipn q l.
Proof.
  intros H. unfold slice.
  replace (skipn q l) with (skipn (q - p) (skipn p l))
    by (rewrite skipn_skipn; f_equal; lia).
  symmetry. apply firstn_skipn.
Qed.

Lemma lastIndexOf_from_spec (pat : jsstring) :
  pat <> [] ->
  forall s i,
    let r := Util.lastIndexOf_from pat s i in
    r = (-1)%Z \/
    ((i <= r < i + Util.len s)%Z
     /\ Util.starts_with pat (skipn (Z.to_nat (r - i)) s) = true).
Proof.
  intros Hpat. induction s as [|x s IH]; intros i; simpl.
  - destruct pat; [congruence | now left].
  - specialize (IH (i + 1)%Z). cbv zeta in IH.
    destruct (Z.leb_spec 0 (Util.lastIndexOf_from pat s (i + 1))) as [Hge|Hlt].
    + right. destruct IH as [IH|[Hr Hs]]; [lia|].
      unfold Util.len in *. simpl List.length. split; [lia|].
      replace (Z.to_nat (Util.lastIndexOf_from pat s (i + 1) - i))
        with (S (Z.to_nat (Util.lastIndexOf_from pat s (i + 1) - (i + 1)))) by lia.
      exact Hs.
    + destruct (Util.starts_with pat (x :: s)) eqn:E; [|now left].
      right. unfold Util.len. simpl List.length. split; [lia|].
      now rewrite Z.sub_diag.
Qed.

Lemma js_slice_inside (s : jsstring) (a b : Z) :
  (0 <= a)%Z -> (a <= b)%Z -> (b <= Util.len s)%Z ->
  Util.js_slice s a b = slice s (Z.to_nat a) (Z.to_nat b).
Proof.
  intros Ha Hab Hb. unfold Util.js_slice, Util.clamp, slice.
  destruct (Z.ltb_spec a 0); [lia|]. destruct (Z.ltb_spec b 0); [lia|].
  rewrite !Z.min_l by lia. f_equal. lia.
Qed.

Lemma length_slice {T} (l : list T) (p q : nat) :
  p <= q -> q <= List.length l -> List.length (slice l p q) = q - p.
Proof.
  intros H1 H2. unfold slice. rewrite length_firstn, length_skipn. lia.
Qed.

Lemma nth_error_slice {T} (l : list T) (p q k : nat) :
  k < q - p -> nth_error (slice l p q) k = nth_error l (p + k).
Proof.
  intros H. unfold slice. rewrite nth_error_firstn.
  destruct (Nat.ltb_spec k (q - p)); [|lia]. apply nth_error_skipn.
Qed.

Lemma starts_with_head (pat s : jsstring) (a : N) (rest : jsstring) :
  pat = a :: rest -> Util.starts_with pat s = true -> nth_error s 0 = Some a.
Proof.
  intros -> H. destruct s as [|c s]; simpl in *; [discriminate|].
  apply andb_prop in H. destruct H as [H _]. apply N.eqb_eq in H. now subst.
Qed.

Lemma separator_found (snippet : jsstring) :
  let sep := Z.max (Util.lastIndexOf Util.newline snippet)
                   (Util.lastIndexOf Util.period_space snippet) in
  (-1 < sep)%Z ->
  exists a rest,
    (a :: rest = Util.newline \/ a :: rest = Util.period_space)
    /\ (0 <= sep < Util.len snippet)%Z
    /\ nth_error snippet (Z.to_nat sep) = Some a.
Proof.
  intros sep Hsep. unfold Util.lastIndexOf in *.
  assert (Hn : Util.newline <> []) by discriminate.
  assert (Hp : Util.period_space <> []) by discriminate.
  pose proof (lastIndexOf_from_spec Hn snippet 0) as Sn.
  pose proof (lastIndexOf_from_spec Hp snippet 0) as Sp.
  cbv zeta in Sn, Sp.
  assert (Hhead : forall pat a rest r,
             pat = a :: rest ->
             (0 <= r < 0 + Util.len snippet)%Z ->
             Util.starts_with pat (skipn (Z.to_nat (r - 0)) snippet) = true ->
             nth_error snippet (Z.to_nat r) = Some a).
  { intros pat a rest r Epat Hr Hs.
    pose proof (starts_with_head _ Epat Hs) as H0.
    rewrite nth_error_skipn in H0. rewrite Z.sub_0_r, Nat.add_0_r in H0. exact H0. }
  destruct (Z.max_spec (Util.lastIndexOf_from Util.newline snippet 0)
                       (Util.lastIndexOf_from Util.period_space snippet 0))
    as [[Hlt E]|[Hge E]]; fold sep in E.
  - destruct Sp as [Sp|[Hr Hs]]; [lia|].
    exists (chr "."), [chr " "]. split; [now right|]. rewrite E. split; [lia|].
    eapply Hhead; [reflexivity | exact Hr | exact Hs].
  - destruct Sn as [Sn|[Hr Hs]]; [lia|].
    exists 10%N, []. split; [now left|]. rewrite E. split; [lia|].
    eapply Hhead; [reflexivity | exact Hr | exact Hs].
Qed.

Lemma chunk_spec (text : jsstring) (maxLen : Z) :
  (1 <= maxLen)%Z ->
  forall fuel cursor parts,
    (0 <= cursor <= Util.len text)%Z ->
    (Util.len text - cursor <= Z.of_nat fuel)%Z ->
    exists pcs,
      Util.chunk fuel text maxLen cursor parts = Some (parts ++ map fst pcs)
      /\ skipn (Z.to_nat cursor) text = flat_map Blocks.glue pcs
      /\ Forall (BlocksAux.part_ok maxLen) pcs.
Proof.
  intros Hmax.
  assert (Hdone : forall (fuel : nat) cursor parts,
             (0 <= cursor <= Util.len text)%Z -> ~ (cursor < Util.len text)%Z ->
             exists pcs,
               Some parts = Some (parts ++ map fst pcs)
               /\ skipn (Z.to_nat cursor) text = flat_map Blocks.glue pcs
               /\ Forall (BlocksAux.part_ok maxLen) pcs).
  { intros _ cursor parts Hc Hn. exists []. simpl. rewrite app_nil_r.
    split; [reflexivity|]. split; [|constructor].
    apply skipn_all2. unfold Util.len in *. lia. }
  induction fuel as [|fuel IH]; intros cursor parts Hc Hf.
  - simpl. destruct (Z.ltb_spec cursor (Util.len text)); [lia|].
    apply (Hdone 0%nat); [exact Hc | lia].
  - cbn [Util.chunk].
    destruct (Z.ltb_spec cursor (Util.len text)) as [Hlt|];
      [|apply (Hdone 0%nat); [exact Hc | lia]].
    set (next := Z.min (Util.len text) (cursor + maxLen)).
    assert (Hnext : (cursor < next <= Util.len text)%Z) by (unfold next; lia).
    assert (Hbound : (next - cursor <= maxLen)%Z) by (unfold next; lia).
    assert (Esnip : Util.js_slice text cursor next
                    = slice text (Z.to_nat cursor) (Z.to_nat next))
      by (apply js_slice_inside; lia).
    assert (Lsnip : Util.len (Util.js_slice text cursor next) = (next - cursor)%Z).
    { rewrite Esnip. unfold Util.len in *. rewrite length_slice; lia. }
    destruct (Z.ltb_spec (-1)
                (Z.max (Util.lastIndexOf Util.newline (Util.js_slice text cursor next))
                       (Util.lastIndexOf Util.period_space (Util.js_slice text cursor next))))
      as [Hsep|Hsep].
    + destruct (separator_found _ Hsep) as (a & rest & Hpat & Hr & Hx).
      set (sep := Z.max _ _) in *.
      assert (Htext : nth_error text (Z.to_nat (cursor + sep)) = Some a).
      { rewrite Esnip, nth_error_slice in Hx by lia.
        rewrite <- Hx. f_equal. lia. }
      destruct (IH (cursor + sep + 1)%Z
                   (parts ++ [Util.js_slice text cursor (cursor + sep)]))
        as (pcs & E & Hs & Hok); [lia | lia |].
      exists ((Util.js_slice text cursor (cursor + sep), [a]) :: pcs).
      split; [rewrite E, <- app_assoc; reflexivity|]. split.
      * simpl flat_map. unfold Blocks.glue at 1. simpl fst. simpl snd.
        rewrite <- Hs, js_slice_inside by lia.
        rewrite (skipn_slice text (p := Z.to_nat cursor) (q := Z.to_nat (cursor + sep))) by lia.
        rewrite <- app_assoc. f_equal. simpl.
        replace (Z.to_nat (cursor + sep + 1)) with (S (Z.to_nat (cursor + sep))) by lia.
        now apply skipn_cons_nth.
      * constructor; [|exact Hok]. split; simpl.
        -- rewrite js_slice_inside by lia. unfold Util.len in *.
           rewrite length_slice; lia.
        -- destruct Hpat as [Hpat|Hpat]; inversion Hpat; subst.
           ++ right. right. now left.
           ++ right. right. right. split; [discriminate|]. now exists [chr " "].
    + destruct (IH next (parts ++ [Util.js_slice text cursor next]))
        as (pcs & E & Hs & Hok); [lia | lia |].
      exists ((Util.js_slice text cursor next, []) :: pcs).
      split; [rewrite E, <- app_assoc; reflexivity|]. split.
      * simpl flat_map. unfold Blocks.glue at 1. simpl fst. simpl snd.
        rewrite app_nil_r, <- Hs, Esnip. apply skipn_slice. lia.
      * constructor; [|exact Hok]. split; simpl; [lia | now left].
Qed.

Lemma match_at_paragraph (s : jsstring) (q e : nat) (c : caps) :
  match_at no_flags s Util.re_paragraph q = Some (e, c) ->
  e = S (S q) /\ nth_error s q = Some 10%N /\ nth_error s (S q) = Some 10%N.
Proof.
  unfold match_at, Util.re_paragraph.
  cbn [m].
  replace (2 + S (List.length s)) with (S (S (S (List.length s)))) by reflexivity.
  cbn [repeat_matcher groups clear_caps filter Nat.eqb Nat.pred option_map andb orelse].
  unfold step. cbn [lit_match ignoreCase no_flags].
  destruct (nth_error s q) as [a|]; [|discriminate].
  destruct (N.eqb_spec 10 a) as [<-|]; [|discriminate].
  destruct (nth_error s (S q)) as [b|]; [|discriminate].
  destruct (N.eqb_spec 10 b) as [<-|]; [|discriminate].
  destruct (nth_error s (S (S q))) as [x|]; [|discriminate].
  destruct (xorb false _); [|discriminate].
  intros H. inversion H. auto.
Qed.

Lemma split_from_paragraph (s : jsstring) :
  forall fuel p q,
    p <= q ->
    exists pcs,
      split_from Util.plain no_flags Util.re_paragraph s fuel p q = map fst pcs
      /\ skipn p s = flat_map Blocks.glue pcs
      /\ Forall (fun pc => snd pc = [] \/ snd pc = Blocks.double_newline) pcs.
Proof.
  assert (Hlast : forall p,
             exists pcs,
               [skipn p s] = map fst pcs
               /\ skipn p s = flat_map Blocks.glue pcs
               /\ Forall (fun pc => snd pc = [] \/ snd pc = Blocks.double_newline) pcs).
  { intros p. exists [(skipn p s, [])]. simpl. unfold Blocks.glue. simpl.
    rewrite !app_nil_r. repeat split; auto. }
  induction fuel as [|fuel IH]; intros p q Hpq; cbn [split_from]; [apply Hlast|].
  destruct (Nat.ltb_spec q (List.length s)) as [Hq|]; [|apply Hlast].
  rewrite map_plain.
  destruct (match_at no_flags s Util.re_paragraph q) as [[e0 c]|] eqn:E.
  - apply match_at_paragraph in E. destruct E as (-> & H1 & H2).
    assert (Hin : S q < List.length s) by (apply nth_error_Some; congruence).
    rewrite Nat.min_l by lia.
    destruct (Nat.eqb_spec (S (S q)) p) as [|_]; [lia|].
    destruct (IH (S (S q)) (S (S q)) (le_n _)) as (pcs & E & Hs & Hok).
    exists ((slice s p q, Blocks.double_newline) :: pcs).
    split; [simpl; now rewrite E|]. split.
    + simpl flat_map. unfold Blocks.glue at 1. simpl fst. simpl snd.
      rewrite <- Hs, (skipn_slice s Hpq), <- app_assoc. f_equal.
      rewrite (skipn_cons_nth _ _ H1), (skipn_cons_nth _ _ H2). reflexivity.
    + constructor; [now right | exact Hok].
  - apply IH. lia.
Qed.

Lemma paragraphs_spec (text : jsstring) :
  exists pcs,
    Util.paragraphs text = map fst pcs
    /\ text = flat_map Blocks.glue pcs
    /\ Forall (fun pc => snd pc = [] \/ snd pc = Blocks.double_newline) pcs.
Proof.
  unfold Util.paragraphs, split. destruct text as [|x text].
  - exists [([], [])]. simpl. repeat split; auto.
  - apply (split_from_paragraph (x :: text) (2 * List.length (x :: text)) (le_n 0)).
Qed.

Lemma split_parts_spec (text : jsstring) (maxLen : Z) (fuel : nat) :
  (1 <= maxLen)%Z -> List.length text <= fuel ->
  exists pcs,
    Util.split_parts fuel text maxLen = Some (map fst pcs)
    /\ text = flat_map Blocks.glue pcs
    /\ Forall (fun pc => Blocks.cut_ok (snd pc)) pcs
    /\ (List.length (Util.paragraphs text) = 1 ->
        Forall (fun pc => (Util.len (fst pc) <= maxLen)%Z) pcs)
    /\ (List.length (Util.paragraphs text) <> 1 -> map fst pcs = Util.paragraphs text).
Proof.
  intros Hmax Hfuel. unfold Util.split_parts. cbv zeta.
  destruct (Nat.eqb_spec (List.length (Util.paragraphs text)) 1) as [Hone|Hmany]; simpl.
  - destruct (Z.ltb_spec maxLen (Util.len text)) as [Hlong|Hshort].
    + destruct (@chunk_spec text maxLen Hmax fuel 0%Z [])
        as (pcs & E & Hs & Hok); [unfold Util.len; lia | unfold Util.len; lia |].
      exists pcs. split; [exact E|]. split; [exact Hs|]. split; [|split].
      * eapply Forall_impl; [|exact Hok]. now intros pc [_ H].
      * intros _. eapply Forall_impl; [|exact Hok]. now intros pc [H _].
      * intros H. contradiction.
    + destruct (paragraphs_spec text) as (pcs & E & Hs & Hok).
      exists pcs. split; [now rewrite E|]. split; [exact Hs|]. split; [|split].
      * eapply Forall_impl; [|exact Hok]. intros pc [H|H]; [now left | right; now left].
      * intros _. rewrite E, length_map in Hone.
        destruct pcs as [|pc [|pc' pcs]]; simpl in Hone; try discriminate.
        constructor; [|constructor].
        assert (Hl : List.length text = List.length (Blocks.glue pc ++ []))
          by (rewrite Hs at 1; reflexivity).
        unfold Blocks.glue in Hl. rewrite app_nil_r, length_app in Hl.
        unfold Util.len in *. lia.
      * intros H. contradiction.
  - destruct (paragraphs_spec text) as (pcs & E & Hs & Hok).
    exists pcs. split; [now rewrite E|]. split; [exact Hs|]. split; [|split].
    + eapply Forall_impl; [|exact Hok]. intros pc [H|H]; [now left | right; now left].
    + intros H. contradiction.
    + intros _. now rewrite E.
Qed.

(** C3, as the code has it.  For a bound of at least one, the splitter
    returns (with enough fuel for the loop); when the text has no paragraph
    break (the first split yields one part), every block is at most
    [maxLen] long; when it has, the blocks are the paragraphs that are not
    blank, whatever their length. *)
Theorem splitIntoSubblocks_bounded (text : jsstring) (maxLen : Z) (fuel : nat) :
  (1 <= maxLen)%Z -> List.length text <= fuel ->
  exists blocks,
    Util.splitIntoSubblocks fuel text maxLen = Some blocks
    /\ (List.length (Util.paragraphs text) = 1 ->
        Forall (fun b => (Util.len b <= maxLen)%Z) blocks)
    /\ (List.length (Util.paragraphs text) <> 1 ->
        blocks = filter (fun p => negb (Util.blank p)) (Util.paragraphs text)).
Proof.
  intros Hmax Hfuel.
  destruct (split_parts_spec text Hmax Hfuel) as (pcs & E & _ & _ & Hone & Hmany).
  unfold Util.splitIntoSubblocks. rewrite E. simpl.
  eexists. split; [reflexivity|]. split.
  - intros H. specialize (Hone H).
    apply Forall_forall. intros b Hb. apply filter_In in Hb. destruct Hb as [Hb _].
    apply in_map_iff in Hb. destruct Hb as (pc & <- & Hpc).
    rewrite Forall_forall in Hone. now apply Hone.
  - intros H. now rewrite (Hmany H).
Qed.

Lemma splitIntoSubblocks_bounded_witness :
  exists blocks,
    Util.splitIntoSubblocks 6 (str "ab. cd") 5 = Some blocks
    /\ (List.length (Util.paragraphs (str "ab. cd")) = 1 ->
        Forall (fun b => (Util.len b <= 5)%Z) blocks)
    /\ (List.length (Util.paragraphs (str "ab. cd")) <> 1 ->
        blocks = filter (fun p => negb (Util.blank p)) (Util.paragraphs (str "ab. cd"))).
Proof.
  apply (@splitIntoSubblocks_bounded (str "ab. cd") 5 6); [lia | vm_compute; lia].
Defined.

(** C3, as stated, fails: a paragraph of 501 characters followed by a
    paragraph break is returned as one block of 501 characters. *)
Lemma splitIntoSubblocks_long_paragraph :
  ~ (forall (text : jsstring) (maxLen : Z) (fuel : nat) (blocks : list jsstring),
        (1 <= maxLen)%Z ->
        Util.splitIntoSubblocks fuel text maxLen = Some blocks ->
        Forall (fun b => (Util.len b <= maxLen)%Z) blocks).
Proof.
  intros H.
  specialize (H (repeat (chr "a") 501 ++ [10; 10; chr "B"])%N 500%Z 0%nat
                [repeat (chr "a") 501; [chr "B"]]).
  assert (Hb : Forall (fun b => (Util.len b <= 500)%Z) [repeat (chr "a") 501; [chr "B"]]).
  { apply H; [lia|]. vm_compute. reflexivity. }
  inversion Hb as [|b l Hlen _]. vm_compute in Hlen. now apply Hlen.
Qed.

(** *** Windows that are not cut at a period-space *)

Lemma period_space_head (l : jsstring) :
  Util.starts_with Util.period_space l = true ->
  nth_error l 0 = Some (chr ".") /\ nth_error l 1 = Some (chr " ").
Proof.
  unfold Util.period_space.
  destruct l as [|a [|b l]]; cbn [Util.starts_with nth_error]; intros H; try discriminate.
  - rewrite andb_false_r in H. discriminate.
  - apply andb_prop in H. destruct H as [H1 H2].
    apply andb_prop in H2. destruct H2 as [H2 _].
    apply N.eqb_eq in H1, H2. subst. split; reflexivity.
Qed.

Lemma period_space_absent (snippet : jsstring) :
  Cuts.no_period_space snippet ->
  Util.lastIndexOf Util.period_space snippet = (-1)%Z.
Proof.
  intros Hno. unfold Util.lastIndexOf.
  assert (Hp : Util.period_space <> []) by discriminate.
  destruct (lastIndexOf_from_spec Hp snippet 0) as [E|[Hr Hs]]; [exact E|].
  exfalso. apply period_space_head in Hs. destruct Hs as [H0 H1].
  rewrite nth_error_skipn in H0, H1.
  rewrite Nat.add_0_r in H0. rewrite Nat.add_1_r in H1.
  exact (Hno _ H0 H1).
Qed.

Lemma newline_found (snippet : jsstring) :
  (-1 < Util.lastIndexOf Util.newline snippet)%Z ->
  (0 <= Util.lastIndexOf Util.newline snippet < Util.len snippet)%Z
  /\ nth_error snippet (Z.to_nat (Util.lastIndexOf Util.newline snippet)) = Some 10%N.
Proof.
  unfold Util.lastIndexOf. intros H.
  assert (Hn : Util.newline <> []) by discriminate.
  destruct (lastIndexOf_from_spec Hn snippet 0) as [E|[Hr Hs]]; [lia|].
  split; [lia|].
  pose proof (@starts_with_head Util.newline _ 10%N [] eq_refl Hs) as H0.
  rewrite nth_error_skipn in H0. rewrite Z.sub_0_r, Nat.add_0_r in H0. exact H0.
Qed.

Lemma slice_no_period_space (text : jsstring) (p q : nat) :
  Cuts.no_period_space text -> Cuts.no_period_space (slice text p q).
Proof.
  intros Hno k H0 H1. unfold slice in H0, H1.
  rewrite nth_error_firstn in H0, H1.
  destruct (Nat.ltb (S k) (q - p)) eqn:E1; [|discriminate H1].
  destruct (Nat.ltb k (q - p)) eqn:E0; [|discriminate H0].
  rewrite nth_error_skipn in H0, H1.
  replace (p + S k) with (S (p + k)) in H1 by lia.
  exact (Hno _ H0 H1).
Qed.

(** The loop on a text without period-space: every cut is at a newline
    of the window, and the newline is what is dropped. *)
Lemma chunk_newline_cuts (text : jsstring) (maxLen : Z) :
  (1 <= maxLen)%Z -> Cuts.no_period_space text ->
  forall fuel cursor parts,
    (0 <= cursor <= Util.len text)%Z ->
    (Util.len text - cursor <= Z.of_nat fuel)%Z ->
    exists pcs,
      Util.chunk fuel text maxLen cursor parts = Some (parts ++ map fst pcs)
      /\ skipn (Z.to_nat cursor) text = flat_map Blocks.glue pcs
      /\ Forall (fun pc => snd pc = [] \/ snd pc = Util.newline) pcs.
Proof.
  intros Hmax Hno.
  assert (Hdone : forall (fuel : nat) cursor parts,
             (0 <= cursor <= Util.len text)%Z -> ~ (cursor < Util.len text)%Z ->
             exists pcs,
               Some parts = Some (parts ++ map fst pcs)
               /\ skipn (Z.to_nat cursor) text = flat_map Blocks.glue pcs
               /\ Forall (fun pc => snd pc = [] \/ snd pc = Util.newline) pcs).
  { intros _ cursor parts Hc Hn. exists []. simpl. rewrite app_nil_r.
    split; [reflexivity|]. split; [|constructor].
    apply skipn_all2. unfold Util.len in *. lia. }
  induction fuel as [|fuel IH]; intros cursor parts Hc Hf.
  - simpl. destruct (Z.ltb_spec cursor (Util.len text)); [lia|].
    apply (Hdone 0%nat); [exact Hc | lia].
  - cbn [Util.chunk].
    destruct (Z.ltb_spec cursor (Util.len text)) as [Hlt|];
      [|apply (Hdone 0%nat); [exact Hc | lia]].
    set (next := Z.min (Util.len text) (cursor + maxLen)).
    assert (Hnext : (cursor < next <= Util.len text)%Z) by (unfold next; lia).
    assert (Esnip : Util.js_slice text cursor next
                    = slice text (Z.to_nat cursor) (Z.to_nat next))
      by (apply js_slice_inside; lia).
    assert (Lsnip : Util.len (Util.js_slice text cursor next) = (next - cursor)%Z).
    { rewrite Esnip. unfold Util.len in *. rewrite length_slice; lia. }
    assert (Eps : Util.lastIndexOf Util.period_space (Util.js_slice text cursor next)
                  = (-1)%Z).
    { rewrite Esnip. apply period_space_absent. now apply slice_no_period_space. }
    rewrite Eps.
    destruct (Z.ltb_spec (-1)
                (Z.max (Util.lastIndexOf Util.newline (Util.js_slice text cursor next)) (-1)))
      as [Hsep|Hsep].
    + assert (Hnl : (-1 < Util.lastIndexOf Util.newline (Util.js_slice text cursor next))%Z)
        by lia.
      rewrite Z.max_l by lia.
      destruct (newline_found _ Hnl) as (Hr & Hx).
      set (sep := Util.lastIndexOf Util.newline (Util.js_slice text cursor next)) in *.
      assert (Htext : nth_error text (Z.to_nat (cursor + sep)) = Some 10%N).
      { rewrite Esnip, nth_error_slice in Hx by lia.
        rewrite <- Hx. f_equal. lia. }
      destruct (IH (cursor + sep + 1)%Z
                   (parts ++ [Util.js_slice text cursor (cursor + sep)]))
        as (pcs & E & Hs & Hok); [lia | lia |].
      exists ((Util.js_slice text cursor (cursor + sep), Util.newline) :: pcs).
      split; [rewrite E, <- app_assoc; reflexivity|]. split.
      * simpl flat_map. unfold Blocks.glue at 1. simpl fst. simpl snd.
        rewrite <- Hs, js_slice_inside by lia.
        rewrite (skipn_slice text (p := Z.to_nat cursor) (q := Z.to_nat (cursor + sep)))
          by lia.
        rewrite <- app_assoc. f_equal. unfold Util.newline. simpl.
        replace (Z.to_nat (cursor + sep + 1)) with (S (Z.to_nat (cursor + sep))) by lia.
        now apply skipn_cons_nth.
      * constructor; [now right | exact Hok].
    + destruct (IH next (parts ++ [Util.js_slice text cursor next]))
        as (pcs & E & Hs & Hok); [lia | lia |].
      exists ((Util.js_slice text cursor next, []) :: pcs).
      split; [rewrite E, <- app_assoc; reflexivity|]. split.
      * simpl flat_map. unfold Blocks.glue at 1. simpl fst. simpl snd.
        rewrite app_nil_r, <- Hs, Esnip. apply skipn_slice. lia.
      * constructor; [now left | exact Hok].
Qed.

(** C8, as the code has it.  For a bound of at least one the splitter
    returns, and every block it returns is not blank after trimming.  When
    no window is cut at a period-space (the text is not longer than the
    bound, or it has a paragraph break, or no full stop of it is followed
    by a space), the text is the concatenation of parts, each followed by
    what was consumed after it: nothing or the double newline of a
    paragraph split when the loop over the windows does not run, nothing
    or the newline at which the window was cut when it runs.  The blocks
    returned are those parts that are not blank after trimming, in order:
    besides the separators, a part of white space only is dropped. *)
Theorem splitIntoSubblocks_rebuilds (text : jsstring) (maxLen : Z) (fuel : nat) :
  (1 <= maxLen)%Z -> List.length text <= fuel ->
  exists blocks,
    Util.splitIntoSubblocks fuel text maxLen = Some blocks
    /\ Forall (fun b => List.length (trim Util.plain b) <> 0) blocks
    /\ ((Util.len text <= maxLen)%Z
        \/ List.length (Util.paragraphs text) <> 1
        \/ Cuts.no_period_space text ->
        exists pcs,
          blocks = filter (fun p => negb (Util.blank p)) (map fst pcs)
          /\ text = flat_map Blocks.glue pcs
          /\ (Cuts.windowed text maxLen ->
              Forall (fun pc => snd pc = [] \/ snd pc = Util.newline) pcs)
          /\ (~ Cuts.windowed text maxLen ->
              Forall (fun pc => snd pc = [] \/ snd pc = Blocks.double_newline) pcs)).
Proof.
  intros Hmax Hfuel.
  assert (Hnonblank : forall parts : list jsstring,
             Forall (fun b => List.length (trim Util.plain b) <> 0)
                    (filter (fun p => negb (Util.blank p)) parts)).
  { intros parts. apply Forall_forall. intros b Hb.
    apply filter_In in Hb. destruct Hb as [_ Hb].
    unfold Util.blank in Hb. apply negb_true_iff in Hb. now apply Nat.eqb_neq in Hb. }
  unfold Util.splitIntoSubblocks, Util.split_parts, Cuts.windowed. cbv zeta.
  destruct (Nat.eqb_spec (List.length (Util.paragraphs text)) 1) as [Hone|Hmany];
    [destruct (Z.ltb_spec maxLen (Util.len text)) as [Hlong|Hshort]|]; cbn [andb].
  - (* the loop over the windows *)
    destruct (@chunk_spec text maxLen Hmax fuel 0%Z [])
      as (pcs0 & E0 & _); [unfold Util.len; lia | unfold Util.len; lia |].
    rewrite E0. cbn [option_map app]. eexists. split; [reflexivity|].
    split; [apply Hnonblank|].
    intros [H|[H|Hno]]; [lia | contradiction |].
    destruct (@chunk_newline_cuts text maxLen Hmax Hno fuel 0%Z [])
      as (pcs & E & Hs & Hok); [unfold Util.len; lia | unfold Util.len; lia |].
    exists pcs. rewrite E in E0. inversion E0 as [E1]. cbn [app] in E1.
    split; [now rewrite E1|]. split; [exact Hs|]. split; [intros _; exact Hok|].
    intros Hn. exfalso. apply Hn. split; [exact Hone | exact Hlong].
  - destruct (paragraphs_spec text) as (pcs & E & Hs & Hok).
    cbn [option_map]. eexists. split; [reflexivity|]. split; [apply Hnonblank|].
    intros _. exists pcs. split; [now rewrite E|]. split; [exact Hs|].
    split; [intros [_ Hl]; lia | intros _; exact Hok].
  - destruct (paragraphs_spec text) as (pcs & E & Hs & Hok).
    cbn [option_map]. eexists. split; [reflexivity|]. split; [apply Hnonblank|].
    intros _. exists pcs. split; [now rewrite E|]. split; [exact Hs|].
    split; [intros [Hl _]; contradiction | intros _; exact Hok].
Qed.

Lemma splitIntoSubblocks_rebuilds_witness :
  exists blocks,
    Util.splitIntoSubblocks 8 ([97; 98; 10; 32; 32; 10; 99; 100]%N) 3 = Some blocks
    /\ Forall (fun b => List.length (trim Util.plain b) <> 0) blocks
    /\ exists pcs,
         blocks = filter (fun p => negb (Util.blank p)) (map fst pcs)
         /\ [97; 98; 10; 32; 32; 10; 99; 100]%N = flat_map Blocks.glue pcs
         /\ Forall (fun pc => snd pc = [] \/ snd pc = Util.newline) pcs.
Proof.
  destruct (@splitIntoSubblocks_rebuilds [97; 98; 10; 32; 32; 10; 99; 100]%N 3 8)
    as (blocks & E & Hb & H); [lia | vm_compute; lia |].
  exists blocks. split; [exact E|]. split; [exact Hb|].
  destruct H as (pcs & Hf & Ht & Hw & _).
  - right. right. intros i Hi. vm_compute in Hi.
    do 8 (destruct i as [|i]; [discriminate Hi|]). destruct i; discriminate Hi.
  - exists pcs. split; [exact Hf|]. split; [exact Ht|].
    apply Hw. split; [reflexivity | vm_compute; reflexivity].
Defined.

(** C8, as stated, fails: a part of white space only is dropped by the
    final filter.  The text of two spaces, a paragraph break and [Abc] gives
    the one block [Abc], and the two spaces are no separator. *)
Lemma splitIntoSubblocks_drops_blank_part :
  ~ (forall (text : jsstring) (maxLen : Z) (fuel : nat) (blocks : list jsstring),
        Util.splitIntoSubblocks fuel text maxLen = Some blocks ->
        Forall (fun b => Util.blank b = false) blocks
        /\ Blocks.reconstructs blocks text).
Proof.
  intros H.
  destruct (H ([32; 32; 10; 10] ++ str "Abc")%N 1000%Z 0%nat [str "Abc"])
    as [_ (gaps & Hsep & Hlen & Htext)]; [vm_compute; reflexivity|].
  destruct gaps as [|g0 [|g1 [|g2 gaps]]]; simpl in Hlen; try discriminate.
  inversion Hsep as [|? ? H0 _]; subst.
  simpl in Htext. destruct H0 as [|c g Hc _]; simpl in Htext.
  - vm_compute in Htext. discriminate.
  - destruct Hc as [-> | [-> | ->]]; vm_compute in Htext; discriminate.
Qed.

(** The window cut at a period-space: the cursor moves one character
    past the cut, so the full stop is dropped and the space opens the next
    block. *)
Lemma window_cut_at_period_space :
  Util.splitIntoSubblocks 6 (str "ab. cd") 5 = Some [str "ab"; str " cd"].
Proof. vm_compute. reflexivity. Qed.

(** ** Relations kept by the computations *)

Section Keeps.
Variable R : world -> world -> Prop.
Hypothesis R_refl : forall w, R w w.
Hypothesis R_trans : forall a b c, R a b -> R b c -> R a c.

Lemma kept_ret {T} (v : T) (w : world) : kept R (ret v) w.
Proof. apply R_refl. Qed.

Lemma kept_throw {T} (w : world) : kept R (@throw T) w.
Proof. apply R_refl. Qed.

Lemma kept_pending {T} (w : world) : kept R (@pending T) w.
Proof. apply R_refl. Qed.

Lemma kept_modify (f : world -> world) (w : world) : R w (f w) -> kept R (modify f) w.
Proof. intros H. exact H. Qed.

Lemma kept_bind {T U} (c : M T) (k : T -> M U) (w : world) :
  kept R c w ->
  (forall v w', c w = (Val v, w') -> kept R (k v) w') ->
  kept R (bind c k) w.
Proof.
  unfold kept, bind. intros Hc Hk.
  destruct (c w) as [[v| |] w'] eqn:E; simpl in *; [|assumption|assumption].
  eapply R_trans; [exact Hc | now apply Hk].
Qed.

Lemma kept_try_catch {T} (body handler : M T) (w : world) :
  kept R body w ->
  (forall w', body w = (Throw, w') -> kept R handler w') ->
  kept R (try_catch body handler) w.
Proof.
  unfold kept, try_catch. intros Hb Hh.
  destruct (body w) as [[v| |] w'] eqn:E; simpl in *; [assumption| |assumption].
  eapply R_trans; [exact Hb | now apply Hh].
Qed.

Lemma kept_resp_json (resp : Z * option json) (w : world) : kept R (resp_json resp) w.
Proof. unfold resp_json. destruct (snd resp); [apply kept_ret | apply kept_throw]. Qed.

Lemma kept_prop (j : json) (k : string) (w : world) : kept R (prop j k) w.
Proof. destruct j; simpl; try apply kept_ret; apply kept_throw. Qed.

Lemma kept_prop_of (v : jsval) (k : string) (w : world) : kept R (prop_of v k) w.
Proof. destruct v; simpl; [apply kept_prop | apply kept_throw]. Qed.
End Keeps.

Lemma dom_step_refl (w : world) : dom_step w w.
Proof. unfold dom_step. repeat split. Qed.

Lemma dom_step_trans (a b c : world) : dom_step a b -> dom_step b c -> dom_step a c.
Proof. unfold dom_step. intuition congruence. Qed.

Lemma extends_refl (w : world) : extends w w.
Proof.
  unfold extends. split; [exists []; now rewrite app_nil_r|]. split; [reflexivity|].
  exists []. now rewrite app_nil_r.
Qed.

Lemma extends_trans (a b c : world) : extends a b -> extends b c -> extends a c.
Proof.
  intros ((m1 & H1) & A1 & (s1 & Q1 & F1)) ((m2 & H2) & A2 & (s2 & Q2 & F2)).
  split; [exists (m1 ++ m2); now rewrite H2, H1, app_assoc|].
  split; [congruence|].
  exists (s1 ++ s2). split; [now rewrite Q2, Q1, app_assoc|].
  apply Forall_app. split; [exact F1|]. now rewrite <- A1.
Qed.

(** A step that touches neither the messages, nor [asked_info], nor the
    requests. *)
Lemma extends_same (w w' : world) :
  chatMessages (st w') = chatMessages (st w) ->
  asked_info (st w') = asked_info (st w) ->
  requests w' = requests w ->
  extends w w'.
Proof.
  intros Hm Ha Hr. split; [exists []; now rewrite app_nil_r|]. split; [exact Ha|].
  exists []. now rewrite app_nil_r.
Qed.

Lemma extends_push (m : message) (w : world) : extends w (with_st (push m) w).
Proof.
  split; [now exists [m]|]. split; [reflexivity|]. exists []. simpl. now rewrite app_nil_r.
Qed.

Lemma dom_step_extends (w w' : world) : dom_step w w' -> extends w w'.
Proof. unfold dom_step. intros H. apply extends_same; intuition. Qed.

(** ** The renderer *)

Lemma bot_blocks_total (s : jsstring) : exists bs, bot_blocks (Some (JStr s)) = Val bs.
Proof.
  unfold bot_blocks, Util.splitIntoSubblocks.
  destruct (@split_parts_spec s 500%Z (List.length s)) as (pcs & E & _); [lia | lia |].
  rewrite E. simpl. eauto.
Qed.

Lemma message_nodes_total (m : message) :
  drawable m = true -> exists ns, message_nodes m = Val ns.
Proof.
  unfold drawable, message_nodes. destruct (msg_sender m); [eauto|].
  destruct (msg_text m) as [[| | |s| |]|]; try discriminate. intros _.
  destruct (bot_blocks_total s) as (bs & ->). eauto.
Qed.

Lemma append_messages_run (msgs : list message) :
  forall w,
    exists o w',
      append_messages msgs w = (o, w')
      /\ page_only w w'
      /\ (forallb drawable msgs = true -> o = Val tt).
Proof.
  induction msgs as [|m msgs IH]; intros w; simpl.
  - exists (Val tt), w. unfold page_only. repeat split.
  - destruct (message_nodes m) as [ns| |] eqn:E.
    + unfold bind, change_page, modify.
      destruct (IH (with_page (fun d => set_nodes (nodes d ++ ns) d) w))
        as (o & w' & E' & Hp & Hok).
      rewrite E'. exists o, w'.
      split; [destruct o; reflexivity|]. split; [exact Hp|].
      intros H. apply andb_prop in H. now apply Hok.
    + exists Throw, w. unfold page_only. repeat split.
      intros H. apply andb_prop in H. destruct H as [H _].
      destruct (message_nodes_total _ H). congruence.
    + exists Pending, w. unfold page_only. repeat split.
      intros H. apply andb_prop in H. destruct H as [H _].
      destruct (message_nodes_total _ H). congruence.
Qed.

Lemma renderMessages_draws : draws renderMessages None.
Proof.
  intros w. unfold renderMessages.
  unfold bind at 1. unfold change_page at 1, modify at 1.
  unfold bind at 1. unfold change_page at 1, modify at 1.
  unfold bind at 1. unfold get_state at 1. cbn [st with_page].
  unfold bind at 1.
  destruct (append_messages_run (chatMessages (st w))
              (with_page (set_nodes []) (with_page (set_widget_shown true) w)))
    as (o & w2 & E & (Hst & Hnet & Hreq & Htm & Hclk & Hb & Hf & Hin) & Hok).
  rewrite E. simpl in Hst, Hnet, Hreq, Htm, Hclk, Hb, Hf, Hin.
  destruct o as [[]| |].
  - unfold bind, get_world, update, change_page, modify, save_session, ret, get_state.
    destruct (botIsTyping (st w)) eqn:Et; destruct (no_waitStart (st w));
      destruct (truthy (final_message (st w)));
      cbn [fst snd]; eexists; eexists; (split; [reflexivity|]);
        (split; [unfold dom_step; cbn; rewrite ?Hst, ?Hnet, ?Hreq, ?Hb, ?Hf, ?Hin; repeat split|]);
        (split; [cbn; rewrite ?Hst; auto | eauto]).
  - exists Throw, w2. split; [reflexivity|].
    split; [unfold dom_step; rewrite ?Hst, ?Hnet, ?Hreq, ?Hb, ?Hf, ?Hin; repeat split|].
    split; [now rewrite Hst|].
    intros H. specialize (Hok H). discriminate.
  - exists Pending, w2. split; [reflexivity|].
    split; [unfold dom_step; rewrite ?Hst, ?Hnet, ?Hreq, ?Hb, ?Hf, ?Hin; repeat split|].
    split; [now rewrite Hst|].
    intros H. specialize (Hok H). discriminate.
Qed.

Lemma renderable_step (w w' : world) : dom_step w w' -> renderable w -> renderable w'.
Proof. unfold dom_step, renderable. intros H. now replace (chatMessages (st w')) with (chatMessages (st w)) by (symmetry; apply H). Qed.

Lemma startTypingIndicator_draws : draws startTypingIndicator (Some true).
Proof.
  intros w. unfold startTypingIndicator.
  unfold bind at 1. unfold update at 1, modify at 1.
  unfold bind at 1. unfold update at 1, modify at 1.
  unfold bind at 1.
  destruct (renderMessages_draws (with_st (set_waitStart None) (with_st (set_botIsTyping true) w)))
    as (o & w1 & E & Hd & Ht & Hok).
  rewrite E. unfold dom_step in Hd. cbn in Hd, Ht.
  destruct o as [[]| |].
  - unfold bind, setTimeout, update, modify. cbn.
    eexists; eexists; split; [reflexivity|].
    split; [unfold dom_step; cbn; intuition|]. split; [cbn; exact Ht | eauto].
  - exists Throw, w1. split; [reflexivity|]. split; [unfold dom_step; intuition|].
    split; [exact Ht|]. intros H. apply Hok. exact H.
  - exists Pending, w1. split; [reflexivity|]. split; [unfold dom_step; intuition|].
    split; [exact Ht|]. intros H. apply Hok. exact H.
Qed.

Lemma clearTimeout_run (h : option Z) (w : world) :
  exists w', clearTimeout h w = (Val tt, w') /\ st w' = st w /\ dom_step w w'.
Proof.
  destruct h as [t|]; simpl; eexists; (split; [reflexivity|]);
    (split; [reflexivity | apply dom_step_refl || (unfold dom_step; cbn; repeat split)]).
Qed.

Lemma stopTypingIndicator_draws : draws stopTypingIndicator (Some false).
Proof.
  intros w. unfold stopTypingIndicator.
  unfold bind at 1. unfold update at 1, modify at 1.
  unfold bind at 1. unfold get_state at 1.
  unfold bind at 1.
  destruct (clearTimeout_run (fallbackTimer (st (with_st (set_botIsTyping false) w)))
                             (with_st (set_botIsTyping false) w))
    as (w1 & E1 & Hst1 & Hd1).
  rewrite E1.
  unfold bind at 1. unfold update at 1, modify at 1.
  destruct (renderMessages_draws (with_st (set_waitStart None) w1))
    as (o & w2 & E & Hd & Ht & Hok).
  rewrite E. unfold dom_step in Hd, Hd1. cbn in Hd, Ht, Hd1, Hst1. rewrite Hst1 in Ht.
  cbn in Ht.
  exists o, w2. split; [reflexivity|].
  split; [unfold dom_step; intuition congruence|]. split; [exact Ht|].
  intros H. apply Hok. unfold renderable in *. cbn. now rewrite Hst1.
Qed.

(** ** The transport client *)

Arguments renderMessages : simpl never.
Arguments startTypingIndicator : simpl never.
Arguments stopTypingIndicator : simpl never.

Ltac run :=
  cbn [bind ret throw pending update modify change_page get_state get_world
       save_session try_catch fst snd resp_json prop prop_of].

Lemma bind_val {T U} (c : M T) (k : T -> M U) (w w' : world) (v : T) :
  c w = (Val v, w') -> bind c k w = k v w'.
Proof. intros E. unfold bind. now rewrite E. Qed.

Lemma bind_throw {T U} (c : M T) (k : T -> M U) (w w' : world) :
  c w = (Throw, w') -> bind c k w = (Throw, w').
Proof. intros E. unfold bind. now rewrite E. Qed.

Lemma bind_assoc {T U V} (c : M T) (k : T -> M U) (k' : U -> M V) (w : world) :
  bind (bind c k) k' w = bind c (fun v => bind (k v) k') w.
Proof. unfold bind. destruct (c w) as [[v| |] w']; reflexivity. Qed.

Lemma try_val {T} (body handler : M T) (w w' : world) (v : T) :
  body w = (Val v, w') -> try_catch body handler w = (Val v, w').
Proof. intros E. unfold try_catch. now rewrite E. Qed.

Lemma try_throw {T} (body handler : M T) (w w' : world) :
  body w = (Throw, w') -> try_catch body handler w = handler w'.
Proof. intros E. unfold try_catch. now rewrite E. Qed.

Lemma drawable_push (m : message) (w : world) :
  drawable m = true -> renderable w -> renderable (with_st (push m) w).
Proof.
  unfold renderable. cbn. intros Hm Hw. rewrite forallb_app, Hw. simpl. now rewrite Hm.
Qed.

(** The [catch] block of [sendChatMessage]. *)
Lemma send_catch_run (w : world) :
  renderable w ->
  exists w',
    (update (push send_apology) ;; stopTypingIndicator ;; renderMessages ;; ret false) w
    = (Val false, w')
    /\ dom_step (with_st (push send_apology) w) w'
    /\ botIsTyping (st w') = false.
Proof.
  intros Hr. run.
  assert (Hr1 : renderable (with_st (push send_apology) w)) by now apply drawable_push.
  destruct (stopTypingIndicator_draws (with_st (push send_apology) w))
    as (o1 & w1 & E1 & Hd1 & Ht1 & Hok1).
  destruct (Hok1 Hr1) as ([] & ->). erewrite bind_val by exact E1.
  assert (Hr2 : renderable w1) by now apply (renderable_step Hd1).
  destruct (renderMessages_draws w1) as (o2 & w2 & E2 & Hd2 & Ht2 & Hok2).
  destruct (Hok2 Hr2) as ([] & ->). erewrite bind_val by exact E2. run.
  exists w2. split; [reflexivity|]. split; [now apply (dom_step_trans Hd1)|]. congruence.
Qed.

Lemma sendChatMessage_fails (userEntry : jsstring) (w : world) t r rest :
  net w = (t, r) :: rest -> send_fails r = true -> renderable w ->
  exists w',
    sendChatMessage userEntry w = (Val false, w')
    /\ chatMessages (st w') = chatMessages (st w) ++ [send_apology]
    /\ net w' = rest
    /\ requests w' = requests w ++ [send_request w userEntry]
    /\ chat_id (st w') = chat_id (st w)
    /\ asked_info (st w') = asked_info (st w)
    /\ data_var (st w') = data_var (st w)
    /\ final_message (st w') = final_message (st w)
    /\ BACKEND_URL w' = BACKEND_URL w
    /\ input_value (page w') = input_value (page w)
    /\ botIsTyping (st w') = false.
Proof.
  intros Hnet Hfail Hr.
  set (w2 := with_net t rest (with_request (send_request w userEntry) w)).
  unfold sendChatMessage.
  match goal with
  | |- context [try_catch ?b ?h] => assert (Hbody : b w = (Throw, w2))
  end.
  { run. unfold bind at 1. unfold fetch. cbn [net with_request]. rewrite Hnet.
    fold (send_request w userEntry). fold w2.
    destruct r as [|status [j|]]; [reflexivity| |reflexivity].
    simpl in Hfail. apply negb_true_iff in Hfail.
    destruct j as [| | | | |fields]; try discriminate; try reflexivity.
    simpl in Hfail. run.
    destruct (lookup (str "meta") fields) as [[]|]; try discriminate; reflexivity. }
  erewrite try_throw by exact Hbody.
  destruct (@send_catch_run w2) as (w' & E & Hd & Ht); [exact Hr|].
  exists w'. split; [exact E|]. unfold dom_step in Hd. cbn in Hd.
  intuition congruence.
Qed.

Lemma read_meta (fields : list (jsstring * json)) :
  has_meta (JObj fields) = true ->
  exists fm,
    forall w : world, prop_of (lookup (str "meta") fields) "final_message" w = (Val fm, w).
Proof.
  unfold has_meta. intros H.
  destruct (lookup (str "meta") fields) as [[| | | | |mf]|] eqn:E; try discriminate;
    eexists; intros w; reflexivity.
Qed.

Lemma sendChatMessage_delivers (userEntry : jsstring) (w : world) t r rest m id data :
  net w = (t, r) :: rest -> delivered r = Some (m, id, data) -> renderable w ->
  exists w',
    sendChatMessage userEntry w = (Val true, w')
    /\ chatMessages (st w') = chatMessages (st w) ++ [bot_msg (Some (JStr m))]
    /\ net w' = rest
    /\ requests w' = requests w ++ [send_request w userEntry]
    /\ chat_id (st w') = id
    /\ asked_info (st w') = asked_info (st w)
    /\ data_var (st w') = data
    /\ BACKEND_URL w' = BACKEND_URL w
    /\ input_value (page w') = input_value (page w)
    /\ botIsTyping (st w') = false.
Proof.
  intros Hnet Hdel Hr.
  destruct r as [|status [[| | | | |fields]|]]; try discriminate.
  unfold delivered in Hdel.
  destruct (has_meta (JObj fields)) eqn:Hmeta; [|discriminate].
  destruct (lookup (str "message") fields) as [[| | |m'| |]|] eqn:Hmsg; try discriminate.
  inversion Hdel; subst m' id data; clear Hdel.
  destruct (@read_meta fields Hmeta) as (fm & Hfm).
  set (w2 := with_net t rest (with_request (send_request w userEntry) w)).
  set (w3 := with_st (set_final_message (if truthy fm then fm else Some (JBool false))) w2).
  destruct (stopTypingIndicator_draws w3) as (o4 & w4 & E4 & Hd4 & Ht4 & Hok4).
  destruct (Hok4 Hr) as ([] & ->).
  set (w5 := with_st (push (bot_msg (Some (JStr m)))) w4).
  assert (Hr5 : renderable w5).
  { apply drawable_push; [reflexivity|]. now apply (renderable_step Hd4). }
  destruct (renderMessages_draws w5) as (o6 & w6 & E6 & Hd6 & Ht6 & Hok6).
  destruct (Hok6 Hr5) as ([] & ->).
  unfold sendChatMessage.
  eexists. split.
  - apply try_val. run. unfold bind at 1. unfold fetch. cbn [net with_request]. rewrite Hnet.
    fold (send_request w userEntry). fold w2. run.
    erewrite bind_val by apply Hfm. run. fold w3. erewrite bind_val by exact E4. run. rewrite Hmsg. run. fold w5.
    erewrite bind_val by exact E6. run. reflexivity.
  - unfold dom_step in Hd4, Hd6. cbn in Hd4, Hd6, Ht6. cbn.
    intuition congruence.
Qed.

(** The [catch] block of [startChat]. *)
Lemma start_catch_run (w : world) :
  renderable w ->
  exists w',
    (update (push start_apology) ;; update (set_botIsTyping true) ;; renderMessages ;; ret false) w
    = (Val false, w')
    /\ dom_step (with_st (push start_apology) w) w'
    /\ botIsTyping (st w') = true.
Proof.
  intros Hr. run.
  set (w1 := with_st (set_botIsTyping true) (with_st (push start_apology) w)).
  assert (Hr1 : renderable w1) by (apply (@drawable_push start_apology w); [reflexivity | exact Hr]).
  destruct (renderMessages_draws w1) as (o2 & w2 & E2 & Hd2 & Ht2 & Hok2).
  destruct (Hok2 Hr1) as ([] & ->). erewrite bind_val by exact E2. run.
  exists w2. split; [reflexivity|]. unfold dom_step in *. cbn in Hd2, Ht2. cbn.
  intuition congruence.
Qed.

Lemma startChat_fails (w : world) t r rest :
  net w = (t, r) :: rest -> transport_failure r = true -> renderable w ->
  exists w',
    startChat w = (Val false, w')
    /\ chatMessages (st w') = chatMessages (st w) ++ [start_apology]
    /\ net w' = rest
    /\ requests w' = requests w ++ [start_request w]
    /\ chat_id (st w') = chat_id (st w)
    /\ asked_info (st w') = asked_info (st w)
    /\ data_var (st w') = data_var (st w)
    /\ chatStarted (st w') = chatStarted (st w)
    /\ botIsTyping (st w') = true.
Proof.
  intros Hnet Hfail Hr.
  set (w2 := with_net t rest (with_request (start_request w) w)).
  unfold startChat.
  match goal with
  | |- context [try_catch ?b ?h] => assert (Hbody : b w = (Throw, w2))
  end.
  { run. unfold bind at 1. unfold fetch. cbn [net with_request]. rewrite Hnet.
    fold (start_request w). fold w2.
    destruct r as [|status [j|]]; [reflexivity|discriminate|reflexivity]. }
  erewrite try_throw by exact Hbody.
  destruct (@start_catch_run w2) as (w' & E & Hd & Ht); [exact Hr|].
  exists w'. split; [exact E|]. unfold dom_step in Hd. cbn in Hd.
  intuition congruence.
Qed.

(** C2, as the code has it.  When the [fetch] is rejected or the body of
    the response is not JSON, [startChat] and [sendChatMessage] return
    [false] and append their connectivity apology, and adopt nothing.  The
    status of a response is not looked at: two responses with the same body
    and different statuses are treated alike. *)
Theorem transport_failure_handled (w : world) (userEntry : jsstring) t r rest :
  net w = (t, r) :: rest -> transport_failure r = true -> renderable w ->
  (exists w',
      startChat w = (Val false, w')
      /\ chatMessages (st w') = chatMessages (st w) ++ [start_apology]
      /\ chat_id (st w') = chat_id (st w)
      /\ data_var (st w') = data_var (st w)
      /\ chatStarted (st w') = chatStarted (st w))
  /\ (exists w',
         sendChatMessage userEntry w = (Val false, w')
         /\ chatMessages (st w') = chatMessages (st w) ++ [send_apology]
         /\ chat_id (st w') = chat_id (st w)
         /\ data_var (st w') = data_var (st w)
         /\ final_message (st w') = final_message (st w))
  /\ (forall status status' body,
         startChat (with_answers ((t, Response status body) :: rest) w)
         = startChat (with_answers ((t, Response status' body) :: rest) w)
         /\ sendChatMessage userEntry (with_answers ((t, Response status body) :: rest) w)
            = sendChatMessage userEntry (with_answers ((t, Response status' body) :: rest) w)).
Proof.
  intros Hnet Hfail Hr. split; [|split].
  - destruct (startChat_fails Hnet Hfail Hr) as (w' & E & H). exists w'. intuition.
  - assert (Hs : send_fails r = true) by (destruct r as [|? [|]]; [reflexivity|discriminate|reflexivity]).
    destruct (sendChatMessage_fails userEntry Hnet Hs Hr) as (w' & E & H). exists w'. intuition.
  - intros status status' body. split; reflexivity.
Qed.

Lemma transport_failure_handled_witness :
  exists w',
    startChat (Scenario.fresh_world [(1%Z, NetworkError)]) = (Val false, w')
    /\ chatMessages (st w') = [start_apology].
Proof.
  destruct (@transport_failure_handled (Scenario.fresh_world [(1%Z, NetworkError)])
              (str "Hallo") 1%Z NetworkError [] eq_refl eq_refl eq_refl)
    as [(w' & E & Hm & _) _].
  exists w'. split; [exact E | exact Hm].
Defined.

(** C2, as stated, fails: a response with status 500 and a JSON body is
    not treated as a failure; [startChat] returns [true] on it. *)
Lemma non_2xx_response_accepted :
  ~ (forall (w : world) t status body rest,
        net w = (t, Response status body) :: rest ->
        is_2xx status = false ->
        renderable w ->
        exists w', startChat w = (Val false, w')).
Proof.
  intros H.
  destruct (H (Scenario.fresh_world [(1%Z, Response 500 (Some Scenario.new_chat_body))])
              1%Z 500%Z _ [] eq_refl eq_refl eq_refl) as (w' & E).
  vm_compute in E. discriminate.
Qed.

(** On that response [startChat] adopts the fields of the body. *)
Lemma non_2xx_response_adopted :
  let w := Scenario.fresh_world [(1%Z, Response 500 (Some Scenario.new_chat_body))] in
  fst (startChat w) = Val true
  /\ chat_id (st (snd (startChat w))) = Some (Scenario.jstr "c1")
  /\ chatStarted (st (snd (startChat w))) = true.
Proof. vm_compute. repeat split; reflexivity. Qed.

(** ** The submit handler *)

Arguments sendChatMessage : simpl never.
Arguments startChat : simpl never.

(** The handler up to the test of [chat_id]: the user message is appended
    and drawn, the typing indicator is started, the input is emptied. *)
Lemma submit_prelude (w : world) (userEntry : jsstring) T (k : state -> M T) :
  renderable w ->
  exists w1,
    (update (push (user_msg userEntry)) ;; renderMessages ;; startTypingIndicator ;;
     change_page (set_input_value []) ;; s <- get_state ;; k s) w
    = k (st w1) w1
    /\ renderable w1
    /\ chatMessages (st w1) = chatMessages (st w) ++ [user_msg userEntry]
    /\ chat_id (st w1) = chat_id (st w)
    /\ asked_info (st w1) = asked_info (st w)
    /\ data_var (st w1) = data_var (st w)
    /\ net w1 = net w
    /\ requests w1 = requests w
    /\ BACKEND_URL w1 = BACKEND_URL w.
Proof.
  intros Hr. run.
  set (w0 := with_st (push (user_msg userEntry)) w).
  assert (Hr0 : renderable w0) by (apply drawable_push; [reflexivity | exact Hr]).
  destruct (renderMessages_draws w0) as (o1 & w1 & E1 & Hd1 & Ht1 & Hok1).
  destruct (Hok1 Hr0) as ([] & ->). erewrite bind_val by exact E1.
  assert (Hr1 : renderable w1) by now apply (renderable_step Hd1).
  destruct (startTypingIndicator_draws w1) as (o2 & w2 & E2 & Hd2 & Ht2 & Hok2).
  destruct (Hok2 Hr1) as ([] & ->). erewrite bind_val by exact E2. run.
  exists (with_page (set_input_value []) w2). split; [reflexivity|].
  pose proof (dom_step_trans Hd1 Hd2) as Hd. unfold dom_step in Hd. cbn in Hd.
  split; [unfold renderable in *; cbn; now replace (chatMessages (st w2)) with (chatMessages (st w0)) by (symmetry; apply Hd)|].
  cbn. intuition congruence.
Qed.

Lemma send_request_same (w w1 : world) (u : jsstring) :
  chat_id (st w1) = chat_id (st w) ->
  asked_info (st w1) = asked_info (st w) ->
  data_var (st w1) = data_var (st w) ->
  BACKEND_URL w1 = BACKEND_URL w ->
  send_request w1 u = send_request w u.
Proof.
  intros H1 H2 H3 H4. unfold send_request, send_body. now rewrite H1, H2, H3, H4.
Qed.

(** Two failed attempts, one after the other. *)
Lemma two_attempts_fail (w : world) (u : jsstring) t1 r1 t2 r2 rest :
  renderable w ->
  net w = (t1, r1) :: (t2, r2) :: rest ->
  send_fails r1 = true -> send_fails r2 = true ->
  exists w1 w2,
    sendChatMessage u w = (Val false, w1)
    /\ sendChatMessage u w1 = (Val false, w2)
    /\ renderable w2
    /\ chatMessages (st w2) = chatMessages (st w) ++ [send_apology; send_apology]
    /\ net w2 = rest
    /\ requests w2 = requests w ++ [send_request w u; send_request w u]
    /\ send_request w2 u = send_request w u.
Proof.
  intros Hr Hnet H1 H2.
  destruct (sendChatMessage_fails u Hnet H1 Hr)
    as (w1 & E1 & Hm1 & Hn1 & Hq1 & Hc1 & Ha1 & Hd1 & _ & Hb1 & _).
  assert (Hr1 : renderable w1).
  { unfold renderable in *. rewrite Hm1, forallb_app, Hr. reflexivity. }
  destruct (sendChatMessage_fails u Hn1 H2 Hr1)
    as (w2 & E2 & Hm2 & Hn2 & Hq2 & Hc2 & Ha2 & Hd2 & _ & Hb2 & _).
  assert (Hs1 : send_request w1 u = send_request w u) by now apply send_request_same.
  exists w1, w2. split; [exact E1|]. split; [exact E2|]. split; [|split; [|split; [|split]]].
  - unfold renderable in *. rewrite Hm2, forallb_app, Hr1. reflexivity.
  - rewrite Hm2, Hm1, <- app_assoc. reflexivity.
  - exact Hn2.
  - rewrite Hq2, Hq1, Hs1, <- app_assoc. reflexivity.
  - rewrite <- Hs1. apply send_request_same; congruence.
Qed.

Lemma submit_third_delivers (w : world) t1 r1 t2 r2 t3 r3 rest m id data :
  renderable w ->
  List.length (trim Util.plain (input_value (page w))) <> 0 ->
  truthy (chat_id (st w)) = true ->
  net w = (t1, r1) :: (t2, r2) :: (t3, r3) :: rest ->
  send_fails r1 = true -> send_fails r2 = true -> delivered r3 = Some (m, id, data) ->
  let u := trim Util.plain (input_value (page w)) in
  exists w',
    on_submit w = (Val Delivered, w')
    /\ requests w' = requests w ++ [send_request w u; send_request w u; send_request w u]
    /\ chatMessages (st w')
       = chatMessages (st w)
         ++ [user_msg u; send_apology; send_apology; bot_msg (Some (JStr m))].
Proof.
  intros Hr Hne Hid Hnet H1 H2 H3 u. unfold on_submit. run. fold u.
  destruct (Nat.eqb_spec (List.length u) 0) as [|_]; [contradiction|].
  match goal with
  | |- context [bind get_state ?k] =>
    destruct (@submit_prelude w u _ k Hr) as (w0 & E & Hr0 & Hm0 & Hc0 & Ha0 & Hd0 & Hn0 & Hq0 & Hb0)
  end.
  rewrite E. rewrite Hc0, Hid. cbn [negb]. rewrite Hnet in Hn0.
  destruct (two_attempts_fail u Hr0 Hn0 H1 H2)
    as (w1 & w2 & E1 & E2 & Hr2 & Hm2 & Hn2 & Hq2 & Hs2).
  destruct (sendChatMessage_delivers u Hn2 H3 Hr2) as (w3 & E3 & Hm3 & _ & Hq3 & _).
  erewrite bind_val by exact E1. cbn [negb].
  rewrite bind_assoc. erewrite bind_val by exact E2. cbn [negb].
  rewrite bind_assoc. erewrite bind_val by exact E3. run.
  assert (Hs0 : send_request w0 u = send_request w u) by now apply send_request_same.
  eexists. split; [reflexivity|]. cbn. split.
  - rewrite Hq3, Hq2, Hs2, Hs0, Hq0, <- app_assoc. reflexivity.
  - rewrite Hm3, Hm2, Hm0, <- !app_assoc. reflexivity.
Qed.

Lemma three_failures_give_up (w : world) t1 r1 t2 r2 t3 r3 rest :
  renderable w ->
  List.length (trim Util.plain (input_value (page w))) <> 0 ->
  truthy (chat_id (st w)) = true ->
  net w = (t1, r1) :: (t2, r2) :: (t3, r3) :: rest ->
  send_fails r1 = true -> send_fails r2 = true -> send_fails r3 = true ->
  let u := trim Util.plain (input_value (page w)) in
  exists w',
    on_submit w = (Val GaveUp, w')
    /\ requests w' = requests w ++ [send_request w u; send_request w u; send_request w u]
    /\ chatMessages (st w')
       = chatMessages (st w)
         ++ [user_msg u; send_apology; send_apology; send_apology; send_giveup].
Proof.
  intros Hr Hne Hid Hnet H1 H2 H3 u. unfold on_submit. run. fold u.
  destruct (Nat.eqb_spec (List.length u) 0) as [|_]; [contradiction|].
  match goal with
  | |- context [bind get_state ?k] =>
    destruct (@submit_prelude w u _ k Hr) as (w0 & E & Hr0 & Hm0 & Hc0 & Ha0 & Hd0 & Hn0 & Hq0 & Hb0)
  end.
  rewrite E. rewrite Hc0, Hid. cbn [negb]. rewrite Hnet in Hn0.
  destruct (two_attempts_fail u Hr0 Hn0 H1 H2)
    as (w1 & w2 & E1 & E2 & Hr2 & Hm2 & Hn2 & Hq2 & Hs2).
  destruct (sendChatMessage_fails u Hn2 H3 Hr2) as (w3 & E3 & Hm3 & _ & Hq3 & _).
  erewrite bind_val by exact E1. cbn [negb].
  rewrite bind_assoc. erewrite bind_val by exact E2. cbn [negb].
  rewrite bind_assoc. erewrite bind_val by exact E3. cbn [negb].
  rewrite bind_assoc. run.
  assert (Hr3 : renderable (with_st (push send_giveup) w3)).
  { apply drawable_push; [reflexivity|].
    unfold renderable in *. rewrite Hm3, forallb_app, Hr2. reflexivity. }
  destruct (renderMessages_draws (with_st (push send_giveup) w3))
    as (o4 & w4 & E4 & Hd4 & _ & Hok4).
  destruct (Hok4 Hr3) as ([] & ->).
  rewrite bind_assoc. erewrite bind_val by exact E4. run.
  assert (Hs0 : send_request w0 u = send_request w u) by now apply send_request_same.
  unfold dom_step in Hd4. cbn in Hd4.
  destruct Hd4 as (_ & _ & _ & _ & _ & _ & Hm4 & _ & Hq4 & _).
  eexists. split; [reflexivity|]. cbn. split.
  - rewrite Hq4, Hq3, Hq2, Hs2, Hs0, Hq0, <- app_assoc. reflexivity.
  - rewrite Hm4, Hm3, Hm2, Hm0, <- !app_assoc. reflexivity.
Qed.

(** C5, as the code has it.  With a connected session and a non-blank
    input, when the first two attempts of [sendChatMessage] fail and the
    third is answered, the flow ends in [Delivered] after exactly three
    requests; when all three fail, it ends in [GaveUp] after exactly three
    requests.  Every failed attempt appends its own connectivity apology,
    so the give-up apology comes after three of them: the handler itself
    appends exactly one. *)
Theorem submit_retries (w : world) t1 r1 t2 r2 t3 r3 rest :
  renderable w ->
  List.length (trim Util.plain (input_value (page w))) <> 0 ->
  truthy (chat_id (st w)) = true ->
  net w = (t1, r1) :: (t2, r2) :: (t3, r3) :: rest ->
  send_fails r1 = true -> send_fails r2 = true ->
  let u := trim Util.plain (input_value (page w)) in
  let attempt := send_request w u in
  (forall m id data,
      delivered r3 = Some (m, id, data) ->
      exists w',
        on_submit w = (Val Delivered, w')
        /\ requests w' = requests w ++ [attempt; attempt; attempt]
        /\ chatMessages (st w')
           = chatMessages (st w)
             ++ [user_msg u; send_apology; send_apology; bot_msg (Some (JStr m))])
  /\ (send_fails r3 = true ->
      exists w',
        on_submit w = (Val GaveUp, w')
        /\ requests w' = requests w ++ [attempt; attempt; attempt]
        /\ chatMessages (st w')
           = chatMessages (st w)
             ++ [user_msg u; send_apology; send_apology; send_apology; send_giveup]).
Proof.
  intros Hr Hne Hid Hnet H1 H2 u attempt. split.
  - intros m id data H3. exact (submit_third_delivers Hr Hne Hid Hnet H1 H2 H3).
  - intros H3. exact (three_failures_give_up Hr Hne Hid Hnet H1 H2 H3).
Qed.

Lemma submit_retries_witness :
  exists w',
    on_submit Scenario.unreachable = (Val GaveUp, w')
    /\ List.length (requests w') = 3
    /\ List.length (chatMessages (st w')) = 5.
Proof.
  destruct (@submit_retries Scenario.unreachable 1%Z NetworkError 2%Z NetworkError
                            3%Z NetworkError [])
    as [_ H]; try reflexivity; [vm_compute; discriminate|].
  destruct (H eq_refl) as (w' & E & Hq & Hm).
  exists w'. split; [exact E|]. split; [now rewrite Hq | now rewrite Hm].
Defined.

(** C5, as stated, fails: when the backend cannot be reached the flow
    gives up after three attempts, and the message list has received the
    user message and four bot messages, not the user message and one
    apology. *)
Lemma gave_up_with_four_bot_messages :
  ~ (forall (w : world) t1 t2 t3 rest,
        renderable w ->
        List.length (trim Util.plain (input_value (page w))) <> 0 ->
        truthy (chat_id (st w)) = true ->
        net w = (t1, NetworkError) :: (t2, NetworkError) :: (t3, NetworkError) :: rest ->
        exists w' apology,
          on_submit w = (Val GaveUp, w')
          /\ chatMessages (st w')
             = chatMessages (st w)
               ++ [user_msg (trim Util.plain (input_value (page w))); apology]).
Proof.
  intros H.
  assert (Hne : List.length (trim Util.plain (input_value (page Scenario.unreachable))) <> 0)
    by (vm_compute; discriminate).
  destruct (H Scenario.unreachable 1%Z 2%Z 3%Z [] eq_refl Hne eq_refl eq_refl)
    as (w' & apology & E & Hm).
  destruct (@three_failures_give_up Scenario.unreachable 1%Z NetworkError 2%Z NetworkError
                             3%Z NetworkError [] eq_refl Hne eq_refl eq_refl
                             eq_refl eq_refl eq_refl)
    as (w1 & E1 & _ & Hm1).
  rewrite E in E1. inversion E1; subst w1. rewrite Hm in Hm1.
  apply app_inv_head in Hm1. discriminate.
Qed.

(** ** The session store *)

Lemma json_induction (P : json -> Prop) :
  P JNull -> (forall b, P (JBool b)) -> (forall n, P (JNum n)) ->
  (forall t, P (JStr t)) ->
  (forall l, Forall P l -> P (JArr l)) ->
  (forall fields, Forall (fun kv => P (snd kv)) fields -> P (JObj fields)) ->
  forall j, P j.
Proof.
  intros HN HB Hn HS HA HO. fix IH 1. intros [| b | n | t | l | fields].
  - exact HN.
  - apply HB.
  - apply Hn.
  - apply HS.
  - apply HA. induction l as [|x l IHl]; constructor; [apply IH | exact IHl].
  - apply HO. induction fields as [|[k v] fields IHf]; constructor; [apply IH | exact IHf].
Qed.

(** What [JSON.stringify] writes as it is comes back as it was. *)
Lemma written_exact (j : json) : exact j = true -> written j = j.
Proof.
  induction j as [| b | n | t | l IHl | fields IHf] using json_induction; intros H;
    try reflexivity.
  - destruct n as [z| |b]; [reflexivity | discriminate H | discriminate H].
  - cbn [written exact] in *. f_equal.
    induction IHl as [|x l Hx _ IH]; [reflexivity|].
    cbn [forallb map] in *. apply andb_prop in H. destruct H as [H1 H2].
    rewrite (Hx H1), (IH H2). reflexivity.
  - cbn [written exact] in *. f_equal.
    induction IHf as [|[k v] fields Hv _ IH]; [reflexivity|].
    cbn [forallb map snd] in *. apply andb_prop in H. destruct H as [H1 H2].
    rewrite (Hv H1), (IH H2). reflexivity.
Qed.

(** What is read back is a value that is written as it is. *)
Lemma exact_written (j : json) : exact (written j) = true.
Proof.
  induction j as [| b | n | t | l IHl | fields IHf] using json_induction;
    try reflexivity.
  - destruct n as [z| |b]; reflexivity.
  - cbn [written exact]. induction IHl as [|x l Hx _ IH]; [reflexivity|].
    cbn [forallb map]. now rewrite Hx, IH.
  - cbn [written exact]. induction IHf as [|[k v] fields Hv _ IH]; [reflexivity|].
    cbn [forallb map snd] in *. now rewrite Hv, IH.
Qed.

Lemma written_twice (j : json) : written (written j) = written j.
Proof. apply written_exact, exact_written. Qed.

Lemma written_msg_exact (msg : message) :
  exact_val (msg_text msg) = true -> written_msg msg = msg.
Proof.
  destruct msg as [sd [j|]]; unfold written_msg; cbn; intros H; [|reflexivity].
  now rewrite (written_exact j H).
Qed.

Lemma written_msgs_exact (l : list message) :
  forallb (fun m => exact_val (msg_text m)) l = true -> map written_msg l = l.
Proof.
  induction l as [|x l IH]; cbn [forallb map]; intros H; [reflexivity|].
  apply andb_prop in H. destruct H as [H1 H2].
  now rewrite (written_msg_exact x H1), (IH H2).
Qed.

Lemma written_msgs_twice (l : list message) :
  map written_msg (map written_msg l) = map written_msg l.
Proof.
  rewrite map_map. apply map_ext. intros [sd [j|]]; unfold written_msg; cbn; [|reflexivity].
  now rewrite written_twice.
Qed.

(** The round trip through the storage, when every value of the session
    is written as it is. *)
Lemma assign_parsed_exact (s m : state) :
  exact_state s = true ->
  (chat_id s = undefined -> chat_id m = undefined) ->
  (asked_info s = undefined -> asked_info m = undefined) ->
  (data_var s = undefined -> data_var m = undefined) ->
  (final_message s = undefined -> final_message m = undefined) ->
  assign m (parsed (stringify s)) = s.
Proof.
  destruct s as [c a d cs pa fm ms bt ws ft].
  unfold exact_state, assign, parsed, stringify, undefined. cbn.
  intros H Hc Ha Hd Hf.
  apply andb_prop in H. destruct H as [H Hm].
  apply andb_prop in H. destruct H as [H Hfm].
  apply andb_prop in H. destruct H as [H Hdv].
  apply andb_prop in H. destruct H as [Hci Hai].
  rewrite (written_msgs_exact ms Hm).
  assert (K : forall (v cur : jsval),
             exact_val v = true -> (v = None -> cur = None) ->
             keep_val (option_map written v) cur = v).
  { intros [j|] cur He Hu; cbn; [now rewrite (written_exact j He) | now apply Hu]. }
  rewrite (K c _ Hci Hc), (K a _ Hai Ha), (K d _ Hdv Hd), (K fm _ Hfm Hf).
  reflexivity.
Qed.

(** C7, as the code has it.  [load] after [save], into whatever session
    [m] is in memory, field by field.  The flags, the wait start, the timer
    handle are read back as they were; every message comes back with its
    text as [JSON.stringify] writes it; each of [chat_id], [asked_info],
    [data_var] and [final_message], on its own, comes back as it is written
    when it is not [undefined], and is left as it is in memory when it is
    [undefined] (the key is left out of the text).  A value without
    negative zero and without an infinity is written as it is, so on a
    session of such values that has no [undefined] field, or that is still
    the session in memory, the round trip is exact.  When the stored object
    has no [botIsTyping] key (or nothing is stored), [load] sets
    [botIsTyping] to true exactly when the message list it has loaded is
    empty. *)
Theorem load_after_save (s m : state) (item : storage_t) :
  let r := loadChatbotSession (saveChatbotSession s) m in
  (chatStarted r = chatStarted s /\ privacyAccepted r = privacyAccepted s
   /\ botIsTyping r = botIsTyping s /\ waitStart r = waitStart s
   /\ fallbackTimer r = fallbackTimer s
   /\ chatMessages r = map written_msg (chatMessages s))
  /\ ((forall j, chat_id s = Some j -> chat_id r = Some (written j))
      /\ (chat_id s = undefined -> chat_id r = chat_id m))
  /\ ((forall j, asked_info s = Some j -> asked_info r = Some (written j))
      /\ (asked_info s = undefined -> asked_info r = asked_info m))
  /\ ((forall j, data_var s = Some j -> data_var r = Some (written j))
      /\ (data_var s = undefined -> data_var r = data_var m))
  /\ ((forall j, final_message s = Some j -> final_message r = Some (written j))
      /\ (final_message s = undefined -> final_message r = final_message m))
  /\ ((forall j, exact j = true -> written j = j)
      /\ (forall msg, exact_val (msg_text msg) = true -> written_msg msg = msg)
      /\ (forall b, written (JNum (Inf b)) = JNull)
      /\ written (JNum NegZero) = JNum (Fin 0))
  /\ (exact_state s = true ->
      (defined (chat_id s) -> defined (asked_info s) -> defined (data_var s) ->
       defined (final_message s) -> r = s)
      /\ loadChatbotSession (saveChatbotSession s) s = s)
  /\ ((forall o, item = Some o -> s_botIsTyping o = None) ->
      (botIsTyping (loadChatbotSession item m) = true
       <-> chatMessages (loadChatbotSession item m) = [])).
Proof.
  intros r.
  assert (Hfield : forall (v cur : jsval),
             (forall j, v = Some j -> keep_val (option_map written v) cur = Some (written j))
             /\ (v = undefined -> keep_val (option_map written v) cur = cur)).
  { intros v cur. split; [intros j ->; reflexivity | intros ->; reflexivity]. }
  split; [|split; [|split; [|split; [|split; [|split; [|split]]]]]].
  - unfold r, loadChatbotSession, saveChatbotSession. cbn. repeat split.
  - apply Hfield.
  - apply Hfield.
  - apply Hfield.
  - apply Hfield.
  - split; [exact written_exact|]. split; [exact written_msg_exact|].
    split; [reflexivity | reflexivity].
  - intros He. split.
    + intros Hc Ha Hd Hf. unfold r, loadChatbotSession, saveChatbotSession. cbn.
      apply assign_parsed_exact; [exact He | | | |]; intros E; contradiction.
    + unfold loadChatbotSession, saveChatbotSession. cbn.
      apply assign_parsed_exact; [exact He | | | |]; intros E; exact E.
  - intros Habs. unfold loadChatbotSession.
    assert (E : s_botIsTyping (match item with Some o => parsed o | None => empty_object end)
                = None).
    { destruct item as [o|]; [cbn; now apply Habs | reflexivity]. }
    rewrite E. simpl.
    destruct (keep _ _) as [|x l]; simpl; split; congruence.
Qed.

Lemma load_after_save_witness :
  loadChatbotSession (saveChatbotSession (st Scenario.unreachable)) initial
  = st Scenario.unreachable
  /\ (botIsTyping (loadChatbotSession None initial) = true
      <-> chatMessages (loadChatbotSession None initial) = []).
Proof.
  destruct (@load_after_save (st Scenario.unreachable) initial None)
    as (_ & _ & _ & _ & _ & _ & H1 & H4).
  split.
  - destruct (H1 eq_refl) as [Hall _]. apply Hall; discriminate.
  - apply H4. intros o Ho. discriminate.
Defined.

(** C7, as stated, fails: a session whose [data_var] is [undefined] is
    stored without that key, and a page that loads it again has [null]
    there. *)
Lemma reload_loses_undefined :
  ~ (forall s : state, loadChatbotSession (saveChatbotSession s) initial = s).
Proof.
  intros H. specialize (H (set_data_var undefined initial)).
  apply (f_equal data_var) in H. discriminate.
Qed.

(** Such a session arises when the body answering [/chat/new] has no
    [data]: the bootstrap saves it, and the next page load reads back
    another session. *)
Lemma reload_after_greeting :
  data_var (st Scenario.greeted) = undefined
  /\ storage Scenario.greeted = saveChatbotSession (st Scenario.greeted)
  /\ data_var (loadChatbotSession (storage Scenario.greeted) initial) = null.
Proof. vm_compute. repeat split; reflexivity. Qed.

(** Numbers that [JSON.stringify] does not write as they are: an
    infinity is read back as [null], negative zero as zero. *)
Lemma reload_rewrites_numbers :
  data_var (loadChatbotSession
              (saveChatbotSession (set_data_var (Some (JNum (Inf false))) initial))
              initial) = null
  /\ data_var (loadChatbotSession
                 (saveChatbotSession (set_data_var (Some (JNum NegZero)) initial))
                 initial) = Some (JNum (Fin 0)).
Proof. split; reflexivity. Qed.

(** ** Messages are only appended, [asked_info] is only read *)

Lemma ext_bind {T U} (c : M T) (k : T -> M U) (w : world) :
  kept extends c w ->
  (forall v w', c w = (Val v, w') -> kept extends (k v) w') ->
  kept extends (bind c k) w.
Proof. apply kept_bind. exact extends_trans. Qed.

Lemma ext_try_catch {T} (body handler : M T) (w : world) :
  kept extends body w ->
  (forall w', body w = (Throw, w') -> kept extends handler w') ->
  kept extends (try_catch body handler) w.
Proof. apply kept_try_catch. exact extends_trans. Qed.

Lemma ext_draws {T} (c : M T) (typing : option bool) (w : world) :
  draws c typing -> kept extends c w.
Proof.
  intros H. destruct (H w) as (o & w' & E & Hd & _). unfold kept. rewrite E.
  now apply dom_step_extends.
Qed.

Lemma ext_fetch (r : request) (w : world) :
  carries (asked_info (st w)) r -> kept extends (fetch r) w.
Proof.
  intros Hc. unfold kept, fetch. cbn [net with_request].
  assert (H : forall w', chatMessages (st w') = chatMessages (st w) ->
                         asked_info (st w') = asked_info (st w) ->
                         requests w' = requests w ++ [r] -> extends w w').
  { intros w' Hm Ha Hq. split; [exists []; now rewrite app_nil_r|]. split; [exact Ha|].
    exists [r]. split; [exact Hq|]. now constructor. }
  destruct (net w) as [|[t [|status body]] rest]; apply H; reflexivity.
Qed.

Lemma carries_send_body (s : state) (u : jsstring) (x : url) :
  carries (asked_info s) {| req_url := x; req_body := Some (send_body s u) |}.
Proof.
  unfold carries, send_body. simpl.
  destruct (asked_info s) as [a|]; [reflexivity|].
  destruct (data_var s) as [d|]; reflexivity.
Qed.

Lemma ext_clearTimeout (h : option Z) (w : world) : kept extends (clearTimeout h) w.
Proof. destruct h; apply extends_same; reflexivity. Qed.

Ltac ext_step :=
  match goal with
  | |- kept extends (ret _) _ => apply (@kept_ret _ extends_refl)
  | |- kept extends throw _ => apply (@kept_throw _ extends_refl)
  | |- kept extends pending _ => apply (@kept_pending _ extends_refl)
  | |- kept extends get_world _ => apply extends_refl
  | |- kept extends get_state _ => apply extends_refl
  | |- kept extends (update (push _)) _ => apply extends_push
  | |- kept extends (update _) _ => apply extends_same; reflexivity
  | |- kept extends (change_page _) _ => apply extends_same; reflexivity
  | |- kept extends save_session _ => apply extends_same; reflexivity
  | |- kept extends setTimeout _ => apply extends_same; reflexivity
  | |- kept extends (clearTimeout _) _ => apply ext_clearTimeout
  | |- kept extends (modify _) _ => apply extends_same; reflexivity
  | |- kept extends renderMessages _ => apply (ext_draws _ renderMessages_draws)
  | |- kept extends startTypingIndicator _ => apply (ext_draws _ startTypingIndicator_draws)
  | |- kept extends stopTypingIndicator _ => apply (ext_draws _ stopTypingIndicator_draws)
  | |- kept extends (resp_json _) _ => apply (@kept_resp_json _ extends_refl)
  | |- kept extends (prop _ _) _ => apply (@kept_prop _ extends_refl)
  | |- kept extends (prop_of _ _) _ => apply (@kept_prop_of _ extends_refl)
  | |- kept extends (bind get_world _) _ =>
    apply ext_bind; [apply extends_refl | intros ? ? ?E; inversion E; subst; clear E]
  | |- kept extends (bind get_state _) _ =>
    apply ext_bind; [apply extends_refl | intros ? ? ?E; inversion E; subst; clear E]
  | |- kept extends (bind _ _) _ => apply ext_bind; [ | intros ? ? _ ]
  | |- kept extends (try_catch _ _) _ => apply ext_try_catch; [ | intros ? _ ]
  | |- kept extends (let _ := _ in _) _ => cbv zeta
  | |- kept extends (if ?b then _ else _) _ => destruct b
  | |- kept extends (match ?x with _ => _ end) _ => destruct x
  end.

Lemma ext_startChat (w : world) : kept extends startChat w.
Proof.
  unfold startChat. repeat ext_step.
  apply ext_fetch. exact I.
Qed.

Lemma ext_sendChatMessage (u : jsstring) (w : world) : kept extends (sendChatMessage u) w.
Proof.
  unfold sendChatMessage. repeat ext_step.
  apply ext_fetch. apply carries_send_body.
Qed.

Lemma ext_on_submit (w : world) : kept extends on_submit w.
Proof.
  unfold on_submit.
  repeat match goal with
         | |- kept extends (sendChatMessage _) _ => apply ext_sendChatMessage
         | _ => ext_step
         end.
Qed.

Lemma ext_startNewChatIfNeeded (f b : option jsstring) (w : world) :
  kept extends (startNewChatIfNeeded f b) w.
Proof.
  unfold startNewChatIfNeeded, setFrontendUrl, setBackendUrl.
  repeat match goal with
         | |- kept extends startChat _ => apply ext_startChat
         | _ => ext_step
         end.
Qed.
Ltac ext_op :=
  match goal with
  | |- kept extends startChat _ => apply ext_startChat
  | |- kept extends (sendChatMessage _) _ => apply ext_sendChatMessage
  | |- kept extends on_submit _ => apply ext_on_submit
  | |- kept extends (startNewChatIfNeeded _ _) _ => apply ext_startNewChatIfNeeded
  | _ => ext_step
  end.

Lemma ext_perform (o : op) (w : world) : extends w (after o w).
Proof.
  unfold after. change (kept extends (perform o) w).
  destruct o; cbn [perform];
    unfold ignore, on_enter, on_hide, fallback_fired, setupPrivacyOverlay, accept_privacy;
    repeat ext_op.
Qed.

Lemma after_all_extends (ops : list op) : forall w, extends w (after_all ops w).
Proof.
  induction ops as [|o ops IH]; intros w; simpl.
  - apply extends_refl.
  - eapply extends_trans; [apply ext_perform | apply IH].
Qed.

(** C9. Whatever operations of the core run, one after the other and
    however each of them ends, the message list before is a prefix of the
    message list after: messages are appended, never removed or
    reordered.  The same holds for the load of a stored session into the
    default session of a page. *)
Theorem chatMessages_append_only (ops : list op) (w : world) (item : storage_t) :
  (exists more, chatMessages (st (after_all ops w)) = chatMessages (st w) ++ more)
  /\ (exists more,
         chatMessages (loadChatbotSession item initial) = chatMessages initial ++ more).
Proof.
  split; [apply (after_all_extends ops w)|].
  exists (chatMessages (loadChatbotSession item initial)). reflexivity.
Qed.

(** C10. No operation of the core assigns [asked_info]: after
    [loadChatbotSession] the field holds what the load produced ([null] on
    a page without a stored session), it holds the same value after any
    sequence of operations, and every request body sent in between carries
    that value. *)
Theorem asked_info_never_assigned (ops : list op) (w0 : world) :
  let w := snd (module_loaded w0) in
  asked_info (st w) = asked_info (loadChatbotSession (storage w0) (st w0))
  /\ asked_info (st (after_all ops w)) = asked_info (st w)
  /\ (exists sent,
         requests (after_all ops w) = requests w ++ sent
         /\ Forall (carries (asked_info (st w))) sent)
  /\ asked_info (loadChatbotSession None initial) = null.
Proof.
  intros w. split; [reflexivity|].
  destruct (after_all_extends ops w) as (_ & Ha & Hs).
  split; [exact Ha|]. split; [exact Hs | reflexivity].
Qed.

(* ===================================================================== *)
(** * Further properties of the formatter                                 *)
(* ===================================================================== *)

Lemma exec_from_lit_hit (a : N) (s : jsstring) (n : nat) :
  forall i f,
    exec_from no_flags s (Lit a) n i = Some f -> nth_error s (m_start f) = Some a.
Proof.
  induction n as [|n IH]; intros i f; simpl; rewrite match_at_lit.
  - destruct (nth_error s i) as [x|] eqn:E; [|discriminate].
    destruct (N.eqb_spec a x) as [->|]; [|discriminate].
    intros H. inversion H. simpl. exact E.
  - destruct (nth_error s i) as [x|] eqn:E.
    + destruct (N.eqb_spec a x) as [->|]; [|apply IH].
      intros H. inversion H. simpl. exact E.
    + apply IH.
Qed.

Lemma exec_lit_hit (a : N) (s : jsstring) (i : nat) (f : found) :
  exec no_flags s (Lit a) i = Some f -> nth_error s (m_start f) = Some a.
Proof.
  unfold exec. destruct (Nat.leb i (List.length s)); [|discriminate].
  apply exec_from_lit_hit.
Qed.

Lemma flat_map_swap_misses (a : N) (t : string) (l : jsstring) :
  Forall (fun x => x <> a) l -> flat_map (Entities.swap a t) l = l.
Proof.
  induction 1 as [|x l Hx _ IH]; simpl; [reflexivity|].
  unfold Entities.swap at 1. destruct (N.eqb_spec x a); [contradiction|].
  simpl. now rewrite IH.
Qed.

Lemma assemble_swap (a : N) (t : string) (s : jsstring) :
  forall fuel i,
    List.length s < fuel + i ->
    assemble s i (exec_all no_flags s (Lit a) fuel i) (expand Util.plain [TLit t] s)
    = flat_map (Entities.swap a t) (skipn i s).
Proof.
  induction fuel as [|fuel IH]; intros i Hfuel; simpl.
  - rewrite skipn_all2 by lia. reflexivity.
  - pose proof (exec_lit a s i) as H.
    pose proof (@exec_lit_hit a s i) as Hhit.
    destruct (exec no_flags s (Lit a) i) as [f|]; simpl.
    + destruct H as (He & Hs & _ & Hb). specialize (Hhit f eq_refl).
      destruct (Nat.leb_spec i (m_start f)) as [_|]; [|lia].
      rewrite He.
      replace (Nat.eqb (S (m_start f)) (m_start f)) with false
        by (symmetry; apply Nat.eqb_neq; lia).
      rewrite IH by lia.
      assert (Hsl : flat_map (Entities.swap a t) (slice s i (m_start f))
                    = slice s i (m_start f)).
      { apply flat_map_swap_misses.
        apply Forall_forall. intros x Hx Hc. subst x.
        unfold slice in Hx. apply In_nth_error in Hx. destruct Hx as [k Hk].
        rewrite nth_error_firstn in Hk.
        destruct (Nat.ltb_spec k (m_start f - i)); [|discriminate].
        rewrite nth_error_skipn in Hk. apply (Hb (i + k)); [lia | exact Hk]. }
      assert (Ea : Entities.swap a t a = str t)
        by (unfold Entities.swap; now rewrite N.eqb_refl).
      rewrite (skipn_slice s Hs), (skipn_cons_nth _ _ Hhit), flat_map_app, Hsl.
      f_equal. cbn [flat_map]. rewrite Ea.
      unfold expand, lift. simpl. rewrite app_nil_r, map_plain. reflexivity.
    + symmetry. apply flat_map_swap_misses.
      apply Forall_forall. intros x Hx Hc. subst x.
      apply In_nth_error in Hx. destruct Hx as [k Hk].
      rewrite nth_error_skipn in Hk. apply (H (i + k)); [lia | exact Hk].
Qed.

(** A global replacement of one character is a map over the characters. *)
Lemma sub_char (a : N) (t : string) (s : jsstring) :
  Util.Gen.sub Util.plain Util.plain no_flags (Lit a) [TLit t] s
  = flat_map (Entities.swap a t) s.
Proof.
  unfold Util.Gen.sub, replace_all, replace_fn, matches. rewrite map_plain.
  rewrite assemble_swap by lia. reflexivity.
Qed.

Lemma flat_map_twice {T U V} (f : T -> list U) (g : U -> list V) (l : list T) :
  flat_map g (flat_map f l) = flat_map (fun x => flat_map g (f x)) l.
Proof.
  induction l as [|x l IH]; simpl; [reflexivity|]. now rewrite flat_map_app, IH.
Qed.

Lemma entity_cases (x : N) :
  (x = 38%N /\ Entities.entity x = str "&amp;")
  \/ (x = 60%N /\ Entities.entity x = str "&lt;")
  \/ (x = 62%N /\ Entities.entity x = str "&gt;")
  \/ (x = 34%N /\ Entities.entity x = str "&quot;")
  \/ (x = 39%N /\ Entities.entity x = str "&#39;")
  \/ (x <> 38%N /\ x <> 60%N /\ x <> 62%N /\ x <> 34%N /\ x <> 39%N
      /\ Entities.entity x = [x]).
Proof.
  unfold Entities.entity.
  change (chr "&") with 38%N. change (chr "<") with 60%N.
  change (chr ">") with 62%N. change (chr "'") with 39%N.
  destruct (N.eqb_spec x 38); [now left|]. right.
  destruct (N.eqb_spec x 60); [now left|]. right.
  destruct (N.eqb_spec x 62); [now left|]. right.
  destruct (N.eqb_spec x 34); [now left|]. right.
  destruct (N.eqb_spec x 39); [now left|]. right.
  repeat split; assumption.
Qed.

Lemma escapeHTML_flat_map (t : jsstring) :
  Util.escapeHTML t = flat_map Entities.entity t.
Proof.
  unfold Util.escapeHTML, Util.Gen.escapeHTML. cbv zeta.
  rewrite !sub_char, !flat_map_twice.
  apply flat_map_ext. intros x.
  unfold Entities.swap.
  change (chr "&") with 38%N. change (chr "<") with 60%N.
  change (chr ">") with 62%N. change (chr "'") with 39%N.
  destruct (entity_cases x) as [[-> ->]|[[-> ->]|[[-> ->]|[[-> ->]|[[-> ->]|H]]]]];
    try (vm_compute; reflexivity).
  destruct H as (H1 & H2 & H3 & H4 & H5 & ->).
  apply N.eqb_neq in H1, H2, H3, H4, H5.
  rewrite H1. simpl. rewrite H2. simpl. rewrite H3. simpl. rewrite H4. simpl.
  rewrite H5. reflexivity.
Qed.

(** X1. The five replacements of [escapeHTML], one after the other, are
    one pass over the text in which every character is replaced by its
    entity: the ampersand of an entity written by an earlier replacement
    is not escaped again. *)
Theorem escapeHTML_char_by_char (t : jsstring) :
  Util.escapeHTML t = flat_map Entities.entity t.
Proof. exact (escapeHTML_flat_map t). Qed.

(** X2. [escapeHTML] loses nothing: two texts with the same escaped form
    are the same text. *)
Theorem escapeHTML_injective (a b : jsstring) :
  Util.escapeHTML a = Util.escapeHTML b -> a = b.
Proof.
  rewrite !escapeHTML_flat_map. revert b.
  induction a as [|x a IH]; intros [|y b] H.
  - reflexivity.
  - exfalso. simpl in H.
    destruct (entity_cases y) as [[_ E]|[[_ E]|[[_ E]|[[_ E]|[[_ E]|(_ & _ & _ & _ & _ & E)]]]]];
      rewrite E in H; discriminate.
  - exfalso. simpl in H.
    destruct (entity_cases x) as [[_ E]|[[_ E]|[[_ E]|[[_ E]|[[_ E]|(_ & _ & _ & _ & _ & E)]]]]];
      rewrite E in H; discriminate.
  - simpl in H.
    destruct (entity_cases x) as [[Hx E]|[[Hx E]|[[Hx E]|[[Hx E]|[[Hx E]|(X1 & X2 & X3 & X4 & X5 & E)]]]]];
      destruct (entity_cases y) as [[Hy F]|[[Hy F]|[[Hy F]|[[Hy F]|[[Hy F]|(Y1 & Y2 & Y3 & Y4 & Y5 & F)]]]]];
      rewrite E, F in H; vm_compute in H; inversion H; subst;
        try congruence; f_equal; now apply IH.
Qed.

Lemma escapeHTML_injective_witness : str "a<b" = [97; 60; 98]%N.
Proof. apply escapeHTML_injective. reflexivity. Defined.

(** X3. The escaped text holds no [<], no [>], no double quote and no
    single quote. *)
Theorem escapeHTML_no_markup_chars (t : jsstring) (c : N) :
  In c (Util.escapeHTML t) ->
  c <> chr "<" /\ c <> chr ">" /\ c <> 34%N /\ c <> chr "'".
Proof.
  rewrite escapeHTML_flat_map. intros H.
  apply in_flat_map in H. destruct H as (x & _ & H).
  change (chr "<") with 60%N. change (chr ">") with 62%N. change (chr "'") with 39%N.
  destruct (entity_cases x) as [[_ E]|[[_ E]|[[_ E]|[[_ E]|[[_ E]|(_ & X2 & X3 & X4 & X5 & E)]]]]];
    rewrite E in H; vm_compute in H;
      repeat (destruct H as [H|H]; [subst c; repeat split; congruence|]);
      contradiction.
Qed.

Lemma escapeHTML_no_markup_chars_witness :
  chr "l" <> chr "<" /\ chr "l" <> chr ">" /\ chr "l" <> 34%N /\ chr "l" <> chr "'".
Proof.
  apply (@escapeHTML_no_markup_chars (str "<") (chr "l")).
  vm_compute. right. now left.
Defined.

(** From here on every argument of a lemma is written out. *)
Unset Implicit Arguments.

Lemma swap_newline_free (l : jsstring) :
  Forall (fun x => x <> 10%N) (flat_map (Entities.swap 10 "<br>") l).
Proof.
  apply Forall_flat_map. apply Forall_forall. intros x _.
  unfold Entities.swap. destruct (N.eqb_spec x 10) as [E|Hx].
  - vm_compute. repeat constructor; discriminate.
  - repeat constructor. exact Hx.
Qed.

(** X4. The output of [renderMarkdown] holds no newline character: every
    newline has become a line break. *)
Theorem renderMarkdown_no_newline (t : jsstring) :
  Forall (fun c => c <> 10%N) (Util.renderMarkdown t).
Proof.
  unfold Util.renderMarkdown, Util.Gen.renderMarkdown. cbv zeta.
  rewrite sub_char. apply swap_newline_free.
Qed.

(** ** Patterns that cannot match *)

Lemma repeat_matcher_dead (body : nat -> caps -> cont -> result) (grp : list nat)
      (greedy : bool) (k : cont) :
  (forall j c, k j c = None) ->
  (forall i c k', (forall j c', k' j c' = None) -> body i c k' = None) ->
  forall fuel lo hi i c, repeat_matcher body grp greedy fuel lo hi i c k = None.
Proof.
  intros Hk Hbody. induction fuel as [|fuel IH]; intros lo hi i c.
  - simpl. destruct hi as [[|h]|]; auto.
  - cbn [repeat_matcher].
    assert (Hd : body i (clear_caps grp c)
                      (fun j c' =>
                         if Nat.eqb lo 0 && Nat.eqb j i then None
                         else repeat_matcher body grp greedy fuel (Nat.pred lo)
                                             (option_map Nat.pred hi) j c' k) = None).
    { apply Hbody. intros j c'. destruct (Nat.eqb lo 0 && Nat.eqb j i); [reflexivity|apply IH]. }
    destruct hi as [[|h]|]; [apply Hk| |];
      (destruct (Nat.eqb lo 0); [destruct greedy; unfold orelse|]; rewrite ?Hd, ?Hk; auto).
Qed.

(** A matcher can only succeed through its continuation. *)
Lemma m_dead (fl : flags) (s : jsstring) (r : regex) :
  forall i c k, (forall j c', k j c' = None) -> m fl s r i c k = None.
Proof.
  induction r as [|a|neg items| |r1 IH1 r2 IH2|r1 IH1 r2 IH2|n r1 IH1|lo hi g r1 IH1|n| | | |neg r1 IH1];
    intros i c k Hk; cbn [m]; unfold step.
  - apply Hk.
  - destruct (nth_error s i); [destruct (lit_match fl a n)|]; auto.
  - destruct (nth_error s i); [destruct (xorb neg _)|]; auto.
  - destruct (nth_error s i); [destruct (negb _)|]; auto.
  - apply IH1. intros j c'. now apply IH2.
  - unfold orelse. rewrite IH1 by exact Hk. now apply IH2.
  - apply IH1. intros j c'. apply Hk.
  - apply repeat_matcher_dead; [exact Hk|]. intros i' c' k' Hk'. now apply IH1.
  - destruct (get_cap n c) as [[a b]|]; [destruct (ref_match fl s _ i)|]; auto.
  - destruct (xorb _ _); auto.
  - destruct i; [auto|]. destruct (multiline fl && at_lt s i); auto.
  - destruct (Nat.eqb i (List.length s) || _); auto.
  - destruct (m fl s r1 i c _) as [[j c']|]; destruct neg; auto.
Qed.

Lemma lit_match_char (fl : flags) (c x : N) :
  Entities.letter c = false -> lit_match fl c x = true -> x = c.
Proof.
  unfold lit_match, Entities.letter, canon, in_range. intros Hc H.
  apply orb_false_elim in Hc. destruct Hc as [Hu Hl].
  destruct (ignoreCase fl); [|apply N.eqb_eq in H; congruence].
  rewrite Hl in H.
  destruct ((97 <=? x) && (x <=? 122))%N eqn:Hx.
  - apply N.eqb_eq in H. apply andb_prop in Hx. destruct Hx as [H1 H2].
    apply N.leb_le in H1, H2.
    assert ((65 <=? c) && (c <=? 90) = true)%N
      by (apply andb_true_intro; split; apply N.leb_le; lia).
    congruence.
  - apply N.eqb_eq in H. congruence.
Qed.

(** A pattern that has to read the character [c] matches nowhere in a
    text without [c]. *)
Lemma m_reads (fl : flags) (s : jsstring) (c : N) (r : regex) :
  Entities.letter c = false -> ~ In c s -> Entities.reads c r = true ->
  forall i cs k, m fl s r i cs k = None.
Proof.
  intros Hc Hs.
  induction r as [|a|neg items| |r1 IH1 r2 IH2|r1 IH1 r2 IH2|n r1 IH1|lo hi g r1 IH1|n| | | |neg r1 IH1];
    intros Hr i cs k; cbn [Entities.reads] in Hr; try discriminate; cbn [m].
  - apply N.eqb_eq in Hr. subst a. unfold step.
    destruct (nth_error s i) as [x|] eqn:E; [|reflexivity].
    destruct (lit_match fl c x) eqn:L; [|reflexivity].
    apply lit_match_char in L; [|exact Hc]. subst x.
    exfalso. apply Hs. eapply nth_error_In. exact E.
  - apply orb_prop in Hr. destruct Hr as [Hr|Hr].
    + now apply IH1.
    + apply m_dead. intros j c'. now apply IH2.
  - apply andb_prop in Hr. destruct Hr as [H1 H2].
    unfold orelse. rewrite IH1 by exact H1. now apply IH2.
  - now apply IH1.
  - apply andb_prop in Hr. destruct Hr as [Hr Hhi].
    apply andb_prop in Hr. destruct Hr as [Hlo Hr].
    apply Nat.leb_le in Hlo.
    destruct lo as [|lo]; [lia|]. cbn [Nat.add repeat_matcher].
    destruct hi as [[|h]|]; [discriminate| |]; cbn [Nat.eqb]; now apply IH1.
Qed.

Lemma matches_reads (fl : flags) (s : jsstring) (c : N) (r : regex) :
  Entities.letter c = false -> ~ In c s -> Entities.reads c r = true -> matches fl s r = [].
Proof.
  intros Hc Hs Hr.
  assert (Hm : forall i, match_at fl s r i = None)
    by (intros i; unfold match_at; now apply (m_reads fl s c r)).
  assert (He : forall n i, exec_from fl s r n i = None).
  { induction n as [|n IH]; intros i; simpl; rewrite Hm; [reflexivity | apply IH]. }
  unfold matches. cbn [exec_all]. unfold exec. rewrite He.
  destruct (Nat.leb 0 (List.length s)); reflexivity.
Qed.

(** A replacement whose pattern has to read [c] leaves a text without [c]
    as it is. *)
Lemma replace_fn_reads (fl : flags) (c : N) (r : regex)
      (rep : jsstring -> found -> jsstring) (s : jsstring) :
  Entities.letter c = false -> ~ In c s -> Entities.reads c r = true ->
  replace_fn Util.plain fl r rep s = s.
Proof.
  intros Hc Hs Hr. unfold replace_fn. rewrite map_plain.
  rewrite (matches_reads fl s c r Hc Hs Hr). reflexivity.
Qed.

Lemma sub_reads (fl : flags) (c : N) (r : regex) (tmpl : list piece) (s : jsstring) :
  Entities.letter c = false -> ~ In c s -> Entities.reads c r = true ->
  Util.Gen.sub Util.plain Util.plain fl r tmpl s = s.
Proof.
  intros Hc Hs Hr. unfold Util.Gen.sub, replace_all. now apply (replace_fn_reads fl c).
Qed.

(** ** Plain text *)

Lemma trigger_absent (s : jsstring) (c : N) :
  Entities.trigger c = true ->
  (forall x, In x s -> Entities.trigger x = false) -> ~ In c s.
Proof. intros Hc H Hin. rewrite (H c Hin) in Hc. discriminate Hc. Qed.

Lemma entity_trigger_free (s : jsstring) :
  (forall x, In x s -> Entities.trigger x = false) ->
  forall x, In x (flat_map Entities.entity s) -> Entities.trigger x = false.
Proof.
  intros Hs x Hx. apply in_flat_map in Hx. destruct Hx as (y & Hy & Hx).
  destruct (entity_cases y) as [[_ E]|[[_ E]|[[_ E]|[[_ E]|[[_ E]|(_ & _ & _ & _ & _ & E)]]]]];
    rewrite E in Hx.
  1-5: vm_compute in Hx;
    repeat (destruct Hx as [Hx|Hx]; [subst x; reflexivity|]); destruct Hx.
  destruct Hx as [Hx|[]]. subst x. exact (Hs y Hy).
Qed.

Lemma plain_html_pass (x : N) :
  flat_map (Entities.swap 10 "<br>") (Entities.entity x) = Entities.plain_html x.
Proof.
  unfold Entities.plain_html.
  destruct (N.eqb_spec x 10) as [E|Hx].
  - subst x. reflexivity.
  - apply flat_map_swap_misses.
    destruct (entity_cases x) as [[_ E]|[[_ E]|[[_ E]|[[_ E]|[[_ E]|(_ & _ & _ & _ & _ & E)]]]]];
      rewrite E.
    1-5: vm_compute; repeat constructor; discriminate.
    repeat constructor. exact Hx.
Qed.

(** X5. A text without an opening square bracket, an at sign, a star, an
    underscore, a full stop and a colon is only escaped, and its newlines
    become line breaks: no pattern of [renderMarkdown] finds a link, an
    address or an emphasis in it. *)
Theorem renderMarkdown_plain_text (t : jsstring) :
  (forall x, In x t -> Entities.trigger x = false) ->
  Util.renderMarkdown t = flat_map Entities.plain_html t.
Proof.
  intros Ht.
  pose proof (entity_trigger_free t Ht) as Hh.
  unfold Util.renderMarkdown, Util.Gen.renderMarkdown. cbv zeta.
  rewrite (sub_reads flag_i (chr "[") Util.Gen.re_mailto_link _ t eq_refl
                     (trigger_absent t (chr "[") eq_refl Ht) eq_refl).
  rewrite (sub_reads no_flags (chr "@") Util.Gen.re_email_twice _ t eq_refl
                     (trigger_absent t (chr "@") eq_refl Ht) eq_refl).
  change (Util.Gen.escapeHTML Util.plain Util.plain t) with (Util.escapeHTML t).
  rewrite escapeHTML_flat_map.
  set (h := flat_map Entities.entity t) in *.
  rewrite (sub_reads flag_i (chr "[") Util.Gen.re_md_link _ h eq_refl
                     (trigger_absent h (chr "[") eq_refl Hh) eq_refl).
  rewrite (sub_reads no_flags (chr "@") Util.Gen.re_email _ h eq_refl
                     (trigger_absent h (chr "@") eq_refl Hh) eq_refl).
  rewrite (sub_reads no_flags (chr "*") (Util.Gen.re_bold (chr "*")) _ h eq_refl
                     (trigger_absent h (chr "*") eq_refl Hh) eq_refl).
  rewrite (sub_reads no_flags (chr "_") (Util.Gen.re_bold (chr "_")) _ h eq_refl
                     (trigger_absent h (chr "_") eq_refl Hh) eq_refl).
  rewrite (sub_reads no_flags (chr "*") (Util.Gen.re_italic (chr "*")) _ h eq_refl
                     (trigger_absent h (chr "*") eq_refl Hh) eq_refl).
  rewrite (sub_reads no_flags (chr "_") (Util.Gen.re_italic (chr "_")) _ h eq_refl
                     (trigger_absent h (chr "_") eq_refl Hh) eq_refl).
  rewrite (sub_reads no_flags (chr "[") Util.Gen.re_md_link _ h eq_refl
                     (trigger_absent h (chr "[") eq_refl Hh) eq_refl).
  rewrite (sub_reads flag_m (chr "*") Util.Gen.re_bullet _ h eq_refl
                     (trigger_absent h (chr "*") eq_refl Hh) eq_refl).
  rewrite (replace_fn_reads no_flags (chr ".") Util.Gen.re_www _ h eq_refl
                            (trigger_absent h (chr ".") eq_refl Hh) eq_refl).
  rewrite (replace_fn_reads no_flags (chr ":") Util.Gen.re_http _ h eq_refl
                            (trigger_absent h (chr ":") eq_refl Hh) eq_refl).
  rewrite sub_char. unfold h. rewrite flat_map_twice.
  apply flat_map_ext. intros x. apply plain_html_pass.
Qed.

Lemma renderMarkdown_plain_text_witness :
  Util.renderMarkdown (str "1 < 2") = str "1 &lt; 2".
Proof.
  rewrite renderMarkdown_plain_text.
  - reflexivity.
  - intros x Hx. vm_compute in Hx.
    repeat (destruct Hx as [Hx|Hx]; [subst x; reflexivity|]). destruct Hx.
Defined.

(* ===================================================================== *)
(** * Further properties of the block splitter                            *)
(* ===================================================================== *)

(** No two newlines in a row: the text has no paragraph break. *)
Lemma match_at_no_break (s : jsstring) :
  (forall i, nth_error s i = Some 10%N -> nth_error s (S i) <> Some 10%N) ->
  forall q, match_at no_flags s Util.re_paragraph q = None.
Proof.
  intros Hs q.
  destruct (match_at no_flags s Util.re_paragraph q) as [[e c]|] eqn:E; [|reflexivity].
  apply match_at_paragraph in E. destruct E as (_ & H1 & H2).
  exfalso. exact (Hs q H1 H2).
Qed.

Lemma split_from_none (fl : flags) (r : regex) (s : jsstring) :
  (forall q, match_at fl s r q = None) ->
  forall fuel p q, split_from Util.plain fl r s fuel p q = [skipn p s].
Proof.
  intros Hm. induction fuel as [|fuel IH]; intros p q; cbn [split_from]; [reflexivity|].
  destruct (Nat.ltb q (List.length s)); [|reflexivity].
  rewrite map_plain, Hm. apply IH.
Qed.

Lemma paragraphs_whole (text : jsstring) :
  (forall i, nth_error text i = Some 10%N -> nth_error text (S i) <> Some 10%N) ->
  Util.paragraphs text = [text].
Proof.
  intros Hs. unfold Util.paragraphs, split. destruct text as [|x text].
  - rewrite (match_at_no_break [] Hs 0). reflexivity.
  - apply (split_from_none no_flags Util.re_paragraph (x :: text) (match_at_no_break _ Hs)).
Qed.

(** X6. A text without two newlines in a row that is not blank and not
    longer than [maxLen] comes back as the one block it is, whatever the
    bound and without a turn of the loop. *)
Theorem splitIntoSubblocks_short_text (text : jsstring) (maxLen : Z) (fuel : nat) :
  (forall i, nth_error text i = Some 10%N -> nth_error text (S i) <> Some 10%N) ->
  (Util.len text <= maxLen)%Z ->
  Util.blank text = false ->
  Util.splitIntoSubblocks fuel text maxLen = Some [text].
Proof.
  intros Hs Hlen Hb. unfold Util.splitIntoSubblocks, Util.split_parts. cbv zeta.
  rewrite (paragraphs_whole text Hs). cbn [List.length Nat.eqb andb].
  destruct (Z.ltb_spec maxLen (Util.len text)) as [Hlt|_]; [lia|].
  cbn [option_map filter]. rewrite Hb. reflexivity.
Qed.

Lemma splitIntoSubblocks_short_text_witness :
  Util.splitIntoSubblocks 0 (str "Guten Tag") 500 = Some [str "Guten Tag"].
Proof.
  apply splitIntoSubblocks_short_text.
  - intros i H. vm_compute in H.
    do 9 (destruct i as [|i]; [discriminate H|]). destruct i; discriminate H.
  - vm_compute. discriminate.
  - reflexivity.
Defined.

Lemma trim_spaces (p : jsstring) :
  Forall (fun c => is_space c = true) p -> trim Util.plain p = [].
Proof.
  intros H. unfold trim, trimEnd, trimStart.
  assert (E : drop_while (fun x => is_space (Util.plain x)) p = []).
  { induction H as [|x p Hx _ IH]; simpl; [reflexivity|].
    unfold Util.plain at 1. rewrite Hx. exact IH. }
  rewrite E. reflexivity.
Qed.

Lemma filter_none {T} (f : T -> bool) (l : list T) :
  Forall (fun x => f x = false) l -> filter f l = [].
Proof.
  induction 1 as [|x l Hx _ IH]; simpl; [reflexivity|]. rewrite Hx. exact IH.
Qed.

(** X7. A text of white space only, the empty text among them, gives no
    block at all (for a bound of at least one). *)
Theorem splitIntoSubblocks_blank_text (text : jsstring) (maxLen : Z) (fuel : nat) :
  (1 <= maxLen)%Z -> List.length text <= fuel ->
  Forall (fun c => is_space c = true) text ->
  Util.splitIntoSubblocks fuel text maxLen = Some [].
Proof.
  intros Hmax Hfuel Hsp.
  destruct (@split_parts_spec text maxLen fuel Hmax Hfuel) as (pcs & E & Hs & _).
  unfold Util.splitIntoSubblocks. rewrite E. cbn [option_map]. f_equal.
  apply filter_none. apply Forall_forall. intros p Hp.
  apply in_map_iff in Hp. destruct Hp as (pc & Epc & Hpc). subst p.
  apply negb_false_iff. unfold Util.blank. rewrite trim_spaces; [reflexivity|].
  rewrite Hs in Hsp. rewrite Forall_flat_map in Hsp.
  rewrite Forall_forall in Hsp. specialize (Hsp pc Hpc).
  unfold Blocks.glue in Hsp. apply Forall_app in Hsp. exact (proj1 Hsp).
Qed.

Lemma splitIntoSubblocks_blank_text_witness :
  Util.splitIntoSubblocks 3 (str "   ") 500 = Some [].
Proof.
  apply splitIntoSubblocks_blank_text; [lia | vm_compute; lia |].
  vm_compute. repeat constructor.
Defined.

Lemma chunk_zero (text : jsstring) (cursor : Z) :
  (0 <= cursor < Util.len text)%Z ->
  forall fuel parts, Util.chunk fuel text 0 cursor parts = None.
Proof.
  intros Hc. induction fuel as [|fuel IH]; intros parts; cbn [Util.chunk];
    destruct (Z.ltb_spec cursor (Util.len text)) as [_|]; try lia; [reflexivity|].
  replace (Z.min (Util.len text) (cursor + 0)) with cursor by lia.
  rewrite (@js_slice_inside text cursor cursor) by lia.
  unfold slice. rewrite Nat.sub_diag. cbn [firstn].
  change (Z.max (Util.lastIndexOf Util.newline []) (Util.lastIndexOf Util.period_space []))
    with (-1)%Z.
  cbn [Z.ltb Z.compare Pos.compare Pos.compare_cont CompOpp].
  apply IH.
Qed.

(** X8. With a bound of zero the loop never ends: on a text that is not
    empty and has no two newlines in a row, every turn appends an empty
    part and leaves the cursor where it was. *)
Theorem splitIntoSubblocks_zero_bound (text : jsstring) (fuel : nat) :
  text <> [] ->
  (forall i, nth_error text i = Some 10%N -> nth_error text (S i) <> Some 10%N) ->
  Util.splitIntoSubblocks fuel text 0 = None.
Proof.
  intros Hne Hs. unfold Util.splitIntoSubblocks, Util.split_parts. cbv zeta.
  rewrite (paragraphs_whole text Hs). cbn [List.length Nat.eqb andb].
  assert (Hl : (0 < Util.len text)%Z).
  { unfold Util.len. destruct text; [congruence | simpl List.length; lia]. }
  destruct (Z.ltb_spec 0 (Util.len text)) as [_|]; [|lia].
  rewrite chunk_zero by lia. reflexivity.
Qed.

Lemma splitIntoSubblocks_zero_bound_witness :
  Util.splitIntoSubblocks 1000 (str "a") 0 = None.
Proof.
  apply splitIntoSubblocks_zero_bound; [discriminate|].
  intros [|[|i]] H; discriminate H.
Defined.

(* ===================================================================== *)
(** * Further properties of the session store                             *)
(* ===================================================================== *)

Lemma keep_twice {T} (saved : option T) (current : T) :
  keep saved (keep saved current) = keep saved current.
Proof. destruct saved; reflexivity. Qed.

Lemma keep_val_twice (saved : option json) (current : jsval) :
  keep_val saved (keep_val saved current) = keep_val saved current.
Proof. destruct saved; reflexivity. Qed.

Lemma assign_twice (m : state) (o : stored) : assign (assign m o) o = assign m o.
Proof.
  unfold assign. cbn [chat_id asked_info data_var chatStarted privacyAccepted final_message
                      chatMessages botIsTyping waitStart fallbackTimer].
  rewrite !keep_twice, !keep_val_twice. reflexivity.
Qed.

(** X9. Loading the stored session a second time changes nothing: what
    [loadChatbotSession] leaves in memory is a fixed point of it. *)
Theorem loadChatbotSession_idempotent (item : storage_t) (m : state) :
  loadChatbotSession item (loadChatbotSession item m) = loadChatbotSession item m.
Proof.
  unfold loadChatbotSession. cbv zeta.
  set (saved := match item with Some o => parsed o | None => empty_object end).
  destruct (s_botIsTyping saved) as [b|] eqn:E.
  - apply assign_twice.
  - unfold assign, set_botIsTyping.
    cbn [chat_id asked_info data_var chatStarted privacyAccepted final_message
         chatMessages botIsTyping waitStart fallbackTimer].
    rewrite !keep_twice, !keep_val_twice. reflexivity.
Qed.

(** X10. A session read from the storage on a fresh page is written back
    and read again as it is: no key that came out of the stored text is
    lost by [saveChatbotSession]. *)
Theorem reload_stable (item : storage_t) :
  let s := loadChatbotSession item initial in
  loadChatbotSession (saveChatbotSession s) initial = s.
Proof.
  intros s. unfold saveChatbotSession.
  change (loadChatbotSession (Some (stringify s)) initial)
    with (assign initial (parsed (stringify s))).
  assert (Hv : forall o : option json,
             exact_val (keep_val (option_map written o) null) = true
             /\ defined (keep_val (option_map written o) null)).
  { intros [j|]; cbn; split; try discriminate; [apply exact_written | reflexivity]. }
  assert (Hm : forall o : option (list message),
             forallb (fun x => exact_val (msg_text x))
                     (keep (option_map (map written_msg) o) []) = true).
  { intros [l|]; cbn; [|reflexivity].
    induction l as [|[sd [j|]] l IH]; cbn; [reflexivity| |];
      rewrite ?exact_written, IH; reflexivity. }
  assert (He : exact_state s = true
               /\ defined (chat_id s) /\ defined (asked_info s) /\ defined (data_var s)
               /\ defined (final_message s)).
  { unfold s, loadChatbotSession, exact_state. cbv zeta.
    destruct item as [o|].
    - destruct (s_botIsTyping (parsed o));
        cbn [assign parsed set_botIsTyping chat_id asked_info data_var final_message
             chatMessages s_chat_id s_asked_info s_data_var s_final_message s_chatMessages];
        change (chat_id initial) with null; change (asked_info initial) with null;
        change (data_var initial) with null; change (final_message initial) with null;
        change (chatMessages initial) with (@nil message);
        rewrite (proj1 (Hv (s_chat_id o))), (proj1 (Hv (s_asked_info o))),
          (proj1 (Hv (s_data_var o))), (proj1 (Hv (s_final_message o))),
          (Hm (s_chatMessages o));
        (split; [reflexivity|]); repeat split; apply Hv.
    - cbn. repeat split; discriminate. }
  destruct He as (He & Hc & Ha & Hd & Hf).
  apply assign_parsed_exact; [exact He | | | |]; intros E; contradiction.
Qed.

(* ===================================================================== *)
(** * Further properties of the renderer                                  *)
(* ===================================================================== *)

Lemma append_messages_drawn (msgs : list message) :
  forallb drawable msgs = true ->
  exists ns,
    forall w0, append_messages msgs w0
               = (Val tt, with_page (fun d => set_nodes (nodes d ++ ns) d) w0).
Proof.
  induction msgs as [|m msgs IH]; intros H.
  - exists []. intros [s sto [sh ns iv idis fp ch] c n rq tm nt fu bu].
    unfold with_page, set_nodes. cbn. rewrite app_nil_r. reflexivity.
  - cbn [forallb] in H. apply andb_prop in H. destruct H as [Hm Hr].
    destruct (message_nodes_total m Hm) as (ns1 & E1).
    destruct (IH Hr) as (ns2 & E2).
    exists (ns1 ++ ns2). intros w0. cbn [append_messages]. rewrite E1.
    unfold bind, change_page, modify. rewrite E2.
    unfold with_page, set_nodes. cbn. rewrite <- app_assoc. reflexivity.
Qed.

Lemma renderMessages_run (w : world) (ns : list node) :
  (forall w0, append_messages (chatMessages (st w)) w0
              = (Val tt, with_page (fun d => set_nodes (nodes d ++ ns) d) w0)) ->
  renderMessages w = (Val tt, rendered ns w).
Proof.
  intros H. unfold renderMessages, rendered.
  unfold bind at 1. unfold change_page at 1, modify at 1.
  unfold bind at 1. unfold change_page at 1, modify at 1.
  unfold bind at 1. unfold get_state at 1. cbn [st with_page].
  unfold bind at 1. rewrite H.
  unfold bind, get_world, update, change_page, modify, save_session, ret, get_state.
  destruct (botIsTyping (st w)); destruct (no_waitStart (st w));
    destruct (truthy (final_message (st w))); reflexivity.
Qed.

Lemma rendered_session (ns : list node) (w : world) :
  chatMessages (st (rendered ns w)) = chatMessages (st w)
  /\ botIsTyping (st (rendered ns w)) = botIsTyping (st w)
  /\ final_message (st (rendered ns w)) = final_message (st w)
  /\ privacyAccepted (st (rendered ns w)) = privacyAccepted (st w)
  /\ fallbackTimer (st (rendered ns w)) = fallbackTimer (st w).
Proof.
  unfold rendered. cbn [st].
  destruct (botIsTyping (st w)) eqn:E; [destruct (no_waitStart (st w))|];
    cbn; rewrite ?E; repeat split; reflexivity.
Qed.

(** The renderer on a session it can draw. *)
Lemma renderMessages_ok (w : world) :
  renderable w ->
  exists ns,
    forall w0, chatMessages (st w0) = chatMessages (st w) ->
               renderMessages w0 = (Val tt, rendered ns w0).
Proof.
  intros Hr. destruct (append_messages_drawn _ Hr) as (ns & H).
  exists ns. intros w0 E. apply renderMessages_run. rewrite E. exact H.
Qed.

Lemma rendered_twice (ns : list node) (w : world) :
  rendered ns (rendered ns w) = rendered ns w.
Proof.
  destruct w as [[ci ai dv cs pa fm ms bt ws ft] sto [sh nds iv idis fp ch] c n rq tm nt fu bu].
  unfold rendered, no_waitStart, waitStart_number. cbn.
  destruct bt; cbn.
  - destruct ws as [t|]; cbn.
    + destruct (Z.eqb_spec t 0) as [E|E]; cbn.
      * destruct (Z.eqb_spec c 0); cbn; destruct (truthy fm); reflexivity.
      * apply Z.eqb_neq in E. rewrite E. cbn. destruct (truthy fm); reflexivity.
    + destruct (Z.eqb_spec c 0); cbn; destruct (truthy fm); reflexivity.
  - destruct (truthy fm); reflexivity.
Qed.

(** X11. A render of a session whose messages can be drawn ends normally:
    the widget is shown, the input is disabled exactly when the bot is
    typing or the conversation is final, a final conversation has the
    closing placeholder, the value of the input is untouched, and the
    stored session is the session as the render leaves it. *)
Theorem renderMessages_page (w : world) :
  renderable w ->
  exists w',
    renderMessages w = (Val tt, w')
    /\ widget_shown (page w') = true
    /\ input_disabled (page w') = botIsTyping (st w) || truthy (final_message (st w))
    /\ (truthy (final_message (st w)) = true -> final_placeholder (page w') = true)
    /\ input_value (page w') = input_value (page w)
    /\ storage w' = saveChatbotSession (st w').
Proof.
  intros Hr. destruct (renderMessages_ok w Hr) as (ns & H).
  exists (rendered ns w). split; [apply H; reflexivity|].
  unfold rendered. cbn [page widget_shown input_disabled final_placeholder input_value
                        storage st].
  repeat split. intros E. rewrite E. reflexivity.
Qed.

Lemma renderMessages_page_witness :
  exists w',
    renderMessages (Scenario.fresh_world []) = (Val tt, w')
    /\ widget_shown (page w') = true
    /\ input_disabled (page w') = true.
Proof.
  destruct (renderMessages_page (Scenario.fresh_world []) eq_refl)
    as (w' & E & Hs & Hd & _).
  exists w'. split; [exact E|]. split; [exact Hs | exact Hd].
Defined.

Lemma draw_append (msgs : list message) :
  forall ns, draw msgs = Val ns ->
  forall w0, append_messages msgs w0
             = (Val tt, with_page (fun d => set_nodes (nodes d ++ ns) d) w0).
Proof.
  induction msgs as [|m msgs IH]; intros ns H.
  - inversion H. intros [s sto [sh nds iv idis fp ch] c n rq tm nt fu bu].
    unfold with_page, set_nodes. cbn. rewrite app_nil_r. reflexivity.
  - cbn [draw] in H. cbn [append_messages].
    destruct (message_nodes m) as [a| |]; try discriminate H.
    destruct (draw msgs) as [b| |]; try discriminate H.
    inversion H. intros w0.
    unfold bind, change_page, modify. rewrite (IH b eq_refl).
    unfold with_page, set_nodes. cbn. rewrite <- app_assoc. reflexivity.
Qed.

Lemma draw_total (msgs : list message) :
  forallb drawable msgs = true -> exists ns, draw msgs = Val ns.
Proof.
  induction msgs as [|m msgs IH]; intros H; [exists []; reflexivity|].
  cbn [forallb] in H. apply andb_prop in H. destruct H as [Hm Hr].
  destruct (message_nodes_total m Hm) as (a & Ea). destruct (IH Hr) as (b & Eb).
  exists (a ++ b). cbn [draw]. rewrite Ea, Eb. reflexivity.
Qed.

(** The nodes drawn for messages hold no typing indicator. *)
Lemma draw_plain (msgs : list message) :
  forall ns, draw msgs = Val ns -> existsb is_waiting ns = false.
Proof.
  induction msgs as [|m msgs IH]; intros ns H; cbn [draw] in H.
  - inversion H. reflexivity.
  - destruct (message_nodes m) as [a| |] eqn:Ea; try discriminate H.
    destruct (draw msgs) as [b| |]; try discriminate H.
    inversion H. rewrite existsb_app, (IH b eq_refl), orb_false_r.
    unfold message_nodes in Ea. destruct (msg_sender m).
    + inversion Ea. reflexivity.
    + destruct (bot_blocks (msg_text m)) as [bs| |]; try discriminate Ea.
      inversion Ea. clear. induction bs as [|x bs IHbs]; [reflexivity|].
      cbn [map existsb is_waiting orb]. exact IHbs.
Qed.

Lemma draw_render (ns : list node) (w : world) :
  draw (chatMessages (st w)) = Val ns -> renderMessages w = (Val tt, rendered ns w).
Proof. intros H. apply renderMessages_run. now apply draw_append. Qed.

(** X12. Rendering again changes nothing, as long as no fallback phrase
    is drawn: when the bot is not typing, or has not been waiting for more
    than 8000 ms, the world a render leaves is a fixed point of
    [renderMessages] (while the clock stands still), and its page holds no
    fallback phrase. *)
Theorem renderMessages_idempotent (w : world) :
  renderable w ->
  (forall t, botIsTyping (st w) = true -> waitStart (st w) = Some t -> t <> 0%Z ->
             (clock w - t <= 8000)%Z) ->
  exists w',
    renderMessages w = (Val tt, w')
    /\ renderMessages w' = (Val tt, w')
    /\ ~ In (Waiting true) (nodes (page w')).
Proof.
  intros Hr Hwait. destruct (draw_total _ Hr) as (ns & Hns).
  exists (rendered ns w). split; [now apply draw_render|]. split.
  - rewrite (draw_render ns (rendered ns w))
      by (rewrite (proj1 (rendered_session ns w)); exact Hns).
    rewrite rendered_twice. reflexivity.
  - pose proof (draw_plain _ _ Hns) as Hp.
    assert (Hin : ~ In (Waiting true) ns).
    { intros Hin. assert (E : existsb is_waiting ns = true)
        by (apply existsb_exists; exists (Waiting true); split; [exact Hin | reflexivity]).
      congruence. }
    unfold rendered, no_waitStart, waitStart_number. cbn [page nodes].
    destruct (botIsTyping (st w)) eqn:Et; [|exact Hin].
    intros H. apply in_app_or in H. destruct H as [H|[H|[]]]; [now apply Hin|].
    revert H. destruct (waitStart (st w)) as [t|] eqn:Ew.
    + destruct (Z.eqb_spec t 0) as [E0|E0]; cbn [st waitStart set_waitStart].
      * rewrite Z.sub_diag. discriminate.
      * rewrite Ew. specialize (Hwait t eq_refl eq_refl E0).
        destruct (Z.ltb_spec 8000 (clock w - t)); [lia | discriminate].
    + cbn [st waitStart set_waitStart]. rewrite Z.sub_diag. discriminate.
Qed.

Lemma renderMessages_idempotent_witness :
  exists w',
    renderMessages Scenario.unreachable = (Val tt, w')
    /\ renderMessages w' = (Val tt, w')
    /\ ~ In (Waiting true) (nodes (page w')).
Proof.
  apply renderMessages_idempotent; [reflexivity|].
  intros t _ H. discriminate H.
Defined.

Lemma message_nodes_undrawable (m : message) :
  drawable m = false -> message_nodes m = Throw.
Proof.
  unfold drawable, message_nodes. destruct (msg_sender m); [discriminate|].
  destruct (msg_text m) as [[| | |s| |]|]; try discriminate; reflexivity.
Qed.

Lemma append_messages_undrawable (msgs : list message) :
  forallb drawable msgs = false ->
  forall w, exists w',
    append_messages msgs w = (Throw, w') /\ page_only w w' /\ storage w' = storage w.
Proof.
  induction msgs as [|m msgs IH]; intros H w; [discriminate H|].
  cbn [forallb] in H. cbn [append_messages].
  destruct (drawable m) eqn:Hm.
  - destruct (message_nodes_total m Hm) as (ns & E). rewrite E.
    unfold bind, change_page, modify.
    destruct (IH H (with_page (fun d => set_nodes (nodes d ++ ns) d) w))
      as (w' & E' & Hp & Hs).
    rewrite E'. exists w'. split; [reflexivity|]. split; [exact Hp | exact Hs].
  - rewrite (message_nodes_undrawable m Hm). exists w.
    unfold page_only. repeat split.
Qed.

Lemma renderMessages_undrawable (w : world) (m : message) :
  In m (chatMessages (st w)) -> msg_sender m = Bot -> is_string (msg_text m) = false ->
  exists w',
    renderMessages w = (Throw, w') /\ st w' = st w /\ storage w' = storage w
    /\ net w' = net w /\ requests w' = requests w.
Proof.
  intros Hin Hs Ht.
  assert (Hd : forallb drawable (chatMessages (st w)) = false).
  { destruct (forallb drawable (chatMessages (st w))) eqn:E; [|reflexivity].
    rewrite forallb_forall in E. specialize (E m Hin).
    unfold drawable in E. rewrite Hs in E.
    destruct (msg_text m) as [[| | |s| |]|]; discriminate. }
  unfold renderMessages.
  unfold bind at 1. unfold change_page at 1, modify at 1.
  unfold bind at 1. unfold change_page at 1, modify at 1.
  unfold bind at 1. unfold get_state at 1. cbn [st with_page].
  unfold bind at 1.
  destruct (append_messages_undrawable _ Hd
              (with_page (set_nodes []) (with_page (set_widget_shown true) w)))
    as (w' & E & (Hst & Hnet & Hreq & _) & Hsto).
  rewrite E. exists w'. split; [reflexivity|]. split; [exact Hst|].
  split; [exact Hsto|]. split; [exact Hnet | exact Hreq].
Qed.

(** X13. A bot message whose text is not a string makes the render throw
    (the splitter is called on it); the session is left as it was and is
    not stored. *)
Theorem renderMessages_throws (w : world) (m : message) :
  In m (chatMessages (st w)) -> msg_sender m = Bot -> is_string (msg_text m) = false ->
  exists w',
    renderMessages w = (Throw, w') /\ st w' = st w /\ storage w' = storage w.
Proof.
  intros Hin Hs Ht.
  destruct (renderMessages_undrawable w m Hin Hs Ht) as (w' & E & Hst & Hsto & _).
  exists w'. split; [exact E|]. split; [exact Hst | exact Hsto].
Qed.

Lemma renderMessages_throws_witness :
  exists w',
    renderMessages (with_st (push (bot_msg (Some (JNum (Fin 5))))) (Scenario.fresh_world []))
    = (Throw, w')
    /\ st w' = st (with_st (push (bot_msg (Some (JNum (Fin 5))))) (Scenario.fresh_world []))
    /\ storage w' = None.
Proof.
  apply (renderMessages_throws
           (with_st (push (bot_msg (Some (JNum (Fin 5))))) (Scenario.fresh_world []))
           (bot_msg (Some (JNum (Fin 5))))); [now left | reflexivity | reflexivity].
Defined.

(** ** The typing indicator *)

Lemma startTypingIndicator_run (w : world) (ns : list node) :
  (forall w0, chatMessages (st w0) = chatMessages (st w) ->
              renderMessages w0 = (Val tt, rendered ns w0)) ->
  startTypingIndicator w
  = (Val tt,
     with_st (set_fallbackTimer (Some (next_timer w)))
       (with_timers (timers w ++ [next_timer w]) (next_timer w + 1)
          (rendered ns (with_st (set_waitStart None) (with_st (set_botIsTyping true) w))))).
Proof.
  intros H. unfold startTypingIndicator. run.
  erewrite bind_val by (apply H; reflexivity).
  reflexivity.
Qed.

Lemma stopTypingIndicator_run (w : world) (ns : list node) :
  (forall w0, chatMessages (st w0) = chatMessages (st w) ->
              renderMessages w0 = (Val tt, rendered ns w0)) ->
  stopTypingIndicator w
  = (Val tt,
     rendered ns (with_st (set_waitStart None)
                    (snd (clearTimeout (fallbackTimer (st w))
                            (with_st (set_botIsTyping false) w))))).
Proof.
  intros H. unfold stopTypingIndicator. run.
  cbn [st with_st set_botIsTyping fallbackTimer].
  destruct (fallbackTimer (st w)) as [h|]; cbn [clearTimeout]; run;
    rewrite H by reflexivity; reflexivity.
Qed.

Lemma existsb_absent (h : Z) (l : list Z) : ~ In h l -> existsb (Z.eqb h) l = false.
Proof.
  intros H. destruct (existsb (Z.eqb h) l) eqn:E; [|reflexivity].
  apply existsb_exists in E. destruct E as (x & Hx & Ex).
  apply Z.eqb_eq in Ex. subst x. contradiction.
Qed.

Lemma filter_absent (h : Z) (l : list Z) : ~ In h (filter (fun x => negb (x =? h)%Z) l).
Proof.
  intros H. apply filter_In in H. destruct H as [_ H].
  rewrite Z.eqb_refl in H. discriminate H.
Qed.

(** X14. The timer armed by [startTypingIndicator] is the one
    [stopTypingIndicator] cancels: after a start and a stop the handle is
    no longer pending, the bot is not typing, and the fallback action of
    that timer does nothing. *)
Theorem typing_cycle_cancels_fallback (w : world) :
  renderable w ->
  exists h w1 w2,
    startTypingIndicator w = (Val tt, w1)
    /\ fallbackTimer (st w1) = Some h /\ In h (timers w1)
    /\ botIsTyping (st w1) = true
    /\ stopTypingIndicator w1 = (Val tt, w2)
    /\ ~ In h (timers w2)
    /\ botIsTyping (st w2) = false
    /\ fallback_fired h w2 = (Val tt, w2).
Proof.
  intros Hr. destruct (renderMessages_ok w Hr) as (ns & H).
  set (wa := rendered ns (with_st (set_waitStart None) (with_st (set_botIsTyping true) w))).
  set (w1 := with_st (set_fallbackTimer (Some (next_timer w)))
               (with_timers (timers w ++ [next_timer w]) (next_timer w + 1) wa)).
  assert (Hm1 : chatMessages (st w1) = chatMessages (st w))
    by (unfold w1, wa; cbn [st with_st with_timers chatMessages set_fallbackTimer];
        now rewrite (proj1 (rendered_session ns _))).
  assert (H1 : forall w0, chatMessages (st w0) = chatMessages (st w1) ->
                          renderMessages w0 = (Val tt, rendered ns w0))
    by (intros w0 E; apply H; congruence).
  set (w2 := rendered ns (with_st (set_waitStart None)
                            (snd (clearTimeout (fallbackTimer (st w1))
                                    (with_st (set_botIsTyping false) w1))))).
  assert (Ht2 : timers w2 = filter (fun x => negb (x =? next_timer w)%Z)
                                   (timers w ++ [next_timer w])) by reflexivity.
  exists (next_timer w), w1, w2.
  split; [exact (startTypingIndicator_run w ns H)|].
  split; [reflexivity|].
  split; [unfold w1, wa; cbn [timers with_st with_timers rendered]; apply in_or_app; right; now left|].
  split; [unfold w1, wa; cbn [st with_st with_timers botIsTyping set_fallbackTimer];
          now rewrite (proj1 (proj2 (rendered_session ns _)))|].
  split; [exact (stopTypingIndicator_run w1 ns H1)|].
  split; [rewrite Ht2; apply filter_absent|].
  split; [unfold w2; now rewrite (proj1 (proj2 (rendered_session ns _)))|].
  unfold fallback_fired. run.
  rewrite existsb_absent by (rewrite Ht2; apply filter_absent). reflexivity.
Qed.

Lemma typing_cycle_cancels_fallback_witness :
  exists h w1 w2,
    startTypingIndicator (Scenario.fresh_world []) = (Val tt, w1)
    /\ In h (timers w1)
    /\ stopTypingIndicator w1 = (Val tt, w2)
    /\ fallback_fired h w2 = (Val tt, w2).
Proof.
  destruct (typing_cycle_cancels_fallback (Scenario.fresh_world []) eq_refl)
    as (h & w1 & w2 & E1 & _ & Hin & _ & E2 & _ & _ & E3).
  exists h, w1, w2. repeat split; assumption.
Defined.

(** The nodes drawn for the messages are message nodes. *)
Lemma append_messages_drawn_plain (msgs : list message) :
  forallb drawable msgs = true ->
  exists ns,
    patch_indicator ns = None
    /\ forall w0, append_messages msgs w0
                  = (Val tt, with_page (fun d => set_nodes (nodes d ++ ns) d) w0).
Proof.
  induction msgs as [|m msgs IH]; intros H.
  - exists []. split; [reflexivity|].
    intros [s sto [sh ns iv idis fp ch] c n rq tm nt fu bu].
    unfold with_page, set_nodes. cbn. rewrite app_nil_r. reflexivity.
  - cbn [forallb] in H. apply andb_prop in H. destruct H as [Hm Hr].
    destruct (IH Hr) as (ns2 & Hp2 & E2).
    assert (H1 : exists ns1,
               message_nodes m = Val ns1
               /\ forall r, patch_indicator (ns1 ++ r) = option_map (app ns1) (patch_indicator r)).
    { unfold message_nodes. unfold drawable in Hm. destruct (msg_sender m).
      - eexists. split; [reflexivity|]. intros r. cbn.
        destruct (patch_indicator r); reflexivity.
      - destruct (msg_text m) as [[| | |s| |]|]; try discriminate.
        destruct (bot_blocks_total s) as (bs & ->). eexists. split; [reflexivity|].
        intros r. induction bs as [|x bs IHbs]; cbn [map app patch_indicator].
        + destruct (patch_indicator r); reflexivity.
        + rewrite IHbs. destruct (patch_indicator r); reflexivity. }
    destruct H1 as (ns1 & E1 & Hp1).
    exists (ns1 ++ ns2). split; [rewrite Hp1, Hp2; reflexivity|].
    intros w0. cbn [append_messages]. rewrite E1.
    unfold bind, change_page, modify. rewrite E2.
    unfold with_page, set_nodes. cbn. rewrite <- app_assoc. reflexivity.
Qed.

Lemma patch_last (ns : list node) (b : bool) :
  patch_indicator ns = None ->
  patch_indicator (ns ++ [Waiting b]) = Some (ns ++ [Waiting true]).
Proof.
  induction ns as [|n ns IH]; intros H; [reflexivity|].
  destruct n as [x|x|x]; cbn in H |- *; try discriminate H;
    (destruct (patch_indicator ns); [discriminate H|]; rewrite IH by reflexivity;
     reflexivity).
Qed.

(** X15. When the timer armed by [startTypingIndicator] fires while the
    bot is still typing, the waiting indicator at the end of the message
    list is replaced by a fallback phrase; the messages drawn before it and
    the session are left as they are, and the handle is used up. *)
Theorem fallback_replaces_indicator (w : world) :
  renderable w ->
  exists h ns w1 w2,
    startTypingIndicator w = (Val tt, w1)
    /\ fallbackTimer (st w1) = Some h
    /\ nodes (page w1) = ns ++ [Waiting false]
    /\ fallback_fired h w1 = (Val tt, w2)
    /\ nodes (page w2) = ns ++ [Waiting true]
    /\ st w2 = st w1
    /\ ~ In h (timers w2).
Proof.
  intros Hr. destruct (append_messages_drawn_plain _ Hr) as (ns & Hp & Happ).
  assert (H : forall w0, chatMessages (st w0) = chatMessages (st w) ->
                         renderMessages w0 = (Val tt, rendered ns w0))
    by (intros w0 E; apply renderMessages_run; rewrite E; exact Happ).
  set (w1 := with_st (set_fallbackTimer (Some (next_timer w)))
               (with_timers (timers w ++ [next_timer w]) (next_timer w + 1)
                  (rendered ns (with_st (set_waitStart None)
                                  (with_st (set_botIsTyping true) w))))).
  assert (Hn1 : nodes (page w1) = ns ++ [Waiting false]).
  { unfold w1, rendered. cbn. rewrite Z.sub_diag. reflexivity. }
  assert (Ht1 : timers w1 = timers w ++ [next_timer w]) by reflexivity.
  assert (Hb1 : botIsTyping (st w1) = true) by reflexivity.
  exists (next_timer w), ns, w1.
  eexists. split; [exact (startTypingIndicator_run w ns H)|].
  split; [reflexivity|]. split; [exact Hn1|].
  unfold fallback_fired. run. rewrite Ht1, existsb_app. cbn [existsb].
  rewrite Z.eqb_refl, orb_true_r. cbn [orb clearTimeout]. run.
  rewrite Hb1, Hn1, (patch_last ns false Hp). run.
  split; [reflexivity|]. cbn [page with_page nodes set_nodes st timers with_timers].
  split; [reflexivity|]. split; [reflexivity|].
  rewrite Ht1. apply filter_absent.
Qed.

Lemma fallback_replaces_indicator_witness :
  exists h ns w1 w2,
    startTypingIndicator Scenario.unreachable = (Val tt, w1)
    /\ fallback_fired h w1 = (Val tt, w2)
    /\ nodes (page w2) = ns ++ [Waiting true].
Proof.
  destruct (fallback_replaces_indicator Scenario.unreachable eq_refl)
    as (h & ns & w1 & w2 & E1 & _ & _ & E2 & Hn & _).
  exists h, ns, w1, w2. repeat split; assumption.
Defined.

(* ===================================================================== *)
(** * Further properties of the transport client                          *)
(* ===================================================================== *)

Lemma prop_member (j : json) (k : string) (w : world) :
  j <> JNull -> prop j k w = (Val (member j k), w).
Proof. intros H. destruct j; try reflexivity. congruence. Qed.

Lemma drawable_string (v : jsval) : is_string v = true -> drawable (bot_msg v) = true.
Proof. destruct v as [[| | |s| |]|]; try discriminate; reflexivity. Qed.

Lemma startChat_ok (w : world) (t status : Z) (j : json)
        (rest : list (Z * fetch_result)) :
  net w = (t, Response status (Some j)) :: rest -> j <> JNull -> renderable w ->
  (truthy (member j "message") = true -> is_string (member j "message") = true) ->
  exists w',
    startChat w = (Val true, w')
    /\ chat_id (st w') = member j "id"
    /\ data_var (st w') = member j "data"
    /\ chatStarted (st w') = true
    /\ chatMessages (st w')
       = chatMessages (st w)
         ++ (if truthy (member j "message") then [bot_msg (member j "message")] else [])
    /\ botIsTyping (st w')
       = (if truthy (member j "message") then false else botIsTyping (st w))
    /\ requests w' = requests w ++ [start_request w]
    /\ net w' = rest.
Proof.
  intros Hnet Hj Hr Hmsg.
  set (w2 := with_net t rest (with_request (start_request w) w)).
  set (w3 := with_st (set_waitStart None)
               (with_st (set_chatStarted true)
                  (with_st (set_data_var (member j "data"))
                     (with_st (set_chat_id (member j "id")) w2)))).
  assert (Hbody : forall T (k : jsval -> M T),
             (w0 <- get_world ;;
              resp <- fetch {| req_url := ChatNew (BACKEND_URL w0); req_body := None |} ;;
              backend_result <- resp_json resp ;;
              id <- prop backend_result "id" ;;
              update (set_chat_id id) ;;
              data <- prop backend_result "data" ;;
              update (set_data_var data) ;;
              update (set_chatStarted true) ;;
              update (set_waitStart None) ;;
              message <- prop backend_result "message" ;;
              k message) w
             = k (member j "message") w3).
  { intros T k. run. unfold bind at 1. unfold fetch. cbn [net with_request]. rewrite Hnet.
    fold (start_request w). fold w2. run.
    erewrite bind_val by (apply prop_member; exact Hj). run.
    erewrite bind_val by (apply prop_member; exact Hj). run.
    erewrite bind_val by (apply prop_member; exact Hj). reflexivity. }
  unfold startChat.
  destruct (truthy (member j "message")) eqn:Et.
  - set (w4 := with_st (set_botIsTyping false)
                 (with_st (push (bot_msg (member j "message"))) w3)).
    assert (Hr4 : renderable w4).
    { apply (drawable_push (bot_msg (member j "message")) (w := w3));
        [apply drawable_string; now apply Hmsg | exact Hr]. }
    destruct (renderMessages_draws w4) as (o & w5 & E5 & Hd5 & Ht5 & Hok5).
    destruct (Hok5 Hr4) as ([] & ->).
    exists w5. split.
    + apply try_val. rewrite Hbody. rewrite Et. run. fold w4.
      erewrite bind_val by exact E5. reflexivity.
    + unfold dom_step in Hd5. cbn in Hd5, Ht5. cbn. intuition congruence.
  - exists w3. split.
    + apply try_val. rewrite Hbody. rewrite Et. reflexivity.
    + cbn. rewrite app_nil_r. repeat split.
Qed.

(** X16. A response to [/chat/new] whose body is JSON and not [null]
    starts the chat, whatever its status: [startChat] returns [true],
    adopts [id] and [data] as the body has them ([undefined] when it has
    not), and appends the greeting when the body has one; the typing flag
    is cleared only then. *)
Theorem startChat_adopts (w : world) (t status : Z) (j : json)
        (rest : list (Z * fetch_result)) :
  net w = (t, Response status (Some j)) :: rest -> j <> JNull -> renderable w ->
  (truthy (member j "message") = true -> is_string (member j "message") = true) ->
  exists w',
    startChat w = (Val true, w')
    /\ chat_id (st w') = member j "id"
    /\ data_var (st w') = member j "data"
    /\ chatStarted (st w') = true
    /\ chatMessages (st w')
       = chatMessages (st w)
         ++ (if truthy (member j "message") then [bot_msg (member j "message")] else [])
    /\ botIsTyping (st w')
       = (if truthy (member j "message") then false else botIsTyping (st w))
    /\ requests w' = requests w ++ [start_request w]
    /\ net w' = rest.
Proof. exact (startChat_ok w t status j rest). Qed.

Lemma startChat_adopts_witness :
  exists w',
    startChat (Scenario.fresh_world [(1%Z, Response 200 (Some Scenario.greeting_body))])
    = (Val true, w')
    /\ chat_id (st w') = Some (Scenario.jstr "c1")
    /\ chatMessages (st w') = [bot_msg (Some (Scenario.jstr "Hi"))]
    /\ botIsTyping (st w') = false.
Proof.
  destruct (startChat_adopts
              (Scenario.fresh_world [(1%Z, Response 200 (Some Scenario.greeting_body))])
              1%Z 200%Z Scenario.greeting_body [] eq_refl)
    as (w' & E & Hc & _ & _ & Hm & Ht & _);
    [discriminate | reflexivity | reflexivity |].
  exists w'. split; [exact E|]. split; [exact Hc|]. split; [exact Hm | exact Ht].
Defined.

Lemma stopTypingIndicator_throws (w : world) (m : message) :
  In m (chatMessages (st w)) -> msg_sender m = Bot -> is_string (msg_text m) = false ->
  exists w', stopTypingIndicator w = (Throw, w') /\ dom_step w w'.
Proof.
  intros Hin Hs Ht.
  destruct (stopTypingIndicator_draws w) as (o & w' & E & Hd & _).
  exists w'. split; [|exact Hd]. rewrite E. f_equal.
  unfold stopTypingIndicator in E. revert E. run.
  cbn [st with_st set_botIsTyping fallbackTimer].
  destruct (clearTimeout_run (fallbackTimer (st w)) (with_st (set_botIsTyping false) w))
    as (w1 & E1 & Hst1 & _).
  erewrite bind_val by exact E1. run.
  destruct (renderMessages_undrawable (with_st (set_waitStart None) w1) m) as (w2 & E2 & _);
    [cbn; rewrite Hst1; exact Hin | exact Hs | exact Ht |].
  rewrite E2. intros E. inversion E. reflexivity.
Qed.

(** X17. A greeting that is not a string is not handled: [startChat]
    appends it, the render throws on it, and so does the render of the
    [catch] block after the apology has been appended.  [startChat] ends
    with an exception instead of [false], the chat counts as started, and
    the message list holds a message no later render can draw. *)
Theorem startChat_bad_greeting (w : world) (t status : Z) (j : json)
        (rest : list (Z * fetch_result)) :
  net w = (t, Response status (Some j)) :: rest -> j <> JNull ->
  truthy (member j "message") = true -> is_string (member j "message") = false ->
  exists w',
    startChat w = (Throw, w')
    /\ chatMessages (st w')
       = chatMessages (st w) ++ [bot_msg (member j "message"); start_apology]
    /\ chatStarted (st w') = true
    /\ chat_id (st w') = member j "id"
    /\ (exists w'', renderMessages w' = (Throw, w'')).
Proof.
  intros Hnet Hj Et Hs.
  set (bad := bot_msg (member j "message")).
  set (w2 := with_net t rest (with_request (start_request w) w)).
  set (w3 := with_st (set_waitStart None)
               (with_st (set_chatStarted true)
                  (with_st (set_data_var (member j "data"))
                     (with_st (set_chat_id (member j "id")) w2)))).
  set (w4 := with_st (set_botIsTyping false) (with_st (push bad) w3)).
  destruct (renderMessages_undrawable w4 bad) as (w5 & E5 & Hst5 & _);
    [cbn; apply in_or_app; right; now left | reflexivity | exact Hs |].
  set (w6 := with_st (set_botIsTyping true) (with_st (push start_apology) w5)).
  assert (Hm6 : chatMessages (st w6) = chatMessages (st w) ++ [bad; start_apology]).
  { unfold w6. cbn. rewrite Hst5. cbn. rewrite <- app_assoc. reflexivity. }
  destruct (renderMessages_undrawable w6 bad) as (w7 & E7 & Hst7 & _);
    [rewrite Hm6; apply in_or_app; right; now left | reflexivity | exact Hs |].
  exists w7. split; [|split; [|split; [|split]]].
  - unfold startChat.
    match goal with
    | |- context [try_catch ?b ?h] => assert (Hbody : b w = (Throw, w5))
    end.
    { run. unfold bind at 1. unfold fetch. cbn [net with_request]. rewrite Hnet.
      fold (start_request w). fold w2. run.
      erewrite bind_val by (apply prop_member; exact Hj). run.
      erewrite bind_val by (apply prop_member; exact Hj). run.
      erewrite bind_val by (apply prop_member; exact Hj). rewrite Et.
      rewrite bind_assoc. run. rewrite bind_assoc. run.
      fold bad. fold w3. fold w4.
      erewrite bind_throw by exact E5. reflexivity. }
    erewrite try_throw by exact Hbody. run. fold w6.
    erewrite bind_throw by exact E7. reflexivity.
  - rewrite Hst7. exact Hm6.
  - rewrite Hst7. unfold w6. cbn. rewrite Hst5. reflexivity.
  - rewrite Hst7. unfold w6. cbn. rewrite Hst5. reflexivity.
  - destruct (renderMessages_undrawable w7 bad) as (w8 & E8 & _);
      [rewrite Hst7, Hm6; apply in_or_app; right; now left | reflexivity | exact Hs |].
    exists w8. exact E8.
Qed.

Lemma startChat_bad_greeting_witness :
  exists w',
    startChat (Scenario.fresh_world
                 [(1%Z, Response 200 (Some (Scenario.obj [("message"%string, JNum (Fin 5))])))])
    = (Throw, w')
    /\ chatStarted (st w') = true.
Proof.
  destruct (startChat_bad_greeting
              (Scenario.fresh_world
                 [(1%Z, Response 200 (Some (Scenario.obj [("message"%string, JNum (Fin 5))])))])
              1%Z 200%Z (Scenario.obj [("message"%string, JNum (Fin 5))]) [] eq_refl)
    as (w' & E & _ & Hc & _); [discriminate | reflexivity | reflexivity |].
  exists w'. split; [exact E | exact Hc].
Defined.

(** X18. A turn that is answered sets [final_message] to what the body
    has under [meta.final_message], or to [false] when that is absent or
    falsy; the input is left disabled exactly when the conversation is
    final, and a final conversation shows the closing placeholder. *)
Theorem sendChatMessage_final (u : jsstring) (w : world) (t status : Z)
        (fields : list (jsstring * json)) (mj : json) (m : jsstring)
        (rest : list (Z * fetch_result)) :
  net w = (t, Response status (Some (JObj fields))) :: rest ->
  lookup (str "meta") fields = Some mj -> mj <> JNull ->
  lookup (str "message") fields = Some (JStr m) ->
  renderable w ->
  exists w',
    sendChatMessage u w = (Val true, w')
    /\ final_message (st w')
       = (if truthy (member mj "final_message") then member mj "final_message"
          else Some (JBool false))
    /\ input_disabled (page w') = truthy (member mj "final_message")
    /\ (truthy (member mj "final_message") = true -> final_placeholder (page w') = true)
    /\ chatMessages (st w') = chatMessages (st w) ++ [bot_msg (Some (JStr m))]
    /\ chat_id (st w') = lookup (str "id") fields
    /\ data_var (st w') = lookup (str "data") fields.
Proof.
  intros Hnet Hmeta Hmj Hmsg Hr.
  set (fm := member mj "final_message").
  set (w2 := with_net t rest (with_request (send_request w u) w)).
  set (w3 := with_st (set_final_message (if truthy fm then fm else Some (JBool false))) w2).
  destruct (stopTypingIndicator_draws w3) as (o4 & w4 & E4 & Hd4 & Ht4 & Hok4).
  destruct (Hok4 Hr) as ([] & ->).
  set (w5 := with_st (push (bot_msg (Some (JStr m)))) w4).
  assert (Hr5 : renderable w5).
  { apply drawable_push; [reflexivity|]. now apply (renderable_step Hd4). }
  destruct (renderMessages_ok w5 Hr5) as (ns & H5).
  specialize (H5 w5 eq_refl).
  exists (with_st (set_data_var (lookup (str "data") fields))
            (with_st (set_chat_id (lookup (str "id") fields)) (rendered ns w5))).
  unfold dom_step in Hd4. cbn in Hd4, Ht4.
  destruct Hd4 as (_ & _ & _ & _ & _ & Hf4 & Hm4 & _).
  split; [|split; [|split; [|split; [|split; [|split]]]]].
  - unfold sendChatMessage. apply try_val. run. unfold bind at 1. unfold fetch.
    cbn [net with_request]. rewrite Hnet. fold (send_request w u). fold w2. run.
    rewrite Hmeta. cbn [prop_of].
    erewrite bind_val by (apply prop_member; exact Hmj). run. fold fm. fold w3.
    erewrite bind_val by exact E4. run. rewrite Hmsg. run. fold w5.
    erewrite bind_val by exact H5. run. reflexivity.
  - cbn [st with_st final_message set_data_var set_chat_id].
    rewrite (proj1 (proj2 (proj2 (rendered_session ns w5)))).
    unfold w5. cbn. exact Hf4.
  - cbn. rewrite Ht4, Hf4. cbn. destruct (truthy fm) eqn:E; [exact E | reflexivity].
  - intros E. cbn. rewrite Hf4. cbn. fold fm in E. rewrite E. cbn. rewrite E. reflexivity.
  - cbn [st with_st chatMessages set_data_var set_chat_id].
    rewrite (proj1 (rendered_session ns w5)). unfold w5. cbn. now rewrite Hm4.
  - reflexivity.
  - reflexivity.
Qed.

Lemma sendChatMessage_final_witness :
  exists w',
    sendChatMessage (str "Hallo")
      (Scenario.fresh_world
         [(1%Z, Response 200
                  (Some (Scenario.obj
                           [("message"%string, Scenario.jstr "Danke");
                            ("meta"%string,
                             Scenario.obj [("final_message"%string, JBool true)])])))])
    = (Val true, w')
    /\ final_message (st w') = Some (JBool true)
    /\ input_disabled (page w') = true.
Proof.
  destruct (sendChatMessage_final (str "Hallo")
              (Scenario.fresh_world
                 [(1%Z, Response 200
                          (Some (Scenario.obj
                                   [("message"%string, Scenario.jstr "Danke");
                                    ("meta"%string,
                                     Scenario.obj [("final_message"%string, JBool true)])])))])
              1%Z 200%Z _ (Scenario.obj [("final_message"%string, JBool true)])
              (str "Danke") [] eq_refl eq_refl)
    as (w' & E & Hf & Hd & _); [discriminate | reflexivity | reflexivity |].
  exists w'. split; [exact E|]. split; [exact Hf | exact Hd].
Defined.

Lemma sendChatMessage_unhandled (u : jsstring) (w : world) (t status : Z)
        (fields : list (jsstring * json)) (rest : list (Z * fetch_result)) :
  net w = (t, Response status (Some (JObj fields))) :: rest ->
  has_meta (JObj fields) = true ->
  is_string (lookup (str "message") fields) = false ->
  renderable w ->
  exists w',
    sendChatMessage u w = (Throw, w')
    /\ chatMessages (st w')
       = chatMessages (st w) ++ [bot_msg (lookup (str "message") fields); send_apology]
    /\ chat_id (st w') = chat_id (st w)
    /\ requests w' = requests w ++ [send_request w u]
    /\ net w' = rest.
Proof.
  intros Hnet Hmeta Hs Hr.
  set (bad := bot_msg (lookup (str "message") fields)).
  destruct (read_meta fields Hmeta) as (fm & Hfm).
  set (w2 := with_net t rest (with_request (send_request w u) w)).
  set (w3 := with_st (set_final_message (if truthy fm then fm else Some (JBool false))) w2).
  destruct (stopTypingIndicator_draws w3) as (o4 & w4 & E4 & Hd4 & Ht4 & Hok4).
  destruct (Hok4 Hr) as ([] & ->).
  set (w5 := with_st (push bad) w4).
  destruct (renderMessages_undrawable w5 bad) as (w6 & E6 & Hst6 & _ & Hn6 & Hq6);
    [cbn; apply in_or_app; right; now left | reflexivity | exact Hs |].
  set (w7 := with_st (push send_apology) w6).
  unfold dom_step in Hd4. cbn in Hd4.
  destruct Hd4 as (Hc4 & _ & _ & _ & _ & _ & Hm4 & Hn4 & Hq4 & _).
  assert (Hm7 : chatMessages (st w7) = chatMessages (st w) ++ [bad; send_apology]).
  { unfold w7. cbn. rewrite Hst6. cbn. rewrite Hm4, <- app_assoc. reflexivity. }
  destruct (stopTypingIndicator_throws w7 bad) as (w8 & E8 & Hd8);
    [rewrite Hm7; apply in_or_app; right; now left | reflexivity | exact Hs |].
  exists w8. split; [|split; [|split; [|split]]].
  - unfold sendChatMessage.
    match goal with
    | |- context [try_catch ?b ?h] => assert (Hbody : b w = (Throw, w6))
    end.
    { run. unfold bind at 1. unfold fetch. cbn [net with_request]. rewrite Hnet.
      fold (send_request w u). fold w2. run.
      erewrite bind_val by apply Hfm. run. fold w3.
      erewrite bind_val by exact E4. run. fold bad. fold w5.
      erewrite bind_throw by exact E6. reflexivity. }
    erewrite try_throw by exact Hbody. run. fold w7.
    erewrite bind_throw by exact E8. reflexivity.
  - unfold dom_step in Hd8. destruct Hd8 as (_ & _ & _ & _ & _ & _ & Hm8 & _).
    rewrite Hm8. exact Hm7.
  - unfold dom_step in Hd8. destruct Hd8 as (Hc8 & _).
    rewrite Hc8. unfold w7. cbn. rewrite Hst6. cbn. exact Hc4.
  - unfold dom_step in Hd8. destruct Hd8 as (_ & _ & _ & _ & _ & _ & _ & _ & Hq8 & _).
    rewrite Hq8. unfold w7. cbn. rewrite Hq6. unfold w5. cbn. rewrite Hq4. reflexivity.
  - unfold dom_step in Hd8. destruct Hd8 as (_ & _ & _ & _ & _ & _ & _ & Hn8 & _).
    rewrite Hn8. unfold w7. cbn. rewrite Hn6. unfold w5. cbn. rewrite Hn4. reflexivity.
Qed.

(** X19. A reply whose [message] is not a string is not handled: the
    message is appended, the render throws on it, and the [catch] block
    throws again at its own render.  [sendChatMessage] ends with an
    exception instead of [false]; the apology is appended after the
    message, and [id] is not adopted. *)
Theorem sendChatMessage_bad_reply (u : jsstring) (w : world) (t status : Z)
        (fields : list (jsstring * json)) (rest : list (Z * fetch_result)) :
  net w = (t, Response status (Some (JObj fields))) :: rest ->
  has_meta (JObj fields) = true ->
  is_string (lookup (str "message") fields) = false ->
  renderable w ->
  exists w',
    sendChatMessage u w = (Throw, w')
    /\ chatMessages (st w')
       = chatMessages (st w) ++ [bot_msg (lookup (str "message") fields); send_apology]
    /\ chat_id (st w') = chat_id (st w)
    /\ requests w' = requests w ++ [send_request w u].
Proof.
  intros Hnet Hmeta Hs Hr.
  destruct (sendChatMessage_unhandled u w t status fields rest Hnet Hmeta Hs Hr)
    as (w' & E & Hm & Hc & Hq & _).
  exists w'. split; [exact E|]. split; [exact Hm|]. split; [exact Hc | exact Hq].
Qed.

Lemma sendChatMessage_bad_reply_witness :
  exists w',
    sendChatMessage (str "Hallo")
      (Scenario.fresh_world
         [(1%Z, Response 200 (Some (Scenario.obj [("meta"%string, JObj [])])))])
    = (Throw, w')
    /\ chatMessages (st w') = [bot_msg undefined; send_apology].
Proof.
  destruct (sendChatMessage_bad_reply (str "Hallo")
              (Scenario.fresh_world
                 [(1%Z, Response 200 (Some (Scenario.obj [("meta"%string, JObj [])])))])
              1%Z 200%Z _ [] eq_refl eq_refl eq_refl eq_refl)
    as (w' & E & Hm & _).
  exists w'. split; [exact E | exact Hm].
Defined.

(* ===================================================================== *)
(** * Further properties of the bootstrap and of the submit handler       *)
(* ===================================================================== *)

(** The submit handler up to the test of [chat_id], with what it leaves
    in the input. *)
Lemma submit_prelude_input (w : world) (userEntry : jsstring) (T : Type)
      (k : state -> M T) :
  renderable w ->
  exists w1,
    (update (push (user_msg userEntry)) ;; renderMessages ;; startTypingIndicator ;;
     change_page (set_input_value []) ;; s <- get_state ;; k s) w
    = k (st w1) w1
    /\ renderable w1
    /\ chatMessages (st w1) = chatMessages (st w) ++ [user_msg userEntry]
    /\ chat_id (st w1) = chat_id (st w)
    /\ asked_info (st w1) = asked_info (st w)
    /\ data_var (st w1) = data_var (st w)
    /\ net w1 = net w
    /\ requests w1 = requests w
    /\ BACKEND_URL w1 = BACKEND_URL w
    /\ input_value (page w1) = [].
Proof.
  intros Hr. run.
  set (w0 := with_st (push (user_msg userEntry)) w).
  assert (Hr0 : renderable w0) by (apply drawable_push; [reflexivity | exact Hr]).
  destruct (renderMessages_draws w0) as (o1 & w1 & E1 & Hd1 & Ht1 & Hok1).
  destruct (Hok1 Hr0) as ([] & ->). erewrite bind_val by exact E1.
  assert (Hr1 : renderable w1) by now apply (renderable_step Hd1).
  destruct (startTypingIndicator_draws w1) as (o2 & w2 & E2 & Hd2 & Ht2 & Hok2).
  destruct (Hok2 Hr1) as ([] & ->). erewrite bind_val by exact E2. run.
  exists (with_page (set_input_value []) w2). split; [reflexivity|].
  pose proof (dom_step_trans Hd1 Hd2) as Hd. unfold dom_step in Hd. cbn in Hd.
  split; [unfold renderable in *; cbn;
          now replace (chatMessages (st w2)) with (chatMessages (st w0))
            by (symmetry; apply Hd)|].
  cbn. intuition congruence.
Qed.

Lemma startChat_fails_url (w : world) (t : Z) (r : fetch_result)
      (rest : list (Z * fetch_result)) :
  net w = (t, r) :: rest -> transport_failure r = true -> renderable w ->
  exists w',
    startChat w = (Val false, w')
    /\ renderable w'
    /\ chatMessages (st w') = chatMessages (st w) ++ [start_apology]
    /\ net w' = rest
    /\ requests w' = requests w ++ [start_request w]
    /\ chat_id (st w') = chat_id (st w)
    /\ chatStarted (st w') = chatStarted (st w)
    /\ BACKEND_URL w' = BACKEND_URL w.
Proof.
  intros Hnet Hfail Hr.
  set (w2 := with_net t rest (with_request (start_request w) w)).
  unfold startChat.
  match goal with
  | |- context [try_catch ?b ?h] => assert (Hbody : b w = (Throw, w2))
  end.
  { run. unfold bind at 1. unfold fetch. cbn [net with_request]. rewrite Hnet.
    fold (start_request w). fold w2.
    destruct r as [|status [j|]]; [reflexivity|discriminate|reflexivity]. }
  erewrite try_throw by exact Hbody.
  destruct (@start_catch_run w2) as (w' & E & Hd & Ht); [exact Hr|].
  exists w'. split; [exact E|]. unfold dom_step in Hd. cbn in Hd.
  assert (Hm : chatMessages (st w') = chatMessages (st w) ++ [start_apology])
    by intuition congruence.
  split; [unfold renderable in *; rewrite Hm, forallb_app, Hr; reflexivity|].
  intuition congruence.
Qed.

(** X21. The bootstrap against a backend that fails three times: three
    requests to [/chat/new] of the backend it was given, three apologies
    and then the give-up message, the chat not started, and the session
    stored as it is left. *)
Theorem bootstrap_gives_up (f b : option jsstring) (w : world)
        (t1 t2 t3 : Z) (r1 r2 r3 : fetch_result) (rest : list (Z * fetch_result)) :
  chatStarted (st w) = false -> renderable w ->
  net w = (t1, r1) :: (t2, r2) :: (t3, r3) :: rest ->
  transport_failure r1 = true -> transport_failure r2 = true ->
  transport_failure r3 = true ->
  exists w',
    startNewChatIfNeeded f b w = (Val tt, w')
    /\ requests w'
       = requests w ++ repeat {| req_url := ChatNew b; req_body := None |} 3
    /\ chatMessages (st w')
       = chatMessages (st w) ++ [start_apology; start_apology; start_apology; start_giveup]
    /\ chatStarted (st w') = false
    /\ chat_id (st w') = chat_id (st w)
    /\ storage w' = saveChatbotSession (st w')
    /\ net w' = rest.
Proof.
  intros Hcs Hr Hnet H1 H2 H3.
  unfold startNewChatIfNeeded, setFrontendUrl, setBackendUrl. run.
  cbn [st with_urls BACKEND_URL FRONTEND_URL]. rewrite Hcs.
  set (w0 := with_urls f b (with_urls f (BACKEND_URL w) w)).
  assert (Hr0 : renderable w0) by exact Hr.
  destruct (renderMessages_draws w0) as (o1 & w1 & E1 & Hd1 & _ & Hok1).
  destruct (Hok1 Hr0) as ([] & ->). erewrite bind_val by exact E1.
  assert (Hr1 : renderable w1) by now apply (renderable_step Hd1).
  unfold dom_step in Hd1. cbn in Hd1.
  destruct Hd1 as (Hc1 & _ & _ & Hs1 & _ & _ & Hm1 & Hn1 & Hq1 & Hb1 & _).
  rewrite Hnet in Hn1.
  destruct (startChat_fails_url w1 t1 r1 _ Hn1 H1 Hr1)
    as (w2 & E2 & Hr2 & Hm2 & Hn2 & Hq2 & Hc2 & Hs2 & Hb2).
  destruct (startChat_fails_url w2 t2 r2 _ Hn2 H2 Hr2)
    as (w3 & E3 & Hr3 & Hm3 & Hn3 & Hq3 & Hc3 & Hs3 & Hb3).
  destruct (startChat_fails_url w3 t3 r3 _ Hn3 H3 Hr3)
    as (w4 & E4 & Hr4 & Hm4 & Hn4 & Hq4 & Hc4 & Hs4 & Hb4).
  erewrite bind_val by exact E2. cbn [negb].
  rewrite bind_assoc. erewrite bind_val by exact E3. cbn [negb].
  rewrite bind_assoc. erewrite bind_val by exact E4. cbn [negb].
  rewrite bind_assoc. run.
  assert (Hr5 : renderable (with_st (push start_giveup) w4))
    by (apply drawable_push; [reflexivity | exact Hr4]).
  destruct (renderMessages_draws (with_st (push start_giveup) w4))
    as (o5 & w5 & E5 & Hd5 & _ & Hok5).
  destruct (Hok5 Hr5) as ([] & ->).
  erewrite bind_val by exact E5. run.
  unfold dom_step in Hd5. cbn in Hd5.
  destruct Hd5 as (Hc5 & _ & _ & Hs5 & _ & _ & Hm5 & Hn5 & Hq5 & _).
  eexists. split; [reflexivity|]. cbn.
  unfold start_request in Hq2, Hq3, Hq4. rewrite Hb3 in Hq4. rewrite Hb2 in Hq4, Hq3.
  rewrite Hb1 in Hq4, Hq3, Hq2. cbn in Hq4, Hq3, Hq2.
  split; [rewrite Hq5, Hq4, Hq3, Hq2, Hq1, <- !app_assoc; reflexivity|].
  split; [rewrite Hm5, Hm4, Hm3, Hm2, Hm1, <- !app_assoc; reflexivity|].
  split; [congruence|]. split; [congruence|]. split; [reflexivity | congruence].
Qed.

Lemma bootstrap_gives_up_witness :
  exists w',
    startNewChatIfNeeded None (Some (str "http://backend"))
      (Scenario.fresh_world [(1%Z, NetworkError); (2%Z, NetworkError); (3%Z, NetworkError)])
    = (Val tt, w')
    /\ List.length (requests w') = 3
    /\ chatStarted (st w') = false.
Proof.
  destruct (bootstrap_gives_up None (Some (str "http://backend"))
              (Scenario.fresh_world
                 [(1%Z, NetworkError); (2%Z, NetworkError); (3%Z, NetworkError)])
              1%Z 2%Z 3%Z NetworkError NetworkError NetworkError []
              eq_refl eq_refl eq_refl eq_refl eq_refl eq_refl)
    as (w' & E & Hq & _ & Hs & _).
  exists w'. split; [exact E|]. split; [now rewrite Hq | exact Hs].
Defined.

(** X22. The bootstrap against a backend that answers: one request, the
    chat started with the [id] of the body, the session stored as it is
    left; and a bootstrap that is run again on that page (the widget is
    opened a second time) sends nothing and adds nothing, it only takes
    the two addresses. *)
Theorem bootstrap_connects (f b : option jsstring) (w : world) (t status : Z)
        (j : json) (rest : list (Z * fetch_result)) :
  chatStarted (st w) = false -> renderable w ->
  net w = (t, Response status (Some j)) :: rest -> j <> JNull ->
  (truthy (member j "message") = true -> is_string (member j "message") = true) ->
  exists w',
    startNewChatIfNeeded f b w = (Val tt, w')
    /\ chatStarted (st w') = true
    /\ chat_id (st w') = member j "id"
    /\ requests w' = requests w ++ [{| req_url := ChatNew b; req_body := None |}]
    /\ storage w' = saveChatbotSession (st w')
    /\ (forall f' b', startNewChatIfNeeded f' b' w' = (Val tt, with_urls f' b' w')).
Proof.
  intros Hcs Hr Hnet Hj Hmsg.
  unfold startNewChatIfNeeded at 1. unfold setFrontendUrl, setBackendUrl. run.
  cbn [st with_urls BACKEND_URL FRONTEND_URL]. rewrite Hcs.
  set (w0 := with_urls f b (with_urls f (BACKEND_URL w) w)).
  assert (Hr0 : renderable w0) by exact Hr.
  destruct (renderMessages_draws w0) as (o1 & w1 & E1 & Hd1 & _ & Hok1).
  destruct (Hok1 Hr0) as ([] & ->). erewrite bind_val by exact E1.
  assert (Hr1 : renderable w1) by now apply (renderable_step Hd1).
  unfold dom_step in Hd1. cbn in Hd1.
  destruct Hd1 as (_ & _ & _ & _ & _ & _ & _ & Hn1 & Hq1 & Hb1 & _).
  rewrite Hnet in Hn1.
  destruct (startChat_ok w1 t status j rest Hn1 Hj Hr1 Hmsg)
    as (w2 & E2 & Hc2 & _ & Hs2 & _ & _ & Hq2 & _).
  erewrite bind_val by exact E2. run.
  eexists. split; [reflexivity|]. cbn.
  split; [exact Hs2|]. split; [exact Hc2|].
  split; [rewrite Hq2, Hq1; unfold start_request; rewrite Hb1; reflexivity|].
  split; [reflexivity|].
  intros f' b'. unfold startNewChatIfNeeded, setFrontendUrl, setBackendUrl. run.
  cbn [st with_urls with_storage]. rewrite Hs2. reflexivity.
Qed.

Lemma bootstrap_connects_witness :
  exists w',
    startNewChatIfNeeded None None
      (Scenario.fresh_world [(1%Z, Response 200 (Some Scenario.greeting_body))])
    = (Val tt, w')
    /\ chatStarted (st w') = true
    /\ startNewChatIfNeeded None None w' = (Val tt, with_urls None None w').
Proof.
  destruct (bootstrap_connects None None
              (Scenario.fresh_world [(1%Z, Response 200 (Some Scenario.greeting_body))])
              1%Z 200%Z Scenario.greeting_body [] eq_refl eq_refl eq_refl)
    as (w' & E & Hs & _ & _ & _ & Hagain); [discriminate | reflexivity |].
  exists w'. split; [exact E|]. split; [exact Hs | apply Hagain].
Defined.

(** X23. Accepting the privacy notice shows the chat, marks the session
    and stores it: a page that loads the stored session has the notice
    accepted, and [setupPrivacyOverlay] leaves its chat as shown as it
    is. *)
Theorem privacy_acceptance_persists (w : world) :
  renderable w ->
  exists w',
    accept_privacy w = (Val tt, w')
    /\ privacyAccepted (st w') = true
    /\ chat_hidden (page w') = false
    /\ privacyAccepted (loadChatbotSession (storage w') initial) = true
    /\ (forall w0, st w0 = loadChatbotSession (storage w') initial ->
                   chat_hidden (page (snd (setupPrivacyOverlay w0))) = chat_hidden (page w0)).
Proof.
  intros Hr. destruct (renderMessages_ok w Hr) as (ns & H).
  set (w1 := with_st (set_privacyAccepted true) (with_page (set_chat_hidden false) w)).
  specialize (H w1 eq_refl).
  assert (Hp : privacyAccepted (st (rendered ns w1)) = true)
    by (rewrite (proj1 (proj2 (proj2 (proj2 (rendered_session ns w1))))); reflexivity).
  assert (Hl : privacyAccepted (loadChatbotSession (storage (rendered ns w1)) initial) = true)
    by exact Hp.
  exists (rendered ns w1). split; [|split; [|split; [|split]]].
  - unfold accept_privacy. run. fold w1. exact H.
  - exact Hp.
  - reflexivity.
  - exact Hl.
  - intros w0 E. unfold setupPrivacyOverlay. run. rewrite E, Hl. reflexivity.
Qed.

Lemma privacy_acceptance_persists_witness :
  exists w',
    accept_privacy (Scenario.fresh_world []) = (Val tt, w')
    /\ privacyAccepted (loadChatbotSession (storage w') initial) = true.
Proof.
  destruct (privacy_acceptance_persists (Scenario.fresh_world []) eq_refl)
    as (w' & E & _ & _ & Hl & _).
  exists w'. split; [exact E | exact Hl].
Defined.

(** X24. A reply whose [message] is not a string ends the submit handler
    with an exception after the one request: the handler does not retry,
    the answers still to come are not consumed, and the handler does not
    get to store the session. *)
Theorem submit_bad_reply_throws (w : world) (t status : Z)
        (fields : list (jsstring * json)) (rest : list (Z * fetch_result)) :
  renderable w ->
  List.length (trim Util.plain (input_value (page w))) <> 0 ->
  truthy (chat_id (st w)) = true ->
  net w = (t, Response status (Some (JObj fields))) :: rest ->
  has_meta (JObj fields) = true ->
  is_string (lookup (str "message") fields) = false ->
  exists w',
    on_submit w = (Throw, w')
    /\ requests w'
       = requests w ++ [send_request w (trim Util.plain (input_value (page w)))]
    /\ net w' = rest
    /\ chatMessages (st w')
       = chatMessages (st w)
         ++ [user_msg (trim Util.plain (input_value (page w)));
             bot_msg (lookup (str "message") fields); send_apology].
Proof.
  intros Hr Hne Hid Hnet Hmeta Hs.
  set (u := trim Util.plain (input_value (page w))) in *.
  unfold on_submit. run. fold u.
  destruct (Nat.eqb_spec (List.length u) 0) as [|_]; [contradiction|].
  match goal with
  | |- context [bind get_state ?k] =>
    destruct (submit_prelude_input w u _ k Hr)
      as (w0 & E & Hr0 & Hm0 & Hc0 & Ha0 & Hd0 & Hn0 & Hq0 & Hb0 & Hi0)
  end.
  rewrite E. rewrite Hc0, Hid. cbn [negb]. rewrite Hnet in Hn0.
  destruct (sendChatMessage_unhandled u w0 t status fields rest Hn0 Hmeta Hs Hr0)
    as (w1 & E1 & Hm1 & _ & Hq1 & Hn1).
  erewrite bind_throw by exact E1.
  assert (Hs0 : send_request w0 u = send_request w u) by now apply send_request_same.
  exists w1. split; [reflexivity|].
  split; [rewrite Hq1, Hq0, Hs0; reflexivity|]. split; [exact Hn1|].
  rewrite Hm1, Hm0, <- app_assoc. reflexivity.
Qed.

Lemma submit_bad_reply_throws_witness :
  exists w',
    on_submit
      (Scenario.connected "c1"
         (Scenario.typed "Hallo"
            (Scenario.fresh_world
               [(1%Z, Response 200 (Some (Scenario.obj [("meta"%string, JObj [])])));
                (2%Z, NetworkError)])))
    = (Throw, w')
    /\ net w' = [(2%Z, NetworkError)].
Proof.
  destruct (submit_bad_reply_throws
              (Scenario.connected "c1"
                 (Scenario.typed "Hallo"
                    (Scenario.fresh_world
                       [(1%Z, Response 200 (Some (Scenario.obj [("meta"%string, JObj [])])));
                        (2%Z, NetworkError)])))
              1%Z 200%Z [(str "meta", JObj [])] [(2%Z, NetworkError)])
    as (w' & E & _ & Hn & _);
    [reflexivity | vm_compute; discriminate | reflexivity | reflexivity | reflexivity
     | reflexivity |].
  exists w'. split; [exact E | exact Hn].
Defined.

(* ===================================================================== *)
(** * Further properties of the link cleaner and of the escaping          *)
(* ===================================================================== *)

Lemma cleanLink_chars (P : N -> Prop) (url : jsstring) :
  P (chr "/") -> Forall P url -> Forall P (Util.cleanLink url).
Proof.
  intros Hs H. unfold Util.cleanLink, Util.Gen.cleanLink. cbv zeta.
  unfold replace_first.
  repeat (apply Forall_assemble;
          [|intros f; unfold expand, lift; cbn [flat_map];
            solve [constructor | vm_compute; repeat constructor; exact Hs]]).
  apply (Forall_trim Util.plain). exact H.
Qed.

(** X25. [cleanLink] only removes: every character of the cleaned link is
    a character of the link it was given, or the slash written in place of
    the dot segments at its end. *)
Theorem cleanLink_only_removes (url : jsstring) (c : N) :
  In c (Util.cleanLink url) -> In c url \/ c = chr "/".
Proof.
  intros H.
  assert (HF : Forall (fun x => In x url \/ x = chr "/") (Util.cleanLink url)).
  { apply cleanLink_chars; [right; reflexivity|].
    apply Forall_forall. intros x Hx. left. exact Hx. }
  exact (proj1 (Forall_forall _ _) HF c H).
Qed.

Lemma cleanLink_only_removes_witness :
  In (chr "/") (str "a/..") \/ chr "/" = chr "/".
Proof.
  apply (cleanLink_only_removes (str "a/..") (chr "/")).
  vm_compute. right. left. reflexivity.
Defined.

(** X26. Escaping goes through concatenation: the escaped form of two
    texts put together is the two escaped forms put together. *)
Theorem escapeHTML_app (a b : jsstring) :
  Util.escapeHTML (a ++ b) = Util.escapeHTML a ++ Util.escapeHTML b.
Proof. rewrite !escapeHTML_flat_map. apply flat_map_app. Qed.

(* ===================================================================== *)
(** * The submit handler and the typing indicator                         *)
(* ===================================================================== *)

Lemma rendered_ids (ns : list node) (w : world) :
  chat_id (st (rendered ns w)) = chat_id (st w)
  /\ asked_info (st (rendered ns w)) = asked_info (st w)
  /\ data_var (st (rendered ns w)) = data_var (st w)
  /\ chatStarted (st (rendered ns w)) = chatStarted (st w).
Proof.
  unfold rendered. cbn [st].
  destruct (botIsTyping (st w)); [destruct (no_waitStart (st w))|];
    cbn; repeat split; reflexivity.
Qed.

Lemma start_run (ns : list node) (w : world) :
  draw (chatMessages (st w)) = Val ns ->
  startTypingIndicator w = (Val tt, started ns w).
Proof.
  intros H. apply startTypingIndicator_run. intros w0 E.
  apply draw_render. rewrite E. exact H.
Qed.

Lemma stop_run (ns : list node) (w : world) :
  draw (chatMessages (st w)) = Val ns ->
  stopTypingIndicator w = (Val tt, stopped ns w).
Proof.
  intros H. apply stopTypingIndicator_run. intros w0 E.
  apply draw_render. rewrite E. exact H.
Qed.

(** What [stopTypingIndicator] leaves: the flag and the wait start
    cleared, the timer of the session no longer pending, the messages drawn
    again without an indicator, the input enabled unless the conversation
    is final. *)
Lemma stopped_facts (ns : list node) (w L : world) :
  L = stopped ns w ->
  botIsTyping (st L) = false
  /\ waitStart (st L) = None
  /\ nodes (page L) = ns
  /\ input_disabled (page L) = truthy (final_message (st w))
  /\ input_value (page L) = input_value (page w)
  /\ timers L
     = match fallbackTimer (st w) with
       | Some h => filter (fun x => negb (x =? h)%Z) (timers w)
       | None => timers w
       end
  /\ chatMessages (st L) = chatMessages (st w)
  /\ fallbackTimer (st L) = fallbackTimer (st w)
  /\ chat_id (st L) = chat_id (st w)
  /\ asked_info (st L) = asked_info (st w)
  /\ data_var (st L) = data_var (st w)
  /\ final_message (st L) = final_message (st w)
  /\ net L = net w
  /\ requests L = requests w
  /\ BACKEND_URL L = BACKEND_URL w
  /\ storage L = saveChatbotSession (st L).
Proof.
  intros ->. unfold stopped. destruct (fallbackTimer (st w)) as [h|] eqn:E;
    cbn; rewrite ?E; repeat split; reflexivity.
Qed.

(** What the submit handler has done when it tests [chat_id]. *)
Lemma submitted_facts (ns : list node) (u : jsstring) (w L : world) :
  L = submitted ns u w ->
  chatMessages (st L) = chatMessages (st w) ++ [user_msg u]
  /\ fallbackTimer (st L) = Some (next_timer w)
  /\ timers L = timers w ++ [next_timer w]
  /\ input_value (page L) = []
  /\ chat_id (st L) = chat_id (st w)
  /\ asked_info (st L) = asked_info (st w)
  /\ data_var (st L) = data_var (st w)
  /\ final_message (st L) = final_message (st w)
  /\ net L = net w
  /\ requests L = requests w
  /\ BACKEND_URL L = BACKEND_URL w.
Proof.
  intros ->. unfold submitted, started.
  set (w0 := with_st (push (user_msg u)) w).
  destruct (rendered_ids ns w0) as (Hc & Ha & Hd & _).
  destruct (rendered_session ns w0) as (Hm & _ & Hf & _).
  cbn in Hc, Ha, Hd, Hm, Hf.
  cbn. rewrite Hc, Ha, Hd, Hm, Hf. repeat split; reflexivity.
Qed.

Lemma pushed_facts (m : message) (w L : world) :
  L = with_st (push m) w ->
  chatMessages (st L) = chatMessages (st w) ++ [m]
  /\ botIsTyping (st L) = botIsTyping (st w)
  /\ waitStart (st L) = waitStart (st w)
  /\ fallbackTimer (st L) = fallbackTimer (st w)
  /\ final_message (st L) = final_message (st w)
  /\ requests L = requests w
  /\ net L = net w
  /\ timers L = timers w
  /\ page L = page w.
Proof. intros ->. repeat split; reflexivity. Qed.

(** The world in which the answer of the backend has been read and
    [final_message] set. *)
Lemma answered_facts (fm : jsval) (t : Z) (rest : list (Z * fetch_result))
      (rq : request) (w L : world) :
  L = with_st (set_final_message fm) (with_net t rest (with_request rq w)) ->
  chatMessages (st L) = chatMessages (st w)
  /\ fallbackTimer (st L) = fallbackTimer (st w)
  /\ final_message (st L) = fm
  /\ timers L = timers w
  /\ requests L = requests w ++ [rq]
  /\ net L = rest
  /\ input_value (page L) = input_value (page w).
Proof. intros ->. repeat split; reflexivity. Qed.

(** A render while the bot is not typing. *)
Lemma rendered_idle (ns : list node) (w L : world) :
  L = rendered ns w -> botIsTyping (st w) = false ->
  chatMessages (st L) = chatMessages (st w)
  /\ botIsTyping (st L) = false
  /\ waitStart (st L) = None
  /\ fallbackTimer (st L) = fallbackTimer (st w)
  /\ final_message (st L) = final_message (st w)
  /\ nodes (page L) = ns
  /\ input_disabled (page L) = truthy (final_message (st w))
  /\ input_value (page L) = input_value (page w)
  /\ timers L = timers w
  /\ requests L = requests w
  /\ net L = net w.
Proof.
  intros -> E. unfold rendered. cbn [st]. rewrite E.
  cbn. rewrite ?E. repeat split; reflexivity.
Qed.

(** The world in which [id] and [data] have been adopted and the session
    saved. *)
Lemma adopted_facts (id data : jsval) (w L : world) :
  L = with_storage
        (saveChatbotSession (st (with_st (set_data_var data) (with_st (set_chat_id id) w))))
        (with_st (set_data_var data) (with_st (set_chat_id id) w)) ->
  chat_id (st L) = id
  /\ data_var (st L) = data
  /\ chatMessages (st L) = chatMessages (st w)
  /\ botIsTyping (st L) = botIsTyping (st w)
  /\ waitStart (st L) = waitStart (st w)
  /\ fallbackTimer (st L) = fallbackTimer (st w)
  /\ final_message (st L) = final_message (st w)
  /\ page L = page w
  /\ timers L = timers w
  /\ requests L = requests w
  /\ net L = net w
  /\ storage L = saveChatbotSession (st L).
Proof. intros ->. repeat split; reflexivity. Qed.

Lemma submit_prelude_exact (w : world) (u : jsstring) (ns : list node) (T : Type)
      (k : state -> M T) :
  draw (chatMessages (st w) ++ [user_msg u]) = Val ns ->
  (update (push (user_msg u)) ;; renderMessages ;; startTypingIndicator ;;
   change_page (set_input_value []) ;; s <- get_state ;; k s) w
  = k (st (submitted ns u w)) (submitted ns u w).
Proof.
  intros H. run.
  set (w0 := with_st (push (user_msg u)) w).
  erewrite bind_val by (apply (draw_render ns w0); exact H).
  erewrite bind_val
    by (apply (start_run ns (rendered ns w0));
        rewrite (proj1 (rendered_session ns w0)); exact H).
  run. reflexivity.
Qed.

Lemma filter_fresh (h : Z) (l : list Z) :
  filter (fun x => negb (x =? h)%Z) (l ++ [h]) = filter (fun x => negb (x =? h)%Z) l.
Proof.
  rewrite filter_app. cbn [filter]. rewrite Z.eqb_refl. cbn [negb]. apply app_nil_r.
Qed.

(** C6. A submit with a non-blank input while [chat_id] is [null]
    appends the user message (the trimmed input) and the bot message
    [Chatverbindung nicht hergestellt.] and issues no request: nothing is
    sent, nothing is retried, no answer of the backend is consumed.  The
    typing indicator it had started is stopped: the flag and the wait
    start are cleared, the timer the handler had armed is cancelled (what
    stays pending is what was pending before the submit under another
    handle), the message list is drawn again, up to the user message and
    with no indicator on the page, and the input is emptied and enabled
    unless the conversation is final.  The bot message is pushed after
    that render: it is in the session and not yet on the page.  (The messages already in the session are such as the renderer
    can draw.) *)
Theorem submit_without_chat_id (w : world) :
  renderable w ->
  List.length (trim Util.plain (input_value (page w))) <> 0 ->
  chat_id (st w) = null ->
  exists w',
    on_submit w = (Val Rejected, w')
    /\ chatMessages (st w')
       = chatMessages (st w)
         ++ [user_msg (trim Util.plain (input_value (page w)));
             bot_says "Chatverbindung nicht hergestellt."]
    /\ botIsTyping (st w') = false
    /\ requests w' = requests w
    /\ net w' = net w
    /\ waitStart (st w') = None
    /\ fallbackTimer (st w') = Some (next_timer w)
    /\ timers w' = filter (fun x => negb (x =? next_timer w)%Z) (timers w)
    /\ draw (chatMessages (st w) ++ [user_msg (trim Util.plain (input_value (page w)))])
       = Val (nodes (page w'))
    /\ existsb is_waiting (nodes (page w')) = false
    /\ input_disabled (page w') = truthy (final_message (st w))
    /\ input_value (page w') = [].
Proof.
  intros Hr Hne Hnull.
  set (u := trim Util.plain (input_value (page w))) in *.
  assert (Hr1 : forallb drawable (chatMessages (st w) ++ [user_msg u]) = true)
    by (rewrite forallb_app, Hr; reflexivity).
  destruct (draw_total _ Hr1) as (ns & Hns).
  pose (X := submitted ns u w).
  pose (S := stopped ns X).
  pose (L := with_st (push not_connected) S).
  destruct (submitted_facts ns u w X eq_refl)
    as (Hm & Hft & Htm & Hiv & Hc & _ & _ & Hf & Hn & Hq & _).
  destruct (stopped_facts ns X S eq_refl)
    as (St & Sw & Sn & Sd & Sv & Stm & Sm & Sft & _ & _ & _ & _ & Snet & Sq & _).
  destruct (pushed_facts not_connected S L eq_refl)
    as (Pm & Pt & Pw & Pft & _ & Pq & Pn & Ptm & Pp).
  exists L. split.
  - unfold on_submit. run. fold u.
    destruct (Nat.eqb_spec (List.length u) 0) as [|_]; [contradiction|].
    rewrite (submit_prelude_exact w u ns _ _ Hns). fold X.
    rewrite Hc, Hnull. cbn [truthy null negb].
    erewrite bind_val by (apply (stop_run ns); rewrite Hm; exact Hns).
    run. reflexivity.
  - rewrite Pm, Pt, Pw, Pft, Pq, Pn, Ptm, Pp.
    rewrite Sm, Hm, St, Sq, Hq, Snet, Hn, Sw, Sft, Hft, Stm, Hft, Htm, Sn, Sd, Hf, Sv, Hiv.
    rewrite filter_fresh, <- app_assoc.
    repeat split; try reflexivity; [exact Hns | exact (draw_plain _ _ Hns)].
Qed.

Lemma submit_without_chat_id_witness :
  exists w',
    on_submit (Scenario.typed "Hallo" (Scenario.fresh_world [])) = (Val Rejected, w')
    /\ chatMessages (st w')
       = [user_msg (str "Hallo"); bot_says "Chatverbindung nicht hergestellt."]
    /\ requests w' = []
    /\ timers w' = []
    /\ nodes (page w') = [UserMsg (Some (JStr (str "Hallo")))]
    /\ input_disabled (page w') = false.
Proof.
  destruct (submit_without_chat_id (Scenario.typed "Hallo" (Scenario.fresh_world [])))
    as (w' & E & Hm & _ & Hq & _ & _ & _ & Ht & Hd & _ & Hi & _);
    [reflexivity | vm_compute; discriminate | reflexivity |].
  exists w'. split; [exact E|]. split; [exact Hm|]. split; [exact Hq|].
  split; [exact Ht|]. split; [|exact Hi].
  vm_compute in Hd. injection Hd as Hd. symmetry. exact Hd.
Defined.

(** The turn that is answered, with the world it leaves. *)
Lemma sendChatMessage_exact (u : jsstring) (w : world) (t : Z) (r : fetch_result)
      (rest : list (Z * fetch_result)) (m : jsstring) (id data : jsval)
      (n1 n2 : list node) :
  net w = (t, r) :: rest -> delivered r = Some (m, id, data) ->
  draw (chatMessages (st w)) = Val n1 ->
  draw (chatMessages (st w) ++ [bot_msg (Some (JStr m))]) = Val n2 ->
  exists fm,
    sendChatMessage u w
    = (Val true,
       with_st (set_data_var data)
         (with_st (set_chat_id id)
            (rendered n2
               (with_st (push (bot_msg (Some (JStr m))))
                  (stopped n1
                     (with_st (set_final_message fm)
                        (with_net t rest (with_request (send_request w u) w)))))))).
Proof.
  intros Hnet Hdel H1 H2.
  destruct r as [|status [[| | | | |fields]|]]; try discriminate.
  unfold delivered in Hdel.
  destruct (has_meta (JObj fields)) eqn:Hmeta; [|discriminate].
  destruct (lookup (str "message") fields) as [[| | |m'| |]|] eqn:Hmsg; try discriminate.
  inversion Hdel; subst m' id data; clear Hdel.
  destruct (@read_meta fields Hmeta) as (fm & Hfm).
  exists (if truthy fm then fm else Some (JBool false)).
  set (w2 := with_net t rest (with_request (send_request w u) w)).
  set (w3 := with_st (set_final_message (if truthy fm then fm else Some (JBool false))) w2).
  assert (E4 : stopTypingIndicator w3 = (Val tt, stopped n1 w3))
    by (apply stop_run; exact H1).
  set (w5 := with_st (push (bot_msg (Some (JStr m)))) (stopped n1 w3)).
  assert (E6 : renderMessages w5 = (Val tt, rendered n2 w5)).
  { apply draw_render. unfold w5. cbn [st with_st push chatMessages set_chatMessages].
    destruct (stopped_facts n1 w3 _ eq_refl) as (_ & _ & _ & _ & _ & _ & Sm & _).
    rewrite Sm. exact H2. }
  unfold sendChatMessage. apply try_val. run. unfold bind at 1. unfold fetch.
  cbn [net with_request]. rewrite Hnet. fold (send_request w u). fold w2. run.
  erewrite bind_val by apply Hfm. run. fold w3. erewrite bind_val by exact E4. run.
  rewrite Hmsg. run. fold w5. erewrite bind_val by exact E6. run. reflexivity.
Qed.

(** X20. The turn that is answered at once: with a connected session and
    an input that is not blank, the handler sends one request, appends the
    user message and the reply, adopts [id] and [data], and stores the
    session it leaves.  The typing indicator it had started is stopped:
    the flag and the wait start are cleared, the timer the handler had
    armed is cancelled (what stays pending is what was pending before the
    submit under another handle), and the message list is drawn again, up
    to the reply and with no indicator on the page; the input is emptied,
    and disabled exactly when the reply made the conversation final. *)
Theorem submit_delivers (w : world) (t : Z) (r : fetch_result)
        (rest : list (Z * fetch_result)) (m : jsstring) (id data : jsval) :
  renderable w ->
  List.length (trim Util.plain (input_value (page w))) <> 0 ->
  truthy (chat_id (st w)) = true ->
  net w = (t, r) :: rest ->
  delivered r = Some (m, id, data) ->
  exists w',
    on_submit w = (Val Delivered, w')
    /\ requests w'
       = requests w ++ [send_request w (trim Util.plain (input_value (page w)))]
    /\ chatMessages (st w')
       = chatMessages (st w)
         ++ [user_msg (trim Util.plain (input_value (page w))); bot_msg (Some (JStr m))]
    /\ chat_id (st w') = id
    /\ data_var (st w') = data
    /\ botIsTyping (st w') = false
    /\ input_value (page w') = []
    /\ storage w' = saveChatbotSession (st w')
    /\ net w' = rest
    /\ waitStart (st w') = None
    /\ fallbackTimer (st w') = Some (next_timer w)
    /\ timers w' = filter (fun x => negb (x =? next_timer w)%Z) (timers w)
    /\ draw (chatMessages (st w')) = Val (nodes (page w'))
    /\ existsb is_waiting (nodes (page w')) = false
    /\ input_disabled (page w') = truthy (final_message (st w')).
Proof.
  intros Hr Hne Hid Hnet Hdel.
  set (u := trim Util.plain (input_value (page w))) in *.
  assert (Hr1 : forallb drawable (chatMessages (st w) ++ [user_msg u]) = true)
    by (rewrite forallb_app, Hr; reflexivity).
  assert (Hr2 : forallb drawable
                  ((chatMessages (st w) ++ [user_msg u]) ++ [bot_msg (Some (JStr m))])
                = true)
    by (rewrite forallb_app, Hr1; reflexivity).
  destruct (draw_total _ Hr1) as (n1 & Hn1).
  destruct (draw_total _ Hr2) as (n2 & Hn2).
  pose (X := submitted n1 u w).
  destruct (submitted_facts n1 u w X eq_refl)
    as (Hm & Hft & Htm & Hiv & Hc & Ha & Hd & Hf & Hn & Hq & Hb).
  assert (Hs0 : send_request X u = send_request w u)
    by (unfold send_request, send_body; now rewrite Hc, Ha, Hd, Hb).
  destruct (sendChatMessage_exact u X t r rest m id data n1 n2) as (fm & E1);
    [rewrite Hn; exact Hnet | exact Hdel | rewrite Hm; exact Hn1 | rewrite Hm; exact Hn2 |].
  pose (L1 := with_st (set_final_message fm)
                (with_net t rest (with_request (send_request X u) X))).
  pose (L2 := stopped n1 L1).
  pose (L3 := with_st (push (bot_msg (Some (JStr m)))) L2).
  pose (L4 := rendered n2 L3).
  pose (L5 := with_storage
                (saveChatbotSession
                   (st (with_st (set_data_var data) (with_st (set_chat_id id) L4))))
                (with_st (set_data_var data) (with_st (set_chat_id id) L4))).
  destruct (answered_facts fm t rest (send_request X u) X L1 eq_refl)
    as (Am & Aft & Af & Atm & Aq & An & Aiv).
  destruct (stopped_facts n1 L1 L2 eq_refl)
    as (St & _ & _ & _ & Sv & Stm & Sm & Sft & _ & _ & _ & Sf & Snet & Sq & _).
  destruct (pushed_facts (bot_msg (Some (JStr m))) L2 L3 eq_refl)
    as (Pm & Pt & _ & Pft & Pf & Pq & Pn & Ptm & Pp).
  assert (Et : botIsTyping (st L3) = false) by (rewrite Pt; exact St).
  destruct (rendered_idle n2 L3 L4 eq_refl Et)
    as (Rm & Rt & Rw & Rft & Rf & Rn & Rd & Rv & Rtm & Rq & Rnet).
  destruct (adopted_facts id data L4 L5 eq_refl)
    as (Dc & Dd & Dm & Dt & Dw & Dft & Df & Dp & Dtm & Dq & Dn & Ds).
  assert (Em : chatMessages (st L5)
               = chatMessages (st w) ++ [user_msg u; bot_msg (Some (JStr m))])
    by (rewrite Dm, Rm, Pm, Sm, Am, Hm, <- app_assoc; reflexivity).
  exists L5. split.
  - unfold on_submit. run. fold u.
    destruct (Nat.eqb_spec (List.length u) 0) as [|_]; [contradiction|].
    rewrite (submit_prelude_exact w u n1 _ _ Hn1). fold X.
    rewrite Hc, Hid. cbn [negb].
    erewrite bind_val by exact E1. run. reflexivity.
  - split; [rewrite Dq, Rq, Pq, Sq, Aq, Hq, Hs0; reflexivity|].
    split; [exact Em|]. split; [exact Dc|]. split; [exact Dd|].
    split; [rewrite Dt; exact Rt|].
    split; [rewrite Dp, Rv, Pp, Sv, Aiv; exact Hiv|].
    split; [exact Ds|].
    split; [rewrite Dn, Rnet, Pn, Snet; exact An|].
    split; [rewrite Dw; exact Rw|].
    split; [rewrite Dft, Rft, Pft, Sft, Aft; exact Hft|].
    split; [rewrite Dtm, Rtm, Ptm, Stm, Aft, Hft, Atm, Htm; apply filter_fresh|].
    split; [rewrite Em, Dp, Rn; rewrite <- app_assoc in Hn2; exact Hn2|].
    split; [rewrite Dp, Rn; exact (draw_plain _ _ Hn2)|].
    rewrite Dp, Rd, Df, Rf. reflexivity.
Qed.

Lemma submit_delivers_witness :
  exists w',
    on_submit
      (Scenario.connected "c1"
         (Scenario.typed "Hallo"
            (Scenario.fresh_world
               [(1%Z, Response 200 (Some (Scenario.turn_body "Guten Tag" "c2")))])))
    = (Val Delivered, w')
    /\ chat_id (st w') = Some (Scenario.jstr "c2")
    /\ input_value (page w') = []
    /\ storage w' = saveChatbotSession (st w')
    /\ timers w' = []
    /\ waitStart (st w') = None.
Proof.
  destruct (submit_delivers
              (Scenario.connected "c1"
                 (Scenario.typed "Hallo"
                    (Scenario.fresh_world
                       [(1%Z, Response 200 (Some (Scenario.turn_body "Guten Tag" "c2")))])))
              1%Z (Response 200 (Some (Scenario.turn_body "Guten Tag" "c2"))) []
              (str "Guten Tag") (Some (Scenario.jstr "c2")) (Some JNull))
    as (w' & E & _ & _ & Hc & _ & _ & Hi & Hs & _ & Hw & _ & Ht & _);
    [reflexivity | vm_compute; discriminate | reflexivity | reflexivity | reflexivity |].
  exists w'. split; [exact E|]. split; [exact Hc|]. split; [exact Hi|].
  split; [exact Hs|]. split; [exact Ht | exact Hw].
Defined.
